(** * Date-time range picker: timezone resolution and range validation

    A shallow embedding of [src/utils/date.ts], [src/utils/constraints.ts]
    and [src/utils/timezone.ts], with the part of the ECMAScript [Date]
    and [Number] semantics these files rely on, followed by the
    properties of the validator ([validateRange], [isDateDisabled]) and
    of the resolver ([createDateInTimezone]).

    The embedding then goes on to the rest of [src/utils/date.ts], to
    [src/utils/presets.ts] and to the handlers of the three components,
    [src/components/TimePicker.tsx], [src/components/CalendarGrid.tsx]
    and [src/components/DateTimeRangePicker.tsx]: a handler is a
    function from the state of the render that created it to the next
    state, a loop that pushes cells is a recursive function on the
    number of iterations left, and the clock and the local time zone of
    the host are parameters of the presets.

    Conventions of the embedding:
    - a JavaScript [number] is [NaN], an infinity or a rational, the
      two zeros being one value; the arithmetic of [Js] ([Js.add],
      [Js.sub], [Js.mul], [Js.div]) rounds its exact result to
      binary64, and the algorithms on time values, whose operands and
      results are integers below 2^53 in magnitude, are written on the
      integers;
    - a [Date] object is its time value: invalid ([NaN]) or an integral
      count of milliseconds since the epoch, at most 8.64e15 in
      magnitude;
    - the arguments of [createDateInTimezone] are integers;
    - the text of an error message is kept as its template and its
      arguments;
    - [Intl.DateTimeFormat] and [Number] applied to a string belong to
      the host platform: they are parameters of the functions that call
      them, and instances are given for evaluation.

    The definitions come first (the platform, the three source files,
    the vocabulary of the statements, sample inputs), the proofs
    after them. *)

From Stdlib Require Import ZArith QArith Qround Qabs Qpower Bool List String
  Ascii Lia Lqa.
From Stdlib Require SpecFloat.
Import ListNotations.

Local Open Scope Z_scope.

(* ===================================================================== *)
(** * ECMAScript numbers *)
(* ===================================================================== *)

Module Js.

(** The values of type [number] that the programs below can observe. *)
Inductive number : Type :=
| NaN
| NegInf
| Fin (q : Q)
| PosInf.

Definition ofZ (z : Z) : number := Fin (inject_Z z).

(** [a < b]; every comparison with [NaN] is false. *)
Definition lt (a b : number) : bool :=
  match a, b with
  | NaN, _ | _, NaN => false
  | NegInf, NegInf => false
  | NegInf, _ => true
  | _, NegInf => false
  | PosInf, _ => false
  | Fin _, PosInf => true
  | Fin x, Fin y => match Qcompare x y with Lt => true | _ => false end
  end.

(** [a > b]. *)
Definition gt (a b : number) : bool := lt b a.

(** [a === b] on numbers. *)
Definition seq (a b : number) : bool :=
  match a, b with
  | NegInf, NegInf | PosInf, PosInf => true
  | Fin x, Fin y => Qeq_bool x y
  | _, _ => false
  end.

(** [a <= b] and [a >= b]. *)
Definition le (a b : number) : bool := lt a b || seq a b.
Definition ge (a b : number) : bool := le b a.

(** ** Binary64 arithmetic *)

(** The integer nearest to [n / d], for [0 < d]; of two nearest
    integers, the even one. *)
Definition roundHalfEven (n d : Z) : Z :=
  let q := n / d in
  let r := n mod d in
  if 2 * r <? d then q
  else if d <? 2 * r then q + 1
  else if Z.even q then q else q + 1.

(** [floor (log2 x)] for a rational [0 < x]. *)
Definition binade (x : Q) : Z :=
  let e := Z.log2 (Qnum x) - Z.log2 (Zpos (Qden x)) in
  if Qle_bool (2 ^ e) x then e else e - 1.

(** The Number value for a rational [0 < x] (ECMA-262, 6.1.6.1; IEEE
    754 roundTiesToEven): [x] is rounded to a multiple [m * 2 ^ p] of
    the unit in its last place, which leaves 53 significant bits and
    is never below [2 ^ -1074]; from [2 ^ 1024] on the result is
    [Infinity]. *)
Definition roundPositive (x : Q) : number :=
  let p := Z.max (binade x - 52) (-1074) in
  let y := (x / 2 ^ p)%Q in
  let m := roundHalfEven (Qnum y) (Zpos (Qden y)) in
  let r := (inject_Z m * 2 ^ p)%Q in
  if Qle_bool (2 ^ 1024) r then PosInf else Fin r.

(** [- a] *)
Definition neg (a : number) : number :=
  match a with
  | NaN => NaN
  | NegInf => PosInf
  | Fin q => Fin (- q)
  | PosInf => NegInf
  end.

(** The Number value for a rational. *)
Definition toDouble (x : Q) : number :=
  match Qnum x with
  | Z0 => Fin 0
  | Zpos _ => roundPositive x
  | Zneg _ => neg (roundPositive (- x))
  end.

(** [a + b], [a - b], [a * b] and [a / b]: the exact result, rounded.
    A zero divisor is read as [+0]. *)
Definition add (a b : number) : number :=
  match a, b with
  | NaN, _ | _, NaN => NaN
  | PosInf, NegInf | NegInf, PosInf => NaN
  | PosInf, _ | _, PosInf => PosInf
  | NegInf, _ | _, NegInf => NegInf
  | Fin x, Fin y => toDouble (x + y)
  end.

Definition sub (a b : number) : number := add a (neg b).

(** [inf] with the sign of [q] applied to it; [NaN] when [q] is zero. *)
Definition signedInf (q : Q) (inf : number) : number :=
  match Qnum q with
  | Z0 => NaN
  | Zpos _ => inf
  | Zneg _ => neg inf
  end.

Definition mul (a b : number) : number :=
  match a, b with
  | NaN, _ | _, NaN => NaN
  | PosInf, PosInf | NegInf, NegInf => PosInf
  | PosInf, NegInf | NegInf, PosInf => NegInf
  | PosInf, Fin y | Fin y, PosInf => signedInf y PosInf
  | NegInf, Fin y | Fin y, NegInf => signedInf y NegInf
  | Fin x, Fin y => toDouble (x * y)
  end.

Definition div (a b : number) : number :=
  match a, b with
  | NaN, _ | _, NaN => NaN
  | (PosInf | NegInf), (PosInf | NegInf) => NaN
  | PosInf, Fin y => match Qnum y with Zneg _ => NegInf | _ => PosInf end
  | NegInf, Fin y => match Qnum y with Zneg _ => PosInf | _ => NegInf end
  | Fin _, (PosInf | NegInf) => Fin 0
  | Fin x, Fin y =>
      match Qnum y with
      | Z0 => signedInf x PosInf
      | _ => toDouble (x / y)
      end
  end.

(** [Math.floor(a)] *)
Definition floor (a : number) : number :=
  match a with Fin q => Fin (inject_Z (Qfloor q)) | _ => a end.

(** ** Comparison with [SpecFloat]

    [SpecFloat] is the specification of IEEE 754 arithmetic of the
    standard library, after Flocq; binary64 has a precision of 53 bits
    and its infinities have the exponent 1024. *)

(** The value of a number of [SpecFloat]. *)
Definition ofSpecFloat (f : SpecFloat.spec_float) : number :=
  match f with
  | SpecFloat.S754_zero _ => Fin 0
  | SpecFloat.S754_infinity s => if s then NegInf else PosInf
  | SpecFloat.S754_nan => NaN
  | SpecFloat.S754_finite s m e =>
      Fin (inject_Z (if s then Zneg m else Zpos m) * 2 ^ e)
  end.

(** [z * 2 ^ e] as a binary64 number of [SpecFloat]. *)
Definition specFloatOfZ (z e : Z) : SpecFloat.spec_float :=
  SpecFloat.binary_normalize 53 1024 z e false.

(** For two binary64 numbers [n] and [d], each given as [(z, e)] for
    [z * 2 ^ e]: [toDouble] of the exact quotient is the quotient of
    [SpecFloat]. *)
Definition agreesWithSpecFloat (n d : Z * Z) : bool :=
  seq (toDouble (inject_Z (fst n) * 2 ^ snd n / (inject_Z (fst d) * 2 ^ snd d)))
      (ofSpecFloat (SpecFloat.SFdiv 53 1024 (specFloatOfZ (fst n) (snd n))
                                    (specFloatOfZ (fst d) (snd d)))).

(** The outcome of a call: a value or a thrown exception. *)
Inductive exn : Type := RangeError.

Inductive completion (A : Type) : Type :=
| Normal (a : A)
| Throw (e : exn).
Arguments Normal {A} a.
Arguments Throw {A} e.

End Js.

(* ===================================================================== *)
(** * ECMAScript time values (ECMA-262, Date objects) *)
(* ===================================================================== *)

Module Ecma.

Definition msPerSecond : Z := 1000.
Definition msPerMinute : Z := 60000.
Definition msPerHour : Z := 3600000.
Definition msPerDay : Z := 86400000.

(** The largest magnitude of a time value. *)
Definition maxTimeValue : Z := 8640000000000000.

Definition Day (t : Z) : Z := t / msPerDay.
Definition TimeWithinDay (t : Z) : Z := t mod msPerDay.

Definition isLeap (y : Z) : bool :=
  ((y mod 4 =? 0) && negb (y mod 100 =? 0)) || (y mod 400 =? 0).

Definition DaysInYear (y : Z) : Z := if isLeap y then 366 else 365.

Definition DayFromYear (y : Z) : Z :=
  365 * (y - 1970) + (y - 1969) / 4 - (y - 1901) / 100 + (y - 1601) / 400.

Definition TimeFromYear (y : Z) : Z := msPerDay * DayFromYear y.

(** The year containing day number [d]: the largest [y] with
    [DayFromYear y <= d].  An estimate from the mean year length is
    off by at most one. *)
Definition YearFromDay (d : Z) : Z :=
  let y := 1970 + (400 * d) / 146097 in
  if d <? DayFromYear y then y - 1
  else if DayFromYear (y + 1) <=? d then y + 1
  else y.

Definition YearFromTime (t : Z) : Z := YearFromDay (Day t).

Definition InLeapYear (t : Z) : Z :=
  if isLeap (YearFromTime t) then 1 else 0.

Definition DayWithinYear (t : Z) : Z :=
  Day t - DayFromYear (YearFromTime t).

(** Day within the year on which month [m] (0-based) starts; [m = 12]
    gives the length of the year. *)
Definition monthStart (leap : Z) (m : Z) : Z :=
  match m with
  | 0 => 0
  | 1 => 31
  | 2 => 59 + leap
  | 3 => 90 + leap
  | 4 => 120 + leap
  | 5 => 151 + leap
  | 6 => 181 + leap
  | 7 => 212 + leap
  | 8 => 243 + leap
  | 9 => 273 + leap
  | 10 => 304 + leap
  | 11 => 334 + leap
  | _ => 365 + leap
  end.

Definition monthOfYearDay (leap : Z) (d : Z) : Z :=
  if d <? 31 then 0
  else if d <? 59 + leap then 1
  else if d <? 90 + leap then 2
  else if d <? 120 + leap then 3
  else if d <? 151 + leap then 4
  else if d <? 181 + leap then 5
  else if d <? 212 + leap then 6
  else if d <? 243 + leap then 7
  else if d <? 273 + leap then 8
  else if d <? 304 + leap then 9
  else if d <? 334 + leap then 10
  else 11.

Definition MonthFromTime (t : Z) : Z :=
  monthOfYearDay (InLeapYear t) (DayWithinYear t).

Definition DateFromTime (t : Z) : Z :=
  DayWithinYear t - monthStart (InLeapYear t) (MonthFromTime t) + 1.

Definition HourFromTime (t : Z) : Z := (t / msPerHour) mod 24.
Definition MinFromTime (t : Z) : Z := (t / msPerMinute) mod 60.
Definition SecFromTime (t : Z) : Z := (t / msPerSecond) mod 60.
Definition msFromTime (t : Z) : Z := t mod msPerSecond.

Definition MakeTime (hour min sec ms : Z) : Z :=
  hour * msPerHour + min * msPerMinute + sec * msPerSecond + ms.

(** [MakeDay]: the day number of the first of month [month mod 12] in
    year [year + floor (month / 12)], plus [date - 1]. *)
Definition MakeDay (year month date : Z) : Z :=
  let ym := year + month / 12 in
  let mn := month mod 12 in
  DayFromYear ym + monthStart (if isLeap ym then 1 else 0) mn + date - 1.

Definition MakeDate (day time : Z) : Z := day * msPerDay + time.

(** [TimeClip]: [None] stands for [NaN]. *)
Definition TimeClip (v : Z) : option Z :=
  if Z.abs v <=? maxTimeValue then Some v else None.

Definition MakeFullYear (y : Z) : Z :=
  if (0 <=? y) && (y <=? 99) then 1900 + y else y.

(** [Date.UTC(year, month, day, hour, minute, second)] on integral
    arguments. *)
Definition Date_UTC (year month day hour minute second : Z) : option Z :=
  TimeClip (MakeDate (MakeDay (MakeFullYear year) month day)
                     (MakeTime hour minute second 0)).

(** ** Date objects *)

Inductive Date : Type :=
| InvalidDate
| DateAt (t : Z).

(** [new Date(value)] for an integral [value]. *)
Definition newDate (v : Z) : Date :=
  match TimeClip v with Some t => DateAt t | None => InvalidDate end.

(** [new Date(value)] for a number: [TimeClip] keeps the integral
    part of a number of magnitude at most 8.64e15. *)
Definition newDateOf (value : Js.number) : Date :=
  match value with
  | Js.Fin q =>
      if Qle_bool (Qabs q) (inject_Z maxTimeValue)
      then DateAt (Z.quot (Qnum q) (Zpos (Qden q)))
      else InvalidDate
  | _ => InvalidDate
  end.

(** [new Date(Date.UTC(...))]. *)
Definition newDateOpt (v : option Z) : Date :=
  match v with Some t => newDate t | None => InvalidDate end.

(** [date.getTime()], also the value used by [<], [<=], [>], [>=]
    between two dates. *)
Definition getTime (d : Date) : Js.number :=
  match d with InvalidDate => Js.NaN | DateAt t => Js.ofZ t end.

Definition dateField (f : Z -> Z) (d : Date) : Js.number :=
  match d with InvalidDate => Js.NaN | DateAt t => Js.ofZ (f t) end.

Definition getUTCFullYear : Date -> Js.number := dateField YearFromTime.
Definition getUTCMonth : Date -> Js.number := dateField MonthFromTime.
Definition getUTCDate : Date -> Js.number := dateField DateFromTime.
Definition getUTCHours : Date -> Js.number := dateField HourFromTime.
Definition getUTCMinutes : Date -> Js.number := dateField MinFromTime.

(** [d.setUTCHours(h, m, s, ms)], as a function on the time value. *)
Definition setUTCHours (d : Date) (h m s ms : Z) : Date :=
  match d with
  | InvalidDate => InvalidDate
  | DateAt t => newDate (MakeDate (Day t) (MakeTime h m s ms))
  end.

(** [d.setUTCDate(d.getUTCDate() + k)], as a function on the time
    value: the date field is read, [k] is added and the result is
    written back. *)
Definition addUTCDate (d : Date) (k : Z) : Date :=
  match d with
  | InvalidDate => InvalidDate
  | DateAt t =>
      newDate (MakeDate
                 (MakeDay (YearFromTime t) (MonthFromTime t)
                          (DateFromTime t + k))
                 (TimeWithinDay t))
  end.

(** Relational operators between two [Date] objects. *)
Definition date_lt (a b : Date) : bool := Js.lt (getTime a) (getTime b).
Definition date_gt (a b : Date) : bool := Js.gt (getTime a) (getTime b).
Definition date_le (a b : Date) : bool := Js.le (getTime a) (getTime b).
Definition date_ge (a b : Date) : bool := Js.ge (getTime a) (getTime b).

End Ecma.

(* ===================================================================== *)
(** * src/utils/date.ts *)
(* ===================================================================== *)

Module DateTs.
Import Ecma.

(** [new Date(date)] copies the time value, so the copy is the value
    itself. *)
Definition startOfDay (date : Date) : Date :=
  let d := date in
  setUTCHours d 0 0 0 0.

Definition isSameDay (date1 date2 : Date) : bool :=
  Js.seq (getUTCFullYear date1) (getUTCFullYear date2) &&
  Js.seq (getUTCMonth date1) (getUTCMonth date2) &&
  Js.seq (getUTCDate date1) (getUTCDate date2).

(** [s.split(sep)] for a one-character separator: never empty. *)
Fixpoint split (sep : ascii) (s : string) : list string :=
  match s with
  | EmptyString => [EmptyString]
  | String c r =>
      if Ascii.eqb c sep then EmptyString :: split sep r
      else match split sep r with
           | h :: t => String c h :: t
           | [] => [String c EmptyString]
           end
  end.

(** [x ?? d], with [None] for [undefined]. *)
Definition nullish {A : Type} (x : option A) (d : A) : A :=
  match x with Some a => a | None => d end.

Record HoursMinutes : Type := { hours : Js.number; minutes : Js.number }.

Section ParseTime.
(** [Number] applied to a string (ECMAScript StringToNumber). *)
Variable Number : string -> Js.number.

Definition parseTime (timeString : string) : HoursMinutes :=
  let parts := map Number (split ":" timeString) in
  {| hours := nullish (nth_error parts 0) (Js.ofZ 0);
     minutes := nullish (nth_error parts 1) (Js.ofZ 0) |}.
End ParseTime.

(** An instance of [Number] for evaluation.  It agrees with
    StringToNumber on the empty string, on strings of ASCII decimal
    digits whose value is at most 2^53 (a longer string of digits is
    read here as its exact value, where StringToNumber rounds it), and
    on strings holding an ASCII letter that occurs in no numeric
    literal; it is only evaluated on such strings. *)
Definition digitValue (c : ascii) : option Z :=
  let n := Z.of_nat (nat_of_ascii c) in
  if (48 <=? n) && (n <=? 57) then Some (n - 48) else None.

Fixpoint digitsValue (acc : Z) (s : string) : option Z :=
  match s with
  | EmptyString => Some acc
  | String c r =>
      match digitValue c with
      | Some d => digitsValue (10 * acc + d) r
      | None => None
      end
  end.

Definition NumberOfDigits (s : string) : Js.number :=
  match digitsValue 0 s with
  | Some v => Js.ofZ v
  | None => Js.NaN
  end.

End DateTs.

(* ===================================================================== *)
(** * src/types.ts *)
(* ===================================================================== *)

Module Types.
Import Ecma.

Record DateTimeRange : Type :=
  { start : option Date;   (* Date | null *)
    end_ : option Date }.

Record ConstraintConfig : Type :=
  { minDate : option Date;
    maxDate : option Date;
    minTime : option string;
    maxTime : option string;
    blackoutDates : option (list Date);
    minDuration : option Js.number;
    maxDuration : option Js.number }.

Inductive ErrorType : Type :=
| min_date | max_date | min_time | max_time
| blackout | min_duration | max_duration | invalid_range.

(** The message templates of [validateRange], with their arguments. *)
Inductive Message : Type :=
| StartDateMustBeAfter (d : Date)
| EndDateMustBeBefore (d : Date)
| StartDateNotAvailable
| EndDateNotAvailable
| RangeContainsUnavailable
| StartMustBeBeforeEnd
| MinimumDurationIs (n : Js.number)
| MaximumDurationIs (n : Js.number)
| StartTimeMustBeAfter (s : string)
| EndTimeMustBeBefore (s : string).

Record ValidationError : Type :=
  { type : ErrorType; message : Message }.

Definition noConstraints : ConstraintConfig :=
  {| minDate := None; maxDate := None; minTime := None; maxTime := None;
     blackoutDates := None; minDuration := None; maxDuration := None |}.

End Types.

(* ===================================================================== *)
(** * src/utils/constraints.ts *)
(* ===================================================================== *)

Module ConstraintsTs.
Import Ecma DateTs Types.

Definition isBlackedOut (date : Date) (blackoutDates : option (list Date))
  : bool :=
  match blackoutDates with
  | None => false
  | Some l => existsb (fun blackoutDate => isSameDay date blackoutDate) l
  end.

(** The [while (currentDate <= endDate)] loop of [validateRange]:
    [Some true] when a blacked-out day is met, [Some false] when the
    loop runs to its end, [None] when [fuel] iterations do not
    suffice. *)
Fixpoint scanDays (fuel : nat) (currentDate endDate : Date)
         (blackoutDates : option (list Date)) : option bool :=
  match fuel with
  | O => None
  | S k =>
      if date_le currentDate endDate then
        if isBlackedOut currentDate blackoutDates then Some true
        else scanDays k (addUTCDate currentDate 1) endDate blackoutDates
      else Some false
  end.

(** One test per calendar day from [currentDate] to [endDate], and the
    last, failing test. *)
Definition scanFuel (currentDate endDate : Date) : nat :=
  match currentDate, endDate with
  | DateAt a, DateAt b => S (Z.to_nat (Day b - Day a + 1))
  | _, _ => 1%nat
  end.

(** A string is truthy unless it is empty. *)
Definition truthy (s : option string) : option string :=
  match s with
  | Some EmptyString => None
  | _ => s
  end.

Definition err (t : ErrorType) (m : Message) : option ValidationError :=
  Some {| type := t; message := m |}.

(** Statements of the form [if (...) return error;] run in sequence:
    the first error returned is the result. *)
Definition orElse (a b : option ValidationError) : option ValidationError :=
  match a with Some e => Some e | None => b end.

Infix ";;" := orElse (at level 61, right associativity).

(** [constraints.minDate && start < constraints.minDate] *)
Definition checkMinDate (start : Date) (constraints : ConstraintConfig)
  : option ValidationError :=
  match minDate constraints with
  | Some m =>
      if date_lt start m then err min_date (StartDateMustBeAfter m)
      else None
  | None => None
  end.

(** [constraints.maxDate && end > constraints.maxDate] *)
Definition checkMaxDate (end' : Date) (constraints : ConstraintConfig)
  : option ValidationError :=
  match maxDate constraints with
  | Some m =>
      if date_gt end' m then err max_date (EndDateMustBeBefore m)
      else None
  | None => None
  end.

(** The block guarded by [if (constraints.blackoutDates)]. *)
Definition checkBlackout (start end' : Date)
           (constraints : ConstraintConfig) : option ValidationError :=
  match blackoutDates constraints with
  | Some bl =>
      let startBlackedOut := isBlackedOut start (Some bl) in
      let endBlackedOut := isBlackedOut end' (Some bl) in
      if startBlackedOut then err blackout StartDateNotAvailable
      else if endBlackedOut then err blackout EndDateNotAvailable
      else
        let currentDate := startOfDay start in
        let endDate := startOfDay end' in
        match scanDays (scanFuel currentDate endDate) currentDate endDate
                       (Some bl) with
        | Some true => err blackout RangeContainsUnavailable
        | _ => None
        end
  | None => None
  end.

(** [start >= end] *)
Definition checkOrder (start end' : Date) : option ValidationError :=
  if date_ge start end' then err invalid_range StartMustBeBeforeEnd
  else None.

(** [(end.getTime() - start.getTime()) / (1000 * 60)] *)
Definition durationMinutes (start end' : Date) : Js.number :=
  Js.div (Js.sub (getTime end') (getTime start))
         (Js.mul (Js.ofZ 1000) (Js.ofZ 60)).

(** [constraints.minDuration !== undefined && durationMinutes < ...] *)
Definition checkMinDuration (start end' : Date)
           (constraints : ConstraintConfig) : option ValidationError :=
  match minDuration constraints with
  | Some m =>
      if Js.lt (durationMinutes start end') m
      then err min_duration (MinimumDurationIs m)
      else None
  | None => None
  end.

Definition checkMaxDuration (start end' : Date)
           (constraints : ConstraintConfig) : option ValidationError :=
  match maxDuration constraints with
  | Some m =>
      if Js.gt (durationMinutes start end') m
      then err max_duration (MaximumDurationIs m)
      else None
  | None => None
  end.

Section Validate.
Variable Number : string -> Js.number.

(** The block guarded by [if (constraints.minTime)]. *)
Definition checkMinTime (start : Date) (constraints : ConstraintConfig)
  : option ValidationError :=
  match truthy (minTime constraints) with
  | Some minTime =>
      let p := parseTime Number minTime in
      let minHours := hours p in
      let minMinutes := minutes p in
      let startHours := getUTCHours start in
      let startMinutes := getUTCMinutes start in
      if Js.lt startHours minHours ||
         (Js.seq startHours minHours && Js.lt startMinutes minMinutes)
      then err min_time (StartTimeMustBeAfter minTime)
      else None
  | None => None
  end.

(** The block guarded by [if (constraints.maxTime)]. *)
Definition checkMaxTime (end' : Date) (constraints : ConstraintConfig)
  : option ValidationError :=
  match truthy (maxTime constraints) with
  | Some maxTime =>
      let p := parseTime Number maxTime in
      let maxHours := hours p in
      let maxMinutes := minutes p in
      let endHours := getUTCHours end' in
      let endMinutes := getUTCMinutes end' in
      if Js.gt endHours maxHours ||
         (Js.seq endHours maxHours && Js.gt endMinutes maxMinutes)
      then err max_time (EndTimeMustBeBefore maxTime)
      else None
  | None => None
  end.

Definition validateRange (range : DateTimeRange)
           (constraints : ConstraintConfig) : option ValidationError :=
  match start range, end_ range with
  | Some start, Some end' =>
      checkMinDate start constraints ;;
      checkMaxDate end' constraints ;;
      checkBlackout start end' constraints ;;
      checkOrder start end' ;;
      checkMinDuration start end' constraints ;;
      checkMaxDuration start end' constraints ;;
      checkMinTime start constraints ;;
      checkMaxTime end' constraints
  | _, _ => None (* Partial range, not validated yet *)
  end.
End Validate.

Definition isDateDisabled (date : Date) (constraints : ConstraintConfig)
  : bool :=
  if match minDate constraints with
     | Some m => date_lt date m
     | None => false
     end then true
  else if match maxDate constraints with
          | Some m => date_gt date m
          | None => false
          end then true
  else if isBlackedOut date (blackoutDates constraints) then true
  else false.

End ConstraintsTs.

(* ===================================================================== *)
(** * src/utils/timezone.ts *)
(* ===================================================================== *)

Module TimezoneTs.
Import Ecma.

(** The numeric fields of [formatter.formatToParts(date)] after
    [parseInt]; [month] is 1-based, as printed. *)
Record Parts : Type :=
  { year : Z; month : Z; day : Z; hour : Z; minute : Z; second : Z }.

(** A resolved [Intl.DateTimeFormat]: its [formatToParts] on a valid
    time value. *)
Definition Formatter : Type := Z -> Parts.

(** The civil fields, with a 0-based month. *)
Record Civil : Type :=
  { cYear : Z; cMonth : Z; cDay : Z; cHour : Z; cMinute : Z }.

(** The fields [tzYear], [tzMonth], [tzDay], [tzHour], [tzMinute]
    read off the formatted parts. *)
Definition tzFields (formatted : Parts) : Civil :=
  {| cYear := year formatted; cMonth := month formatted - 1;
     cDay := day formatted; cHour := hour formatted;
     cMinute := minute formatted |}.

(** [tzYear === year && tzMonth === month && ...] *)
Definition sameFields (tz c : Civil) : bool :=
  (cYear tz =? cYear c) && (cMonth tz =? cMonth c) &&
  (cDay tz =? cDay c) && (cHour tz =? cHour c) &&
  (cMinute tz =? cMinute c).

(** The sign computed by the conditional chain of
    [createDateInTimezone]. *)
Definition comparison (tz c : Civil) : Z :=
  if negb (cYear tz =? cYear c)
  then (if cYear tz <? cYear c then -1 else 1)
  else if negb (cMonth tz =? cMonth c)
       then (if cMonth tz <? cMonth c then -1 else 1)
  else if negb (cDay tz =? cDay c)
       then (if cDay tz <? cDay c then -1 else 1)
  else if negb (cHour tz =? cHour c)
       then (if cHour tz <? cHour c then -1 else 1)
  else if negb (cMinute tz =? cMinute c)
       then (if cMinute tz <? cMinute c then -1 else 1)
  else 0.

(** [Math.floor((low + high) / 2)], in the arithmetic of numbers. *)
Definition midpoint (low high : Z) : Js.number :=
  Js.floor (Js.div (Js.add (Js.ofZ low) (Js.ofZ high)) (Js.ofZ 2)).

(** The [for] loop of [createDateInTimezone], with [n] iterations
    left.  [formatToParts] throws a [RangeError] on an invalid date.
    When [testDate] is valid, [mid] is its time value [t], an integer
    of magnitude at most 8.64e15, so that [mid + 1] and [mid - 1] are
    exact and [low] and [high] remain integers. *)
Fixpoint search (formatter : Formatter) (c : Civil) (n : nat)
         (low high : Z) (bestDate : Date) : Js.completion Date :=
  match n with
  | O => Js.Normal bestDate
  | S k =>
      let mid := midpoint low high in
      match newDateOf mid with
      | InvalidDate => Js.Throw Js.RangeError
      | DateAt t =>
          let tz := tzFields (formatter t) in
          if sameFields tz c then Js.Normal (DateAt t)
          else if comparison tz c <? 0
               then search formatter c k (t + 1) high bestDate
               else search formatter c k low (t - 1) bestDate
      end
  end.

Section Resolver.
(** [new Intl.DateTimeFormat(locale, { timeZone, ... })]: [None]
    when the constructor throws a [RangeError] for an unknown time
    zone. *)
Variable DateTimeFormat : string -> option Formatter.

Definition createDateInTimezone (year month day hour minute : Z)
           (timezone : string) : Js.completion Date :=
  let roughDate := newDateOpt (Date_UTC year month day hour minute 0) in
  match DateTimeFormat timezone with
  | None => Js.Throw Js.RangeError
  | Some formatter =>
      match roughDate with
      | InvalidDate =>
          (* low, high and mid are NaN; formatToParts throws *)
          Js.Throw Js.RangeError
      | DateAt r =>
          let low := r - 24 * 60 * 60 * 1000 in
          let high := r + 24 * 60 * 60 * 1000 in
          search formatter
                 {| cYear := year; cMonth := month; cDay := day;
                    cHour := hour; cMinute := minute |}
                 20 low high roughDate
      end
  end.

(** The formatting stage of [convertToTimezone]: the civil fields of
    an instant in [timezone], the month made 0-based as the source
    does.  (The source then parses these fields again as a time of the
    host and shifts it by an offset; no statement below depends on that
    stage.)  [formatToParts] throws on an invalid date. *)
Definition instantToCivil (date : Date) (timezone : string)
  : Js.completion Civil :=
  match DateTimeFormat timezone, date with
  | Some formatter, DateAt t =>
      Js.Normal (tzFields (formatter t))
  | _, _ => Js.Throw Js.RangeError
  end.
End Resolver.

(** ** Instances of the formatting oracle *)

(** The formatter of a zone whose offset from UTC at instant [t] is
    [offset t] milliseconds.  The year is the year of the proleptic
    Gregorian calendar; [Intl.DateTimeFormat] prints the year of the
    era, which is the same number from the year 1 on and differs
    before, so this is the formatter of such a zone for the instants
    of the years 1 and later. *)
Definition formatWithOffset (offset : Z -> Z) : Formatter :=
  fun t =>
    let w := t + offset t in
    {| year := YearFromTime w; month := MonthFromTime w + 1;
       day := DateFromTime w; hour := HourFromTime w;
       minute := MinFromTime w; second := SecFromTime w |}.

Definition utcOffset (t : Z) : Z := 0.

(** America/New_York around 2024: daylight time from
    2024-03-10T07:00:00Z until 2024-11-03T06:00:00Z. *)
Definition newYorkOffset (t : Z) : Z :=
  if (1710054000000 <=? t) && (t <? 1730613600000)
  then -4 * msPerHour else -5 * msPerHour.

Definition sampleZones (timezone : string) : option Formatter :=
  if String.eqb timezone "UTC" then Some (formatWithOffset utcOffset)
  else if String.eqb timezone "America/New_York"
       then Some (formatWithOffset newYorkOffset)
  else None.

End TimezoneTs.

(* ===================================================================== *)
(** * Vocabulary of the specification *)
(* ===================================================================== *)

Module Rules.
Import Ecma DateTs Types ConstraintsTs TimezoneTs.

(** A [Date] object never holds a time value beyond the clip range. *)
Definition wfDate (d : Date) : Prop :=
  match d with
  | InvalidDate => True
  | DateAt t => - maxTimeValue <= t <= maxTimeValue
  end.

(** ** When each rule of the validator is violated *)

Definition beforeMinDate (start : Date) (c : ConstraintConfig) : Prop :=
  exists m, minDate c = Some m /\ date_lt start m = true.

Definition afterMaxDate (end' : Date) (c : ConstraintConfig) : Prop :=
  exists m, maxDate c = Some m /\ date_gt end' m = true.

(** Day number [d] is the UTC calendar day of a blackout date. *)
Definition dayBlackedOut (d : Z) (bl : list Date) : Prop :=
  isBlackedOut (DateAt (d * msPerDay)) (Some bl) = true.

(** The start day, the end day or a day between them is blacked
    out. *)
Definition hitsBlackout (start end' : Date) (c : ConstraintConfig)
  : Prop :=
  exists bl, blackoutDates c = Some bl /\
    (isBlackedOut start (Some bl) = true \/
     isBlackedOut end' (Some bl) = true \/
     exists a b d, start = DateAt a /\ end' = DateAt b /\
                   Day a <= d <= Day b /\ dayBlackedOut d bl).

Definition notOrdered (start end' : Date) : Prop :=
  date_ge start end' = true.

Definition tooShort (start end' : Date) (c : ConstraintConfig) : Prop :=
  exists m, minDuration c = Some m /\
            Js.lt (durationMinutes start end') m = true.

Definition tooLong (start end' : Date) (c : ConstraintConfig) : Prop :=
  exists m, maxDuration c = Some m /\
            Js.gt (durationMinutes start end') m = true.

(** The time of day [h]:[m] is earlier (later) than the parsed
    bound. *)
Definition timeBefore (h m : Js.number) (p : HoursMinutes) : Prop :=
  Js.lt h (hours p) = true \/
  (Js.seq h (hours p) = true /\ Js.lt m (minutes p) = true).

Definition timeAfter (h m : Js.number) (p : HoursMinutes) : Prop :=
  Js.gt h (hours p) = true \/
  (Js.seq h (hours p) = true /\ Js.gt m (minutes p) = true).

Definition startsTooEarly (Number : string -> Js.number) (start : Date)
           (c : ConstraintConfig) : Prop :=
  exists str, minTime c = Some str /\ str <> EmptyString /\
              timeBefore (getUTCHours start) (getUTCMinutes start)
                         (parseTime Number str).

Definition endsTooLate (Number : string -> Js.number) (end' : Date)
           (c : ConstraintConfig) : Prop :=
  exists str, maxTime c = Some str /\ str <> EmptyString /\
              timeAfter (getUTCHours end') (getUTCMinutes end')
                        (parseTime Number str).

(** The order in which the specification lists the rules, and the
    violation each error type stands for. *)
Definition ruleOrder : list ErrorType :=
  [min_date; max_date; blackout; invalid_range;
   min_duration; max_duration; min_time; max_time].

Definition violated (Number : string -> Js.number) (t : ErrorType)
           (start end' : Date) (c : ConstraintConfig) : Prop :=
  match t with
  | min_date => beforeMinDate start c
  | max_date => afterMaxDate end' c
  | blackout => hitsBlackout start end' c
  | invalid_range => notOrdered start end'
  | min_duration => tooShort start end' c
  | max_duration => tooLong start end' c
  | min_time => startsTooEarly Number start c
  | max_time => endsTooLate Number end' c
  end.

(** The first error of a list of rule outcomes. *)
Fixpoint firstViolation (outcomes : list (option ValidationError))
  : option ValidationError :=
  match outcomes with
  | [] => None
  | Some e :: _ => Some e
  | None :: rest => firstViolation rest
  end.

(** The rules of [validateRange], each with the error type it
    reports, in the order of the specification. *)
Definition ruleList (Number : string -> Js.number) (start end' : Date)
           (c : ConstraintConfig)
  : list (ErrorType * option ValidationError) :=
  [ (min_date, checkMinDate start c);
    (max_date, checkMaxDate end' c);
    (blackout, checkBlackout start end' c);
    (invalid_range, checkOrder start end');
    (min_duration, checkMinDuration start end' c);
    (max_duration, checkMaxDuration start end' c);
    (min_time, checkMinTime Number start c);
    (max_time, checkMaxTime Number end' c) ].

(** The UTC calendar day of a date. *)
Definition calendarDay (d : Date) : option (Z * Z * Z) :=
  match d with
  | InvalidDate => None
  | DateAt t => Some (YearFromTime t, MonthFromTime t, DateFromTime t)
  end.

Definition onBlackoutDay (d : Date) (c : ConstraintConfig) : Prop :=
  exists bl b cd, blackoutDates c = Some bl /\ In b bl /\
                  calendarDay d = Some cd /\ calendarDay b = Some cd.

(** The component of an [HH:mm] string before the first colon. *)
Definition hourComponent (timeString : string) : string :=
  hd EmptyString (split ":" timeString).

Definition withoutMinTime (c : ConstraintConfig) : ConstraintConfig :=
  {| minDate := minDate c; maxDate := maxDate c; minTime := None;
     maxTime := maxTime c; blackoutDates := blackoutDates c;
     minDuration := minDuration c; maxDuration := maxDuration c |}.

Definition withoutMaxTime (c : ConstraintConfig) : ConstraintConfig :=
  {| minDate := minDate c; maxDate := maxDate c; minTime := minTime c;
     maxTime := None; blackoutDates := blackoutDates c;
     minDuration := minDuration c; maxDuration := maxDuration c |}.

(** ** Vocabulary of the resolver *)

(** The midpoints tested by the loop of [createDateInTimezone], in
    order. *)
Fixpoint candidates (formatter : Formatter) (c : Civil) (n : nat)
         (low high : Z) : list Z :=
  match n with
  | O => []
  | S k =>
      let mid := midpoint low high in
      match newDateOf mid with
      | InvalidDate => []
      | DateAt t =>
          let tz := tzFields (formatter t) in
          t :: (if sameFields tz c then []
                else if comparison tz c <? 0
                     then candidates formatter c k (t + 1) high
                     else candidates formatter c k low (t - 1))
      end
  end.

(** Civil fields read as a UTC wall clock, in milliseconds. *)
Definition wallClock (c : Civil) : Z :=
  MakeDate (MakeDay (cYear c) (cMonth c) (cDay c))
           (MakeTime (cHour c) (cMinute c) 0 0).

(** Distance on the wall clock between the civil time shown at
    instant [t] and the requested civil time. *)
Definition wallDistance (formatter : Formatter) (c : Civil) (t : Z) : Z :=
  Z.abs (wallClock (tzFields (formatter t)) - wallClock c).

Definition DaysInMonth (y m : Z) : Z :=
  let leap := if isLeap y then 1 else 0 in
  monthStart leap (m + 1) - monthStart leap m.

(** Well-formed civil fields, with a 0-based month. *)
Definition validCivil (c : Civil) : Prop :=
  0 <= cMonth c <= 11 /\
  1 <= cDay c <= DaysInMonth (cYear c) (cMonth c) /\
  0 <= cHour c <= 23 /\ 0 <= cMinute c <= 59.

(** A formatter that only prints well-formed fields. *)
Definition wellFormed (formatter : Formatter) : Prop :=
  forall t, validCivil (tzFields (formatter t)).

Definition mkCivil (year month day hour minute : Z) : Civil :=
  {| cYear := year; cMonth := month; cDay := day; cHour := hour;
     cMinute := minute |}.

Definition dayMs : Z := 24 * 60 * 60 * 1000.

(** The civil fields of the UTC wall clock at time value [w]. *)
Definition fieldsAt (w : Z) : Civil :=
  mkCivil (YearFromTime w) (MonthFromTime w) (DateFromTime w)
          (HourFromTime w) (MinFromTime w).

End Rules.

(* ===================================================================== *)
(** * Sample inputs *)
(* ===================================================================== *)

Module Samples.
Import Ecma DateTs Types ConstraintsTs TimezoneTs Rules.

Definition range (s e : Date) : DateTimeRange :=
  {| start := Some s; end_ := Some e |}.

(** 2024-03-15 at 00:00Z, 10:00Z, 10:30Z, 14:00Z and 20:00Z;
    2024-03-20 at 00:00Z *)
Definition mar15_00h00 : Date := DateAt 1710460800000.
Definition mar15_10h00 : Date := DateAt 1710496800000.
Definition mar15_10h30 : Date := DateAt 1710498600000.
Definition mar15_14h00 : Date := DateAt 1710511200000.
Definition mar15_20h00 : Date := DateAt 1710532800000.
Definition mar20_00h00 : Date := DateAt 1710892800000.

Definition onlyMinDate (m : Date) : ConstraintConfig :=
  {| minDate := Some m; maxDate := None; minTime := None; maxTime := None;
     blackoutDates := None; minDuration := None; maxDuration := None |}.

Definition onlyMinDuration (n : Z) : ConstraintConfig :=
  {| minDate := None; maxDate := None; minTime := None; maxTime := None;
     blackoutDates := None; minDuration := Some (Js.ofZ n);
     maxDuration := None |}.

Definition onlyMinDurationOf (m : Js.number) : ConstraintConfig :=
  {| minDate := None; maxDate := None; minTime := None; maxTime := None;
     blackoutDates := None; minDuration := Some m; maxDuration := None |}.

(** 2024-03-15 at 10:00:06Z *)
Definition mar15_10h00m06s : Date := DateAt 1710496806000.

(** The number written [0.1]. *)
Definition oneTenth : Js.number := Js.toDouble (1 # 10).

(** The first time value and the last but one. *)
Definition firstInstant : Date := DateAt (-8640000000000000).
Definition lastButOneInstant : Date := DateAt 8639999999999999.

Definition minDateAndMaxDuration (m : Date) (n : Z) : ConstraintConfig :=
  {| minDate := Some m; maxDate := None; minTime := None; maxTime := None;
     blackoutDates := None; minDuration := None;
     maxDuration := Some (Js.ofZ n) |}.

Definition onlyTimes (lo hi : option string) : ConstraintConfig :=
  {| minDate := None; maxDate := None; minTime := lo; maxTime := hi;
     blackoutDates := None; minDuration := None; maxDuration := None |}.

Definition newYork : Formatter := formatWithOffset newYorkOffset.
Definition gapCivil : Civil := mkCivil 2024 2 10 2 30.
Definition gapSeed : Z := 1710037800000.

End Samples.

(* ===================================================================== *)
(** * More of the platform: week days, setters, [Math], [String] *)
(* ===================================================================== *)

Module EcmaExtra.
Import Ecma.

Definition WeekDay (t : Z) : Z := (Day t + 4) mod 7.

Definition getUTCDay : Date -> Js.number := dateField WeekDay.

(** [d.setUTCMonth(month)] *)
Definition setUTCMonth (d : Date) (month : Z) : Date :=
  match d with
  | InvalidDate => InvalidDate
  | DateAt t =>
      newDate (MakeDate (MakeDay (YearFromTime t) month (DateFromTime t))
                        (TimeWithinDay t))
  end.

(** [d.setUTCHours(hour)], the other fields kept; [None] for a [NaN]
    argument. *)
Definition setUTCHoursOnly (d : Date) (hour : option Z) : Date :=
  match d, hour with
  | DateAt t, Some h =>
      newDate (MakeDate (Day t)
                        (MakeTime h (MinFromTime t) (SecFromTime t)
                                  (msFromTime t)))
  | _, _ => InvalidDate
  end.

(** [d.setUTCMinutes(min, sec, ms)]; [None] for a [NaN] argument. *)
Definition setUTCMinutes (d : Date) (min : option Z) (sec ms : Z) : Date :=
  match d, min with
  | DateAt t, Some m =>
      newDate (MakeDate (Day t) (MakeTime (HourFromTime t) m sec ms))
  | _, _ => InvalidDate
  end.

(** [Math.min] and [Math.max] of two numbers: [NaN] if either is. *)
Definition mathMin (a b : Js.number) : Js.number :=
  match a, b with
  | Js.NaN, _ | _, Js.NaN => Js.NaN
  | _, _ => if Js.lt b a then b else a
  end.

Definition mathMax (a b : Js.number) : Js.number :=
  match a, b with
  | Js.NaN, _ | _, Js.NaN => Js.NaN
  | _, _ => if Js.lt a b then b else a
  end.

(** [a + b] and [a - b] on numbers, not rounded: the sum of two
    integers is the number [Js.add] gives as long as it is at most
    [2 ^ 53] in magnitude. *)
Definition add (a b : Js.number) : Js.number :=
  match a, b with
  | Js.NaN, _ | _, Js.NaN => Js.NaN
  | Js.PosInf, Js.NegInf | Js.NegInf, Js.PosInf => Js.NaN
  | Js.PosInf, _ | _, Js.PosInf => Js.PosInf
  | Js.NegInf, _ | _, Js.NegInf => Js.NegInf
  | Js.Fin x, Js.Fin y => Js.Fin (x + y)
  end.

Definition neg (a : Js.number) : Js.number :=
  match a with
  | Js.NaN => Js.NaN
  | Js.PosInf => Js.NegInf
  | Js.NegInf => Js.PosInf
  | Js.Fin x => Js.Fin (- x)
  end.

Definition sub (a b : Js.number) : Js.number := add a (neg b).

(** The decimal digits of a non-negative integer, most significant
    first, in front of [acc]. *)
Definition digitChar (d : Z) : ascii := ascii_of_nat (Z.to_nat (48 + d)).

Fixpoint toDigits (fuel : nat) (n : Z) (acc : string) : string :=
  match fuel with
  | O => acc
  | S k =>
      let acc' := String (digitChar (n mod 10)) acc in
      if n <? 10 then acc' else toDigits k (n / 10) acc'
  end.

(** [String(n)] for an integer [n] of magnitude below 10^21. *)
Definition NumberToString (n : Z) : string :=
  if n <? 0
  then String "-" (toDigits (S (Z.to_nat (Z.log2 (- n)))) (- n) EmptyString)
  else toDigits (S (Z.to_nat (Z.log2 n))) n EmptyString.

Fixpoint repeatChar (n : nat) (c : ascii) (s : string) : string :=
  match n with
  | O => s
  | S k => String c (repeatChar k c s)
  end.

(** [s.padStart(len, c)] for a one-character filler. *)
Definition padStart (s : string) (len : nat) (c : ascii) : string :=
  repeatChar (len - String.length s) c s.

End EcmaExtra.

(* ===================================================================== *)
(** * src/utils/date.ts, the other functions *)
(* ===================================================================== *)

Module DateUtils.
Import Ecma EcmaExtra DateTs.

Definition endOfDay (date : Date) : Date :=
  let d := date in
  setUTCHours d 23 59 59 999.

Definition isDateBetween (date start end' : Date) : bool :=
  let time := getTime date in
  Js.ge time (getTime start) && Js.le time (getTime end').

(** [result.setUTCDate(result.getUTCDate() + days)] on a copy. *)
Definition addDays (date : Date) (days : Z) : Date :=
  let result := date in
  addUTCDate result days.

(** [result.setUTCMonth(result.getUTCMonth() + months)] on a copy. *)
Definition addMonths (date : Date) (months : Z) : Date :=
  let result := date in
  match result with
  | InvalidDate => InvalidDate
  | DateAt t => setUTCMonth result (MonthFromTime t + months)
  end.

(** [new Date(Date.UTC(year, month + 1, 0)).getUTCDate()] *)
Definition getDaysInMonth (year month : Z) : Js.number :=
  getUTCDate (newDateOpt (Date_UTC year (month + 1) 0 0 0 0)).

(** [formatTime] on integral hours and minutes. *)
Definition formatTime (hours minutes : Z) : string :=
  (padStart (NumberToString hours) 2 "0" ++ ":" ++
   padStart (NumberToString minutes) 2 "0")%string.

End DateUtils.

(* ===================================================================== *)
(** * Conversions: numbers to integers and to text *)
(* ===================================================================== *)

Module EcmaConv.
Import Ecma EcmaExtra.

(** The integer held by a number: [None] for [NaN], the infinities and
    the fractions. *)
Definition integral (x : Js.number) : option Z :=
  match x with
  | Js.Fin q =>
      if Qnum q mod Zpos (Qden q) =? 0
      then Some (Qnum q / Zpos (Qden q)) else None
  | _ => None
  end.

(** [String(x)] where its text is written out here: [NaN], the
    infinities and the integers of magnitude below 10^21; [None] for
    the other numbers. *)
Definition numberToString (x : Js.number) : option string :=
  match x with
  | Js.NaN => Some "NaN"%string
  | Js.PosInf => Some "Infinity"%string
  | Js.NegInf => Some "-Infinity"%string
  | Js.Fin _ =>
      match integral x with
      | Some n => if Z.abs n <? 10 ^ 21 then Some (NumberToString n)
                  else None
      | None => None
      end
  end.

(** [formatTime] of [src/utils/date.ts] on numbers. *)
Definition formatTimeOf (hours minutes : Js.number) : option string :=
  match numberToString hours, numberToString minutes with
  | Some h, Some m =>
      Some (padStart h 2 "0" ++ ":" ++ padStart m 2 "0")%string
  | _, _ => None
  end.

End EcmaConv.

(* ===================================================================== *)
(** * src/components/TimePicker.tsx *)
(* ===================================================================== *)

Module TimePickerTsx.
Import Ecma EcmaExtra EcmaConv DateTs ConstraintsTs.

Section Picker.
Variable Number : string -> Js.number.

(** The props [minTime] and [maxTime]; [None] for [undefined]. *)
Variables minTime maxTime : option string.

(** [updateTime]: the hours and minutes it stores with [setHours] and
    [setMinutes]. *)
Definition updateTime (newHours newMinutes : Js.number) : HoursMinutes :=
  let clampedHours := mathMax (Js.ofZ 0) (mathMin (Js.ofZ 23) newHours) in
  let clampedMinutes :=
    mathMax (Js.ofZ 0) (mathMin (Js.ofZ 59) newMinutes) in
  let final := {| hours := clampedHours; minutes := clampedMinutes |} in
  let final :=
    match truthy minTime with
    | Some s =>
        let min := parseTime Number s in
        if Js.lt (hours final) (hours min) ||
           (Js.seq (hours final) (hours min) &&
            Js.lt (minutes final) (minutes min))
        then {| hours := hours min; minutes := minutes min |}
        else final
    | None => final
    end in
  let final :=
    match truthy maxTime with
    | Some s =>
        let max := parseTime Number s in
        if Js.gt (hours final) (hours max) ||
           (Js.seq (hours final) (hours max) &&
            Js.gt (minutes final) (minutes max))
        then {| hours := hours max; minutes := minutes max |}
        else final
    | None => final
    end in
  final.


(** The buttons and the arrow keys, from the state [hours], [minutes]. *)
Definition incrementHours (st : HoursMinutes) : HoursMinutes :=
  updateTime (add (hours st) (Js.ofZ 1)) (minutes st).

Definition decrementHours (st : HoursMinutes) : HoursMinutes :=
  updateTime (sub (hours st) (Js.ofZ 1)) (minutes st).

Definition incrementMinutes (st : HoursMinutes) : HoursMinutes :=
  updateTime (hours st) (add (minutes st) (Js.ofZ 15)).

Definition decrementMinutes (st : HoursMinutes) : HoursMinutes :=
  updateTime (hours st) (sub (minutes st) (Js.ofZ 15)).

End Picker.

(** A bound of the picker read as a pair of integers: the prop is
    absent or empty and there is no bound, or it parses to the pair. *)
Definition boundIs (Number : string -> Js.number) (prop : option string)
           (b : option (Z * Z)) : Prop :=
  match truthy prop, b with
  | None, None => True
  | Some s, Some (h, m) =>
      parseTime Number s = {| hours := Js.ofZ h; minutes := Js.ofZ m |}
  | _, _ => False
  end.

(** [h1:m1] is not later than [h2:m2]. *)
Definition notLater (a b : Z * Z) : Prop :=
  fst a < fst b \/ (fst a = fst b /\ snd a <= snd b).

End TimePickerTsx.

(* ===================================================================== *)
(** * src/components/DateTimeRangePicker.tsx *)
(* ===================================================================== *)

Module DateTimeRangePickerTsx.
Import Ecma EcmaExtra EcmaConv DateTs DateUtils Types ConstraintsTs
       TimezoneTs.

(** [PresetConfig] of [src/types.ts]. *)
Record PresetConfig : Type :=
  { label : string; presetStart : Date; presetEnd : Date }.

(** The state of the component; [None] for [null]. *)
Record State : Type :=
  { timezone : string;
    selectedStartDate : option Date;
    selectedEndDate : option Date;
    startTime : string;
    endTime : string;
    hoverDate : option Date;
    currentMonth : Js.number;
    currentYear : Js.number;
    validationError : option ValidationError }.

Definition setSelectedStartDate (v : option Date) (st : State) : State :=
  {| timezone := timezone st; selectedStartDate := v;
     selectedEndDate := selectedEndDate st; startTime := startTime st;
     endTime := endTime st; hoverDate := hoverDate st;
     currentMonth := currentMonth st; currentYear := currentYear st;
     validationError := validationError st |}.

Definition setSelectedEndDate (v : option Date) (st : State) : State :=
  {| timezone := timezone st; selectedStartDate := selectedStartDate st;
     selectedEndDate := v; startTime := startTime st;
     endTime := endTime st; hoverDate := hoverDate st;
     currentMonth := currentMonth st; currentYear := currentYear st;
     validationError := validationError st |}.

Definition setStartTime (v : string) (st : State) : State :=
  {| timezone := timezone st; selectedStartDate := selectedStartDate st;
     selectedEndDate := selectedEndDate st; startTime := v;
     endTime := endTime st; hoverDate := hoverDate st;
     currentMonth := currentMonth st; currentYear := currentYear st;
     validationError := validationError st |}.

Definition setEndTime (v : string) (st : State) : State :=
  {| timezone := timezone st; selectedStartDate := selectedStartDate st;
     selectedEndDate := selectedEndDate st; startTime := startTime st;
     endTime := v; hoverDate := hoverDate st;
     currentMonth := currentMonth st; currentYear := currentYear st;
     validationError := validationError st |}.

Definition setHoverDate (v : option Date) (st : State) : State :=
  {| timezone := timezone st; selectedStartDate := selectedStartDate st;
     selectedEndDate := selectedEndDate st; startTime := startTime st;
     endTime := endTime st; hoverDate := v;
     currentMonth := currentMonth st; currentYear := currentYear st;
     validationError := validationError st |}.

Definition setCurrentMonth (v : Js.number) (st : State) : State :=
  {| timezone := timezone st; selectedStartDate := selectedStartDate st;
     selectedEndDate := selectedEndDate st; startTime := startTime st;
     endTime := endTime st; hoverDate := hoverDate st;
     currentMonth := v; currentYear := currentYear st;
     validationError := validationError st |}.

Definition setCurrentYear (v : Js.number) (st : State) : State :=
  {| timezone := timezone st; selectedStartDate := selectedStartDate st;
     selectedEndDate := selectedEndDate st; startTime := startTime st;
     endTime := endTime st; hoverDate := hoverDate st;
     currentMonth := currentMonth st; currentYear := v;
     validationError := validationError st |}.

Definition setValidationError (v : option ValidationError) (st : State)
  : State :=
  {| timezone := timezone st; selectedStartDate := selectedStartDate st;
     selectedEndDate := selectedEndDate st; startTime := startTime st;
     endTime := endTime st; hoverDate := hoverDate st;
     currentMonth := currentMonth st; currentYear := currentYear st;
     validationError := v |}.

Definition isSome {A : Type} (x : option A) : bool :=
  match x with Some _ => true | None => false end.

(** [handleDateSelect]; a handler reads the state of the render that
    created it, and its updates make the next state. *)
Definition handleDateSelect (st : State) (date : Date) : State :=
  let st1 :=
    if negb (isSome (selectedStartDate st)) ||
       (isSome (selectedStartDate st) && isSome (selectedEndDate st))
    then
      setHoverDate None
        (setSelectedEndDate None (setSelectedStartDate (Some date) st))
    else
      match selectedStartDate st, selectedEndDate st with
      | Some s, None =>
          setHoverDate None
            (if date_lt date s
             then setSelectedStartDate (Some date)
                    (setSelectedEndDate (Some s) st)
             else setSelectedEndDate (Some date) st)
      | _, _ => st
      end in
  let selectedMonth := getUTCMonth date in
  let selectedYear := getUTCFullYear date in
  if negb (Js.seq selectedMonth (currentMonth st)) ||
     negb (Js.seq selectedYear (currentYear st))
  then setCurrentYear selectedYear (setCurrentMonth selectedMonth st1)
  else st1.



(** [formatTime(d.getUTCHours(), d.getUTCMinutes())]: both getters
    return [NaN] on an invalid date, and [String(NaN)] is three
    characters long. *)
Definition formatTimeOfDate (d : Date) : string :=
  match d with
  | InvalidDate => "NaN:NaN"
  | DateAt t => formatTime (HourFromTime t) (MinFromTime t)
  end.

Definition handlePresetSelect (st : State) (preset : PresetConfig) : State :=
  setCurrentYear (getUTCFullYear (presetStart preset))
    (setCurrentMonth (getUTCMonth (presetStart preset))
       (setEndTime (formatTimeOfDate (presetEnd preset))
          (setStartTime (formatTimeOfDate (presetStart preset))
             (setSelectedEndDate (Some (presetEnd preset))
                (setSelectedStartDate (Some (presetStart preset)) st))))).

Section Combine.
Variable Number : string -> Js.number.
Variable DateTimeFormat : string -> option Formatter.

(** [combineDateAndTime].  [createDateInTimezone] is embedded on
    integers: the result is [None] where an argument it would get is
    not one (an invalid date, a time that does not parse to
    integers). *)
Definition combineDateAndTime (timezone : string) (date : Date)
           (time : string) : option (Js.completion Date) :=
  let parts := map Number (split ":" time) in
  let hours := nth_error parts 0 in
  let minutes := nth_error parts 1 in
  match integral (getUTCFullYear date), integral (getUTCMonth date),
        integral (getUTCDate date),
        integral (nullish hours (Js.ofZ 0)),
        integral (nullish minutes (Js.ofZ 0)) with
  | Some y, Some m, Some d, Some h, Some mi =>
      Some (createDateInTimezone DateTimeFormat y m d h mi timezone)
  | _, _, _, _, _ => None
  end.

(** What one run of the effect on the selection does: the next state
    and the argument of [onChange], if it is called. *)
Record Outcome : Type :=
  { next : State; changed : option DateTimeRange }.

(** The effect that follows a change of the selection; [constraints]
    is the prop, [None] for [undefined].  An exception thrown by
    [createDateInTimezone] leaves the effect. *)
Definition rangeEffect (constraints : option ConstraintConfig) (st : State)
  : option (Js.completion Outcome) :=
  match selectedStartDate st, selectedEndDate st with
  | Some s, Some e =>
      match combineDateAndTime (timezone st) s (startTime st) with
      | Some (Js.Normal start') =>
          match combineDateAndTime (timezone st) e (endTime st) with
          | Some (Js.Normal end') =>
              let range := {| start := Some start'; end_ := Some end' |} in
              let error :=
                validateRange Number range
                              (nullish constraints noConstraints) in
              match error with
              | None =>
                  Some (Js.Normal {| next := setValidationError None st;
                                     changed := Some range |})
              | Some x =>
                  Some (Js.Normal {| next := setValidationError (Some x) st;
                                     changed := None |})
              end
          | Some (Js.Throw x) => Some (Js.Throw x)
          | None => None
          end
      | Some (Js.Throw x) => Some (Js.Throw x)
      | None => None
      end
  | Some s, None =>
      match combineDateAndTime (timezone st) s (startTime st) with
      | Some (Js.Normal start') =>
          Some (Js.Normal {| next := st;
                             changed := Some {| start := Some start';
                                                end_ := None |} |})
      | Some (Js.Throw x) => Some (Js.Throw x)
      | None => None
      end
  | None, _ =>
      Some (Js.Normal {| next := st;
                         changed := Some {| start := None;
                                            end_ := None |} |})
  end.

End Combine.

End DateTimeRangePickerTsx.

(* ===================================================================== *)
(** * src/components/CalendarGrid.tsx *)
(* ===================================================================== *)

Module CalendarGridTsx.
Import Ecma EcmaExtra EcmaConv DateTs DateUtils.

(** A cell of the grid. *)
Record CalendarDay : Type := { date : Date; isCurrentMonth : bool }.

(** [new Date(Date.UTC(year, month, day))]; [None] for a day that is
    [NaN]. *)
Definition newDateUTC (year month : Z) (day : option Z) : Date :=
  match day with
  | Some d => newDateOpt (Date_UTC year month d 0 0 0)
  | None => InvalidDate
  end.

(** The number of times the body of [for (day = 1; day <= n; day++)]
    runs, and of [for (i = n - 1; i >= 0; i--)]: none when [n] is
    [NaN].  The bounds are results of [getUTCDay] and [getUTCDate],
    integers or [NaN]. *)
Definition iterations (n : option Z) : nat :=
  match n with
  | Some z => Z.to_nat z
  | None => O
  end.

(** [for (let i = n - 1; i >= 0; i--)
       days.push({ date: new Date(Date.UTC(prevYear, prevMonth,
                                           daysInPrevMonth - i)),
                   isCurrentMonth: false })]
    with [n] iterations left: the loop variable is [n - 1]. *)
Fixpoint pushPrevious (prevYear prevMonth : Z) (daysInPrevMonth : option Z)
         (n : nat) (days : list CalendarDay) : list CalendarDay :=
  match n with
  | O => days
  | S i =>
      let date :=
        newDateUTC prevYear prevMonth
                   (option_map (fun p => p - Z.of_nat i) daysInPrevMonth) in
      pushPrevious prevYear prevMonth daysInPrevMonth i
                   (days ++ [{| date := date; isCurrentMonth := false |}])
  end.

(** [for (let day = ...; day <= ...; day++)
       days.push({ date: new Date(Date.UTC(year, month, day)),
                   isCurrentMonth })]
    with [n] iterations left. *)
Fixpoint pushDays (year month : Z) (current : bool) (n : nat) (day : Z)
         (days : list CalendarDay) : list CalendarDay :=
  match n with
  | O => days
  | S k =>
      let date := newDateUTC year month (Some day) in
      pushDays year month current k (day + 1)
               (days ++ [{| date := date; isCurrentMonth := current |}])
  end.

(** The cells of the grid for the props [year] and [month], taken as
    integers. *)
Definition calendarDays (year month : Z) : list CalendarDay :=
  let daysInMonth := integral (getDaysInMonth year month) in
  let firstDayOfMonth := newDateUTC year month (Some 1) in
  let firstDayOfWeek := integral (getUTCDay firstDayOfMonth) in
  let days := [] in
  let prevMonth := if month =? 0 then 11 else month - 1 in
  let prevYear := if month =? 0 then year - 1 else year in
  let daysInPrevMonth := integral (getDaysInMonth prevYear prevMonth) in
  let days :=
    pushPrevious prevYear prevMonth daysInPrevMonth
                 (iterations firstDayOfWeek) days in
  let days := pushDays year month true (iterations daysInMonth) 1 days in
  let remainingDays := 42 - Z.of_nat (List.length days) in
  let nextMonth := if month =? 11 then 0 else month + 1 in
  let nextYear := if month =? 11 then year + 1 else year in
  pushDays nextYear nextMonth false (Z.to_nat remainingDays) 1 days.

Section Selection.
(** The props [selectedStartDate], [selectedEndDate] and [hoverDate];
    [None] for [null]. *)
Variables selectedStartDate selectedEndDate hoverDate : option Date.

Definition isInRange (date : Date) : bool :=
  match selectedStartDate with
  | None => false
  | Some s =>
      match selectedEndDate, hoverDate with
      | None, Some h =>
          let start := if date_lt s h then s else h in
          let end' := if date_lt s h then h else s in
          let day := startOfDay date in
          let rangeStart := startOfDay start in
          let rangeEnd := startOfDay end' in
          date_ge day rangeStart && date_le day rangeEnd
      | Some e, _ =>
          let start := startOfDay s in
          let end' := startOfDay e in
          let day := startOfDay date in
          date_ge day start && date_le day end'
      | None, None => false
      end
  end.

Definition isStartDate (date : Date) : bool :=
  match selectedStartDate with
  | Some s => isSameDay date s
  | None => false
  end.

Definition isEndDate (date : Date) : bool :=
  match selectedEndDate with
  | Some e => isSameDay date e
  | None => false
  end.

End Selection.

(** The keys that move the focus. *)
Inductive Key : Type :=
| ArrowLeft | ArrowRight | ArrowUp | ArrowDown
| Home | End_ | PageUp | PageDown.

(** [targetDate] in [handleKeyDown]. *)
Definition targetDate (year month : Z) (key : Key) (date : Date) : Date :=
  match key with
  | ArrowLeft => addDays date (-1)
  | ArrowRight => addDays date 1
  | ArrowUp => addDays date (-7)
  | ArrowDown => addDays date 7
  | Home => newDateUTC year month (Some 1)
  | End_ => newDateUTC year month (integral (getDaysInMonth year month))
  | PageUp => addMonths date (-1)
  | PageDown => addMonths date 1
  end.

(** Cell [k] of a grid whose month starts on day number [first], a
    weekday [w], and has [len] days: midnight of day
    [first - w + k], flagged when it belongs to the month. *)
Definition gridCell (first w len : Z) (k : nat) : CalendarDay :=
  {| date := DateAt ((first - w + Z.of_nat k) * msPerDay);
     isCurrentMonth := (w <=? Z.of_nat k) && (Z.of_nat k <? w + len) |}.

End CalendarGridTsx.

(* ===================================================================== *)
(** * src/utils/presets.ts *)
(* ===================================================================== *)

Module PresetsTs.
Import Ecma EcmaExtra EcmaConv DateTs DateUtils DateTimeRangePickerTsx.

(** [Math.round(a / b)] for integers [a] and [b]: the largest integer
    not above [a / b + 1/2]; [None] for [NaN] and the infinities, when
    [b] is 0. *)
Definition roundQuotient (a b : Z) : option Z :=
  if b =? 0 then None
  else Some (Qfloor (inject_Z a / inject_Z b + (1 # 2))).

(** [new Date(Date.UTC(year, month, day))] on numbers: an argument
    that is [NaN] gives an invalid date. *)
Definition newDateUTCOf (year month : Js.number) (day : Z) : Date :=
  match integral year, integral month with
  | Some y, Some m => newDateOpt (Date_UTC y m day 0 0 0)
  | _, _ => InvalidDate
  end.

(** [String(x)] inside a template literal, for the numbers a getter
    returns. *)
Definition textOf (x : Js.number) : string :=
  match numberToString x with
  | Some s => s
  | None => EmptyString
  end.

Section Presets.
(** The clock: the value of [new Date()]. *)
Variable now : Date.

(** The offset of the local time of the host from UTC at a time value,
    in milliseconds. *)
Variable LocalTZA : Z -> Z.

(** [date.getMinutes()], in the local time of the host; [None] for
    [NaN]. *)
Definition getMinutes (date : Date) : option Z :=
  match date with
  | DateAt t => Some (MinFromTime (t + LocalTZA t))
  | InvalidDate => None
  end.

Definition roundToInterval (date : Date) (intervalMinutes : Z) : Date :=
  let rounded := date in
  let minutes := getMinutes rounded in
  let roundedMinutes :=
    match minutes with
    | Some m =>
        option_map (fun q => q * intervalMinutes)
                   (roundQuotient m intervalMinutes)
    | None => None
    end in
  setUTCMinutes rounded roundedMinutes 0 0.

(** The helper [addHours] of [getRelativePresets]. *)
Definition addHours (date : Date) (hours : Z) : Date :=
  let result := date in
  setUTCHoursOnly result
                  (integral (add (getUTCHours result) (Js.ofZ hours))).

Definition getRelativePresets (roundingIntervalMinutes : Z)
  : list PresetConfig :=
  let roundedNow := roundToInterval now roundingIntervalMinutes in
  [ {| label := "Last 1 hour";
       presetStart := addHours roundedNow (-1);
       presetEnd := roundedNow |};
    {| label := "Last 4 hours";
       presetStart := addHours roundedNow (-4);
       presetEnd := roundedNow |};
    {| label := "Last 24 hours";
       presetStart := addHours roundedNow (-24);
       presetEnd := roundedNow |};
    {| label := "Today";
       presetStart := startOfDay now;
       presetEnd := endOfDay now |};
    {| label := "Yesterday";
       presetStart := startOfDay (addDays now (-1));
       presetEnd := endOfDay (addDays now (-1)) |};
    {| label := "Last 7 days";
       presetStart := startOfDay (addDays now (-7));
       presetEnd := endOfDay now |};
    {| label := "Last 30 days";
       presetStart := startOfDay (addDays now (-30));
       presetEnd := endOfDay now |};
    {| label := "This month";
       presetStart :=
         startOfDay (newDateUTCOf (getUTCFullYear now) (getUTCMonth now) 1);
       presetEnd := endOfDay now |};
    {| label := "Last month";
       presetStart :=
         startOfDay (newDateUTCOf (getUTCFullYear now)
                                  (sub (getUTCMonth now) (Js.ofZ 1)) 1);
       presetEnd :=
         endOfDay (newDateUTCOf (getUTCFullYear now) (getUTCMonth now) 0)
    |} ].

Definition getAbsolutePresets : list PresetConfig :=
  let currentYear := getUTCFullYear now in
  [ {| label := "Q1 " ++ textOf currentYear;
       presetStart := startOfDay (newDateUTCOf currentYear (Js.ofZ 0) 1);
       presetEnd := endOfDay (newDateUTCOf currentYear (Js.ofZ 2) 31) |};
    {| label := "Q2 " ++ textOf currentYear;
       presetStart := startOfDay (newDateUTCOf currentYear (Js.ofZ 3) 1);
       presetEnd := endOfDay (newDateUTCOf currentYear (Js.ofZ 5) 30) |};
    {| label := "Q3 " ++ textOf currentYear;
       presetStart := startOfDay (newDateUTCOf currentYear (Js.ofZ 6) 1);
       presetEnd := endOfDay (newDateUTCOf currentYear (Js.ofZ 8) 30) |};
    {| label := "Q4 " ++ textOf currentYear;
       presetStart := startOfDay (newDateUTCOf currentYear (Js.ofZ 9) 1);
       presetEnd := endOfDay (newDateUTCOf currentYear (Js.ofZ 11) 31) |}
  ]%string.

End Presets.

(** The two ends of a preset. *)
Definition ends (p : PresetConfig) : Date * Date :=
  (presetStart p, presetEnd p).

End PresetsTs.

(* ===================================================================== *)
(** * Facts about numbers and time values *)
(* ===================================================================== *)

Module JsFacts.
Import Js.

Lemma Qcompare_inject_Z (a b : Z) :
  Qcompare (inject_Z a) (inject_Z b) = Z.compare a b.
Proof. unfold Qcompare; simpl. now rewrite !Z.mul_1_r. Qed.

Lemma lt_ofZ (a b : Z) : lt (ofZ a) (ofZ b) = (a <? b).
Proof.
  unfold lt, ofZ. rewrite Qcompare_inject_Z. unfold Z.ltb.
  now destruct (a ?= b).
Qed.

Lemma gt_ofZ (a b : Z) : gt (ofZ a) (ofZ b) = (b <? a).
Proof. apply lt_ofZ. Qed.

Lemma seq_ofZ (a b : Z) : seq (ofZ a) (ofZ b) = (a =? b).
Proof.
  unfold seq, ofZ. destruct (Z.eqb_spec a b) as [->|N].
  - apply Qeq_bool_iff. reflexivity.
  - destruct (Qeq_bool (inject_Z a) (inject_Z b)) eqn:E; [|reflexivity].
    apply Qeq_bool_iff in E. apply (proj1 (inject_Z_injective a b)) in E.
    contradiction.
Qed.

Lemma le_ofZ (a b : Z) : le (ofZ a) (ofZ b) = (a <=? b).
Proof.
  unfold le. rewrite lt_ofZ, seq_ofZ.
  destruct (Z.ltb_spec a b), (Z.eqb_spec a b), (Z.leb_spec a b);
    simpl; try reflexivity; lia.
Qed.

Lemma ge_ofZ (a b : Z) : ge (ofZ a) (ofZ b) = (b <=? a).
Proof. apply le_ofZ. Qed.

Lemma lt_NaN_r (a : number) : lt a NaN = false.
Proof. now destruct a. Qed.

Lemma lt_NaN_l (a : number) : lt NaN a = false.
Proof. reflexivity. Qed.

Lemma seq_NaN_r (a : number) : seq a NaN = false.
Proof. now destruct a. Qed.

(** [a < b] and [a >= b] exclude each other. *)
Lemma lt_ge_false (a b : number) : lt a b = true -> ge a b = false.
Proof.
  unfold ge, le.
  destruct a as [| |x|], b as [| |y|]; simpl; try discriminate; auto.
  destruct (Qcompare x y) eqn:E; try discriminate. intros _.
  apply Qlt_alt in E.
  destruct (Qcompare y x) eqn:E'.
  - apply Qeq_alt in E'. rewrite E' in E. now apply Qlt_irrefl in E.
  - apply Qlt_alt in E'. exfalso. apply (Qlt_irrefl x).
    now apply Qlt_trans with y.
  - simpl. destruct (Qeq_bool y x) eqn:Q; [|reflexivity].
    apply Qeq_bool_iff in Q. rewrite Q in E. now apply Qlt_irrefl in E.
Qed.

(** ** Rounding to binary64 *)

(** [roundHalfEven n d] is at most half a unit from [n / d], and is
    [n / d] when that is an integer. *)
Lemma roundHalfEven_bound (n d : Z) :
  0 < d -> - d <= 2 * (roundHalfEven n d * d - n) <= d.
Proof.
  intros Hd. unfold roundHalfEven.
  pose proof (Z.div_mod n d ltac:(lia)) as E.
  pose proof (Z.mod_pos_bound n d Hd) as B.
  destruct (Z.ltb_spec (2 * (n mod d)) d);
    [|destruct (Z.ltb_spec d (2 * (n mod d)));
      [|destruct (Z.even (n / d))]]; nia.
Qed.

Lemma roundHalfEven_exact (k d : Z) :
  0 < d -> roundHalfEven (k * d) d = k.
Proof.
  intros Hd. unfold roundHalfEven.
  rewrite Z.div_mul, Z.mod_mul by lia.
  destruct (Z.ltb_spec (2 * 0) d); [reflexivity|lia].
Qed.

Lemma roundHalfEven_floor (n d : Z) :
  0 < d -> n / d <= roundHalfEven n d <= n / d + 1.
Proof.
  intros Hd. unfold roundHalfEven.
  destruct (2 * (n mod d) <? d); [lia|].
  destruct (d <? 2 * (n mod d)); [lia|].
  destruct (Z.even (n / d)); lia.
Qed.

(** Powers of two, with exponents of either sign. *)
Lemma pow2_pos (e : Z) : (0 < 2 ^ e)%Q.
Proof. apply Qpower_0_lt. reflexivity. Qed.

Lemma pow2_plus (a b : Z) : (2 ^ (a + b) == 2 ^ a * 2 ^ b)%Q.
Proof. apply Qpower_plus. discriminate. Qed.

Lemma pow2_Z (a : Z) : 0 <= a -> (2 ^ a == inject_Z (2 ^ a))%Q.
Proof. intros H. symmetry. apply (Zpower_Qpower 2 a H). Qed.

Lemma pow2_le (a b : Z) : a <= b -> (2 ^ a <= 2 ^ b)%Q.
Proof.
  intros H. replace b with (a + (b - a)) by ring.
  rewrite pow2_plus, (pow2_Z (b - a)) by lia.
  rewrite <- (Qmult_1_r (2 ^ a)) at 1.
  apply Qmult_le_l; [apply pow2_pos|].
  change 1%Q with (inject_Z 1). rewrite <- Zle_Qle.
  pose proof (Z.pow_pos_nonneg 2 (b - a)). lia.
Qed.

Lemma pow2_lt (a b : Z) : a < b -> (2 ^ a < 2 ^ b)%Q.
Proof.
  intros H. replace b with (a + (b - a)) by ring.
  rewrite pow2_plus, (pow2_Z (b - a)) by lia.
  rewrite <- (Qmult_1_r (2 ^ a)) at 1.
  apply Qmult_lt_l; [apply pow2_pos|].
  change 1%Q with (inject_Z 1). rewrite <- Zlt_Qlt.
  pose proof (Z.pow_gt_1 2 (b - a)). lia.
Qed.

Lemma pow2_minus_frac (a b : Z) :
  0 <= a -> 0 <= b -> (2 ^ (a - b) == 2 ^ a # Z.to_pos (2 ^ b))%Q.
Proof.
  intros Ha Hb. unfold Z.sub. rewrite pow2_plus, Qpower_opp.
  rewrite (pow2_Z a Ha), (pow2_Z b Hb).
  rewrite (Qmake_Qdiv (2 ^ a) (Z.to_pos (2 ^ b))).
  rewrite Z2Pos.id by (apply Z.pow_pos_nonneg; lia).
  reflexivity.
Qed.

(** [binade x] is the exponent of the power of two at or below [x]. *)
Lemma binade_spec (x : Q) :
  (0 < x)%Q -> (2 ^ binade x <= x)%Q /\ (x < 2 ^ (binade x + 1))%Q.
Proof.
  destruct x as [n d]. intros Hx.
  assert (Hn : 0 < n) by (unfold Qlt in Hx; cbn in Hx; lia).
  unfold binade. cbn [Qnum Qden].
  pose proof (Z.log2_spec n Hn) as Ln.
  pose proof (Z.log2_spec (Zpos d) eq_refl) as Ld.
  pose proof (Z.log2_nonneg n) as Nn.
  pose proof (Z.log2_nonneg (Zpos d)) as Nd.
  set (ln := Z.log2 n) in *. set (ld := Z.log2 (Zpos d)) in *.
  clearbody ln ld.
  assert (A : (2 ^ (ln - ld - 1) <= n # d)%Q).
  { replace (ln - ld - 1) with (ln - (ld + 1)) by ring.
    rewrite pow2_minus_frac by lia.
    unfold Qle. cbn [Qnum Qden].
    rewrite Z2Pos.id by (apply Z.pow_pos_nonneg; lia). nia. }
  assert (B : (n # d < 2 ^ (ln - ld + 1))%Q).
  { replace (ln - ld + 1) with (ln + 1 - ld) by ring.
    rewrite pow2_minus_frac by lia.
    unfold Qlt. cbn [Qnum Qden].
    rewrite Z2Pos.id by (apply Z.pow_pos_nonneg; lia). nia. }
  destruct (Qle_bool (2 ^ (ln - ld)) (n # d)) eqn:T.
  - apply Qle_bool_iff in T. split; assumption.
  - split; [exact A|].
    replace (ln - ld - 1 + 1) with (ln - ld) by ring.
    apply Qnot_le_lt. intros H. apply Qle_bool_iff in H. congruence.
Qed.

Lemma binade_unique (x : Q) (e : Z) :
  (2 ^ e <= x)%Q -> (x < 2 ^ (e + 1))%Q -> binade x = e.
Proof.
  intros L U.
  assert (Hx : (0 < x)%Q) by (eapply Qlt_le_trans; [apply (pow2_pos e)|exact L]).
  destruct (binade_spec x Hx) as [L' U'].
  destruct (Z.lt_trichotomy (binade x) e) as [H|[H|H]]; [|exact H|].
  - exfalso. assert (binade x + 1 <= e) by lia.
    apply (Qlt_irrefl x). eapply Qlt_le_trans; [exact U'|].
    eapply Qle_trans; [apply pow2_le; eassumption|exact L].
  - exfalso. assert (e + 1 <= binade x) by lia.
    apply (Qlt_irrefl x). eapply Qlt_le_trans; [exact U|].
    eapply Qle_trans; [apply pow2_le; eassumption|exact L'].
Qed.

(** The same two facts about [roundHalfEven] on a fraction. *)
Lemma roundHalfEven_Q (y : Q) :
  (Qabs (inject_Z (roundHalfEven (Qnum y) (Zpos (Qden y))) - y) <= 1 # 2)%Q.
Proof.
  destruct y as [n d]. cbn [Qnum Qden].
  pose proof (roundHalfEven_bound n (Zpos d) eq_refl) as B.
  set (m := roundHalfEven n (Zpos d)) in *. clearbody m.
  apply Qabs_Qle_condition.
  unfold Qle, Qminus, Qplus, Qopp, inject_Z. cbn [Qnum Qden].
  rewrite !Pos2Z.inj_mul. split; nia.
Qed.

Lemma roundHalfEven_Q_exact (y : Q) (k : Z) :
  (y == inject_Z k)%Q -> roundHalfEven (Qnum y) (Zpos (Qden y)) = k.
Proof.
  destruct y as [n d]. unfold Qeq, inject_Z. cbn [Qnum Qden].
  intros E. replace n with (k * Zpos d) by lia.
  apply roundHalfEven_exact. reflexivity.
Qed.

Lemma roundHalfEven_nonneg (n d : Z) :
  0 <= n -> 0 < d -> 0 <= roundHalfEven n d.
Proof.
  intros Hn Hd. pose proof (roundHalfEven_floor n d Hd).
  pose proof (Z.div_pos n d Hn Hd). lia.
Qed.

(** The significand and the unit in the last place chosen by
    [roundPositive]. *)
Lemma roundPositive_spec (x : Q) :
  (0 < x)%Q ->
  let p := Z.max (binade x - 52) (-1074) in
  exists m, 0 <= m /\
    (Qabs (inject_Z m * 2 ^ p - x) <= 2 ^ (p - 1))%Q /\
    roundPositive x = (if Qle_bool (2 ^ 1024) (inject_Z m * 2 ^ p)
                       then PosInf else Fin (inject_Z m * 2 ^ p)).
Proof.
  intros Hx p. unfold roundPositive. fold p.
  set (y := (x / 2 ^ p)%Q).
  pose proof (roundHalfEven_Q y) as B.
  assert (Hy : (0 <= y)%Q).
  { unfold y. apply Qlt_le_weak. apply Qlt_shift_div_l; [apply pow2_pos|].
    now rewrite Qmult_0_l. }
  exists (roundHalfEven (Qnum y) (Zpos (Qden y))).
  split; [|split; [|reflexivity]].
  - apply roundHalfEven_nonneg; [|reflexivity].
    destruct y as [n d]. unfold Qle in Hy. cbn in Hy |- *. lia.
  - set (m := roundHalfEven (Qnum y) (Zpos (Qden y))) in *. clearbody m.
    assert (E : (inject_Z m * 2 ^ p - x == (inject_Z m - y) * 2 ^ p)%Q).
    { unfold y. field. apply Qnot_eq_sym, Qlt_not_eq, pow2_pos. }
    rewrite E, Qabs_Qmult, (Qabs_pos (2 ^ p)) by apply Qlt_le_weak, pow2_pos.
    replace p with (p - 1 + 1) at 1 by ring.
    rewrite pow2_plus.
    setoid_replace (2 ^ (p - 1))%Q with ((1 # 2) * (2 ^ (p - 1) * 2 ^ 1))%Q at 2
      by (change (2 ^ 1)%Q with 2%Q; field).
    apply Qmult_le_compat_r; [exact B|].
    apply Qlt_le_weak. rewrite <- pow2_plus. apply pow2_pos.
Qed.

Lemma Qle_bool_false (a b : Q) : (b < a)%Q -> Qle_bool a b = false.
Proof.
  intros H. destruct (Qle_bool a b) eqn:T; [|reflexivity].
  apply Qle_bool_iff in T. exfalso. apply (Qlt_irrefl b).
  eapply Qlt_le_trans; eassumption.
Qed.

(** A positive number with at most 53 significant bits and an exponent
    in range is its own rounding. *)
Lemma roundPositive_representable (x : Q) (k j : Z) :
  0 < k < 2 ^ 53 -> -1074 <= j <= 971 ->
  (x == inject_Z k * 2 ^ j)%Q ->
  exists q, roundPositive x = Fin q /\ (q == x)%Q.
Proof.
  intros Hk Hj Ex.
  pose proof (Z.log2_spec k ltac:(lia)) as Lk.
  pose proof (Z.log2_nonneg k) as Nk.
  assert (Lk' : Z.log2 k < 53) by (apply Z.log2_lt_pow2; lia).
  set (lk := Z.log2 k) in *. clearbody lk.
  assert (Hb : binade x = lk + j).
  { apply binade_unique; rewrite Ex.
    - rewrite pow2_plus. apply Qmult_le_compat_r;
        [|apply Qlt_le_weak, pow2_pos].
      rewrite pow2_Z by lia. rewrite <- Zle_Qle. lia.
    - replace (lk + j + 1) with (lk + 1 + j) by ring.
      rewrite pow2_plus. apply Qmult_lt_compat_r; [apply pow2_pos|].
      rewrite pow2_Z by lia. rewrite <- Zlt_Qlt. lia. }
  unfold roundPositive. rewrite Hb.
  set (p := Z.max (lk + j - 52) (-1074)).
  assert (Hp : p <= j) by lia.
  assert (Ey : (x / 2 ^ p == inject_Z (k * 2 ^ (j - p)))%Q).
  { rewrite Ex, inject_Z_mult, <- (pow2_Z (j - p)) by lia.
    replace j with (j - p + p) at 1 by ring. rewrite pow2_plus.
    field. apply Qnot_eq_sym, Qlt_not_eq, pow2_pos. }
  rewrite (roundHalfEven_Q_exact _ _ Ey).
  assert (Er : (inject_Z (k * 2 ^ (j - p)) * 2 ^ p == x)%Q).
  { rewrite <- Ey. field. apply Qnot_eq_sym, Qlt_not_eq, pow2_pos. }
  rewrite Qle_bool_false.
  - eexists. split; [reflexivity|exact Er].
  - rewrite Er, Ex.
    apply Qlt_le_trans with (inject_Z (2 ^ 53) * 2 ^ j)%Q.
    + apply Qmult_lt_compat_r; [apply pow2_pos|]. rewrite <- Zlt_Qlt. lia.
    + rewrite <- (pow2_Z 53), <- pow2_plus by lia. apply pow2_le. lia.
Qed.

(** In the range of the normal numbers, the rounding error is at most
    [2 ^ -53] of the value. *)
Lemma roundPositive_normal (x : Q) :
  (2 ^ (-1022) <= x)%Q -> (x < 2 ^ 1023)%Q ->
  exists q, roundPositive x = Fin q /\
            (Qabs (q - x) <= x * 2 ^ (-53))%Q.
Proof.
  intros Lo Hi.
  assert (Hx : (0 < x)%Q)
    by (eapply Qlt_le_trans; [apply (pow2_pos (-1022))|exact Lo]).
  destruct (binade_spec x Hx) as [L U].
  assert (He : -1022 <= binade x).
  { destruct (Z_lt_le_dec (binade x) (-1022)) as [H|H]; [|exact H].
    exfalso. apply (Qlt_irrefl x). eapply Qlt_le_trans; [exact U|].
    eapply Qle_trans; [|exact Lo]. apply pow2_le. lia. }
  destruct (roundPositive_spec x Hx) as (m & Hm & B & E).
  rewrite Z.max_l in B, E by lia.
  set (e := binade x) in *. clearbody e.
  assert (B' : (Qabs (inject_Z m * 2 ^ (e - 52) - x) <= x * 2 ^ (-53))%Q).
  { eapply Qle_trans; [exact B|].
    replace (e - 52 - 1) with (e + -53) by ring. rewrite pow2_plus.
    apply Qmult_le_compat_r; [exact L|apply Qlt_le_weak, pow2_pos]. }
  rewrite Qle_bool_false in E.
  - eexists. split; [exact E|exact B'].
  - apply Qabs_Qle_condition in B'. destruct B' as [_ B'].
    apply Qle_lt_trans with (x + x * 2 ^ (-53))%Q.
    + apply Qle_minus_iff in B'. apply Qle_minus_iff.
      setoid_replace (x + x * 2 ^ (-53) + - (inject_Z m * 2 ^ (e - 52)))%Q
        with (x * 2 ^ (-53) + - (inject_Z m * 2 ^ (e - 52) - x))%Q by ring.
      exact B'.
    + apply Qle_lt_trans with (x * 2)%Q.
      * setoid_replace (x + x * 2 ^ (-53))%Q with (x * (1 + 2 ^ (-53)))%Q by ring.
        apply Qmult_le_l; [exact Hx|]. vm_compute. discriminate.
      * replace 1024 with (1023 + 1) by ring. rewrite pow2_plus.
        change (2 ^ 1)%Q with 2%Q.
        apply Qmult_lt_compat_r; [reflexivity|exact Hi].
Qed.

(** [toDouble] by the sign of its argument. *)
Lemma Qnum_pos (x : Q) : (0 < x)%Q <-> 0 < Qnum x.
Proof. destruct x as [n d]. unfold Qlt. cbn. lia. Qed.

Lemma toDouble_pos (x : Q) : (0 < x)%Q -> toDouble x = roundPositive x.
Proof.
  intros H. apply Qnum_pos in H. unfold toDouble.
  destruct (Qnum x); [lia|reflexivity|lia].
Qed.

Lemma toDouble_neg (x : Q) :
  (x < 0)%Q -> toDouble x = neg (roundPositive (- x)).
Proof.
  intros H. unfold toDouble. destruct x as [[|n|n] d]; [discriminate H|discriminate H|reflexivity].
Qed.

Lemma toDouble_zero (x : Q) : (x == 0)%Q -> toDouble x = Fin 0.
Proof.
  destruct x as [n d]. unfold Qeq. cbn. intros H.
  replace n with 0 by lia. reflexivity.
Qed.

(** A number of at most 53 significant bits, with its exponent in
    range, is not changed by rounding. *)
Lemma toDouble_representable (x : Q) (k j : Z) :
  Z.abs k < 2 ^ 53 -> -1074 <= j <= 971 ->
  (x == inject_Z k * 2 ^ j)%Q ->
  exists q, toDouble x = Fin q /\ (q == x)%Q.
Proof.
  intros Hk Hj Ex.
  pose proof (pow2_pos j) as Pj.
  destruct (Z.lt_trichotomy k 0) as [N|[Z0|P]].
  - assert (Hx : (x < 0)%Q).
    { rewrite Ex. setoid_replace 0%Q with (0 * 2 ^ j)%Q by ring.
      apply Qmult_lt_compat_r; [exact Pj|]. change 0%Q with (inject_Z 0).
      rewrite <- Zlt_Qlt. exact N. }
    rewrite (toDouble_neg x Hx).
    destruct (roundPositive_representable (- x) (- k) j) as (q & E & Hq);
      [lia|exact Hj| |].
    + rewrite Ex, inject_Z_opp. ring.
    + rewrite E. exists (- q)%Q. split; [reflexivity|]. rewrite Hq. ring.
  - subst k. rewrite toDouble_zero.
    + exists 0%Q. split; [reflexivity|]. rewrite Ex. ring.
    + rewrite Ex. ring.
  - assert (Hx : (0 < x)%Q).
    { rewrite Ex. setoid_replace 0%Q with (0 * 2 ^ j)%Q by ring.
      apply Qmult_lt_compat_r; [exact Pj|]. change 0%Q with (inject_Z 0).
      rewrite <- Zlt_Qlt. exact P. }
    rewrite (toDouble_pos x Hx).
    apply (roundPositive_representable x k j); [lia|exact Hj|exact Ex].
Qed.

(** Integers up to [2 ^ 53] in magnitude are numbers. *)
Lemma toDouble_integer (x : Q) (z : Z) :
  Z.abs z <= 2 ^ 53 -> (x == inject_Z z)%Q ->
  exists q, toDouble x = Fin q /\ (q == x)%Q.
Proof.
  intros Hz Ex.
  destruct (Z.eq_dec (Z.abs z) (2 ^ 53)) as [E|E].
  - assert (P53 : 2 ^ 53 = 9007199254740992) by reflexivity.
    apply (toDouble_representable x (z / 2) 1);
      [rewrite P53 in *; Z.to_euclidean_division_equations; lia|lia|].
    rewrite Ex. change (2 ^ 1)%Q with (inject_Z 2).
    rewrite <- inject_Z_mult. apply inject_Z_injective.
    rewrite P53 in *; Z.to_euclidean_division_equations; lia.
  - apply (toDouble_representable x z 0); [lia|lia|].
    rewrite Ex. change (2 ^ 0)%Q with 1%Q. ring.
Qed.

(** Rounding does not go below the power of two under the value. *)
Lemma roundPositive_lower (x : Q) (a : Z) :
  -1022 <= a -> (2 ^ a <= x)%Q ->
  roundPositive x = PosInf \/
  exists q, roundPositive x = Fin q /\ (2 ^ a <= q)%Q.
Proof.
  intros Ha Lo.
  assert (Hx : (0 < x)%Q)
    by (eapply Qlt_le_trans; [apply (pow2_pos a)|exact Lo]).
  destruct (binade_spec x Hx) as [L U].
  assert (He : a <= binade x).
  { destruct (Z_lt_le_dec (binade x) a) as [H|H]; [|exact H].
    exfalso. apply (Qlt_irrefl x). eapply Qlt_le_trans; [exact U|].
    eapply Qle_trans; [|exact Lo]. apply pow2_le. lia. }
  destruct (roundPositive_spec x Hx) as (m & Hm & B & E).
  rewrite Z.max_l in B, E by lia.
  set (e := binade x) in *. clearbody e.
  rewrite E. destruct (Qle_bool _ _); [now left|right].
  eexists. split; [reflexivity|].
  apply Qle_trans with (2 ^ e)%Q; [apply pow2_le; exact He|].
  replace e with (52 + (e - 52)) at 1 by ring. rewrite pow2_plus.
  apply Qmult_le_compat_r; [|apply Qlt_le_weak, pow2_pos].
  rewrite pow2_Z by lia. rewrite <- Zle_Qle.
  destruct (Z_lt_le_dec m (2 ^ 52)) as [H|H]; [exfalso|exact H].
  apply Qabs_Qle_condition in B. destruct B as [B _].
  apply (Qlt_irrefl x). eapply Qle_lt_trans; [|apply Qlt_le_trans with (2 ^ e)%Q; [|exact L]].
  - apply Qle_minus_iff in B. apply Qle_minus_iff.
    setoid_replace (inject_Z m * 2 ^ (e - 52) + 2 ^ (e - 52 - 1) + - x)%Q
      with (inject_Z m * 2 ^ (e - 52) - x + - - 2 ^ (e - 52 - 1))%Q by ring.
    exact B.
  - replace e with (52 + (e - 52)) at 3 by ring.
    replace (e - 52 - 1) with (-1 + (e - 52)) by ring.
    rewrite !pow2_plus.
    setoid_replace (inject_Z m * 2 ^ (e - 52) + 2 ^ (-1) * 2 ^ (e - 52))%Q
      with ((inject_Z m + 2 ^ (-1)) * 2 ^ (e - 52))%Q by ring.
    apply Qmult_lt_compat_r; [apply pow2_pos|].
    apply Qlt_le_trans with (inject_Z m + 1)%Q.
    + apply Qplus_lt_r. reflexivity.
    + rewrite pow2_Z by lia. change 1%Q with (inject_Z 1).
      rewrite <- inject_Z_plus, <- Zle_Qle. lia.
Qed.

(** An integer between [2 ^ 53] and [2 ^ 54] is rounded to an even
    integer at most 1 away. *)
Lemma roundPositive_wide_integer (x : Q) (s : Z) :
  2 ^ 53 <= s < 2 ^ 54 -> (x == inject_Z s)%Q ->
  exists m q, roundPositive x = Fin q /\ (q == inject_Z (2 * m))%Q /\
              -1 <= 2 * m - s <= 1.
Proof.
  intros Hs Ex.
  assert (Hx : (0 < x)%Q).
  { rewrite Ex. change 0%Q with (inject_Z 0). rewrite <- Zlt_Qlt. lia. }
  assert (Hb : binade x = 53).
  { apply binade_unique; rewrite Ex, pow2_Z by lia.
    - rewrite <- Zle_Qle. lia.
    - rewrite <- Zlt_Qlt. exact (proj2 Hs). }
  destruct (roundPositive_spec x Hx) as (m & Hm & B & E).
  rewrite Hb in B, E. change (Z.max (53 - 52) (-1074)) with 1 in B, E.
  change (2 ^ (1 - 1))%Q with (inject_Z 1) in B.
  change (2 ^ 1)%Q with (inject_Z 2) in B, E.
  assert (Em : (inject_Z m * inject_Z 2 == inject_Z (2 * m))%Q).
  { rewrite <- inject_Z_mult. apply inject_Z_injective. ring. }
  rewrite Em, Ex in B. unfold Qminus in B.
  rewrite <- inject_Z_opp, <- inject_Z_plus in B.
  apply Qabs_Qle_condition in B. rewrite <- inject_Z_opp in B.
  rewrite <- !Zle_Qle in B.
  exists m. rewrite E, Qle_bool_false.
  - eexists. split; [reflexivity|]. split; [exact Em|lia].
  - rewrite Em. apply Qlt_le_trans with (inject_Z (2 ^ 55)).
    + rewrite <- Zlt_Qlt.
      assert (2 ^ 54 < 2 ^ 55) by reflexivity. lia.
    + rewrite <- (pow2_Z 55) by lia. apply pow2_le. lia.
Qed.

(** The same for either sign. *)
Lemma toDouble_wide_integer (x : Q) (s : Z) :
  2 ^ 53 <= Z.abs s < 2 ^ 54 -> (x == inject_Z s)%Q ->
  exists m q, toDouble x = Fin q /\ (q == inject_Z (2 * m))%Q /\
              -1 <= 2 * m - s <= 1.
Proof.
  intros Hs Ex.
  assert (P53 : 2 ^ 53 = 9007199254740992) by reflexivity.
  destruct (Z_lt_le_dec s 0) as [N|P].
  - assert (Hx : (x < 0)%Q).
    { rewrite Ex. change 0%Q with (inject_Z 0). rewrite <- Zlt_Qlt. lia. }
    rewrite (toDouble_neg x Hx).
    destruct (roundPositive_wide_integer (- x) (- s)) as (m & q & E & Hq & B);
      [lia|rewrite Ex, inject_Z_opp; reflexivity|].
    exists (- m), (- q)%Q. rewrite E. split; [reflexivity|].
    split; [|lia]. rewrite Hq, <- inject_Z_opp.
    apply inject_Z_injective. ring.
  - assert (Hx : (0 < x)%Q).
    { rewrite Ex. change 0%Q with (inject_Z 0). rewrite <- Zlt_Qlt. lia. }
    rewrite (toDouble_pos x Hx).
    apply (roundPositive_wide_integer x s); [lia|exact Ex].
Qed.

(** An integer below [2 ^ 54] in magnitude is rounded to an integer at
    most 1 away: to itself up to [2 ^ 53] and when it is even, to an
    even integer beyond. *)
Lemma toDouble_near_integer (x : Q) (s : Z) :
  Z.abs s < 2 ^ 54 -> (x == inject_Z s)%Q ->
  exists s' q, toDouble x = Fin q /\ (q == inject_Z s')%Q /\
     -1 <= s' - s <= 1 /\ (Z.abs s <= 2 ^ 53 -> s' = s) /\
     (Z.even s = true -> s' = s) /\ (2 ^ 53 < Z.abs s -> Z.even s' = true).
Proof.
  intros H Ex.
  assert (P53 : 2 ^ 53 = 9007199254740992) by reflexivity.
  assert (P54 : 2 ^ 54 = 18014398509481984) by reflexivity.
  destruct (Z_le_gt_dec (Z.abs s) (2 ^ 53)) as [S|W].
  - destruct (toDouble_integer x s S Ex) as (q & E & Hq).
    exists s, q. split; [exact E|]. split; [rewrite Hq; exact Ex|].
    repeat split; lia.
  - assert (W' : 2 ^ 53 <= Z.abs s < 2 ^ 54) by lia.
    destruct (toDouble_wide_integer x s W' Ex) as (m & q & E & Hq & B).
    destruct (Z.even s) eqn:Ev.
    + exists s, q. split; [exact E|]. split; [|repeat split; auto; lia].
      rewrite Hq. apply inject_Z_injective.
      apply Z.even_spec in Ev. destruct Ev as [k ->]. lia.
    + exists (2 * m), q. split; [exact E|]. split; [exact Hq|].
      repeat split; try lia; try discriminate.
      intros _. rewrite Z.even_mul. reflexivity.
Qed.

(** Beyond a power of two, the rounded value is beyond it too. *)
Lemma toDouble_lower (x : Q) (a : Z) :
  -1022 <= a -> (2 ^ a <= Qabs x)%Q ->
  match toDouble x with
  | Fin q => (2 ^ a <= Qabs q)%Q
  | NaN => False
  | _ => True
  end.
Proof.
  intros Ha Hx.
  pose proof (pow2_pos a) as Pa.
  destruct (Qlt_le_dec x 0) as [N|P].
  - rewrite (toDouble_neg x N).
    rewrite (Qabs_neg x) in Hx by now apply Qlt_le_weak.
    destruct (roundPositive_lower (- x) a Ha Hx) as [E|(q & E & Hq)];
      rewrite E; cbn [neg]; [exact I|].
    rewrite Qabs_opp, Qabs_pos; [exact Hq|].
    eapply Qle_trans; [apply Qlt_le_weak, Pa|exact Hq].
  - rewrite (Qabs_pos x P) in Hx.
    assert (Hx' : (0 < x)%Q) by (eapply Qlt_le_trans; eassumption).
    rewrite (toDouble_pos x Hx').
    destruct (roundPositive_lower x a Ha Hx) as [E|(q & E & Hq)];
      rewrite E; [exact I|].
    rewrite Qabs_pos; [exact Hq|].
    eapply Qle_trans; [apply Qlt_le_weak, Pa|exact Hq].
Qed.

(** [toDouble] of a quotient is the quotient of [SpecFloat] on these
    operands [(m, e)], read as [m * 2 ^ e]: six seconds and thirty
    minutes in minutes, thirds, a tie, quotients in the subnormal
    range and at its lower end, and quotients at the overflow
    threshold. *)
Example toDouble_agrees_with_SpecFloat :
  forallb (fun nd => agreesWithSpecFloat (fst nd) (snd nd))
    [ ((6000, 0), (60000, 0)); ((1800000, 0), (60000, 0));
      ((17280000000000000, 0), (60000, 0)); ((1, 0), (60000, 0));
      ((1, 0), (3, 0)); ((2, 0), (3, 0)); ((-1, 0), (3, 0));
      ((1, 0), (10, 0)); ((-7, 0), (10, 0));
      ((9007199254740991, 0), (9007199254740990, 0));
      ((9007199254740991, 1), (4, 0)); ((9007199254740989, 1), (4, 0));
      ((1, -1022), (3, 0)); ((1, -1070), (3, 0)); ((5, -1074), (3, 0));
      ((1, -1074), (2, 0)); ((3, -1074), (2, 0)); ((1, -1074), (3, 0));
      ((9007199254740991, 971), (1, 0)); ((9007199254740991, 971), (1, -1));
      ((9007199254740991, 970), (9007199254740990, -54));
      ((1, 1023), (1, -1)); ((0, 0), (60000, 0)); ((-1, 1023), (1, -2)) ]
  = true.
Proof. vm_compute. reflexivity. Qed.

End JsFacts.

Module EcmaFacts.
Import Ecma.

Lemma TimeClip_Some (v t : Z) :
  TimeClip v = Some t <-> t = v /\ - maxTimeValue <= v <= maxTimeValue.
Proof.
  unfold TimeClip. destruct (Z.leb_spec (Z.abs v) maxTimeValue); split.
  - intros [= <-]. lia.
  - now intros [-> _].
  - discriminate.
  - lia.
Qed.

Lemma newDate_in_range (v : Z) :
  - maxTimeValue <= v <= maxTimeValue -> newDate v = DateAt v.
Proof.
  intros H. unfold newDate, TimeClip.
  destruct (Z.leb_spec (Z.abs v) maxTimeValue); [reflexivity | lia].
Qed.

Lemma newDate_out_of_range (v : Z) :
  maxTimeValue < Z.abs v -> newDate v = InvalidDate.
Proof.
  intros H. unfold newDate, TimeClip.
  destruct (Z.leb_spec (Z.abs v) maxTimeValue); [lia | reflexivity].
Qed.

Lemma newDate_DateAt (v t : Z) :
  newDate v = DateAt t -> t = v /\ - maxTimeValue <= v <= maxTimeValue.
Proof.
  unfold newDate. destruct (TimeClip v) eqn:E; [|discriminate].
  intros [= <-]. now apply TimeClip_Some.
Qed.

Lemma newDateOf_integer (u : Z) :
  newDateOf (Js.Fin (inject_Z u)) = newDate u.
Proof.
  unfold newDateOf, newDate, TimeClip.
  change (Qnum (inject_Z u)) with u.
  change (Zpos (Qden (inject_Z u))) with 1.
  change (Qabs (inject_Z u)) with (inject_Z (Z.abs u)).
  rewrite Z.quot_1_r.
  destruct (Z.leb_spec (Z.abs u) maxTimeValue) as [H|H].
  - replace (Qle_bool _ _) with true; [reflexivity|].
    symmetry. apply Qle_bool_iff. rewrite <- Zle_Qle. exact H.
  - rewrite JsFacts.Qle_bool_false; [reflexivity|].
    rewrite <- Zlt_Qlt. exact H.
Qed.

Lemma monthOfYearDay_range (leap d : Z) :
  0 <= monthOfYearDay leap d <= 11.
Proof.
  unfold monthOfYearDay.
  repeat match goal with |- context [if ?b then _ else _] => destruct b end;
    lia.
Qed.

Lemma MonthFromTime_range (t : Z) : 0 <= MonthFromTime t <= 11.
Proof. apply monthOfYearDay_range. Qed.

(** Writing back the date field moved by [k] moves the day number by
    [k]. *)
Lemma MakeDay_fields (t k : Z) :
  MakeDay (YearFromTime t) (MonthFromTime t) (DateFromTime t + k)
  = Day t + k.
Proof.
  unfold MakeDay. pose proof (MonthFromTime_range t) as Hm.
  rewrite Z.div_small, Z.mod_small by lia. rewrite Z.add_0_r.
  unfold DateFromTime, DayWithinYear, InLeapYear. lia.
Qed.

Lemma addUTCDate_DateAt (t k : Z) :
  addUTCDate (DateAt t) k = newDate (t + k * msPerDay).
Proof.
  unfold addUTCDate. rewrite MakeDay_fields. f_equal.
  unfold MakeDate, Day, TimeWithinDay, msPerDay.
  pose proof (Z.div_mod t 86400000). lia.
Qed.

Lemma Day_mul (d : Z) : Day (d * msPerDay) = d.
Proof. unfold Day, msPerDay. now rewrite Z.div_mul. Qed.

Lemma Day_bounds (t : Z) :
  Day t * msPerDay <= t < Day t * msPerDay + msPerDay.
Proof.
  unfold Day, msPerDay.
  pose proof (Z.div_mod t 86400000).
  pose proof (Z.mod_pos_bound t 86400000). lia.
Qed.

Lemma Day_mono (a b : Z) : a <= b -> Day a <= Day b.
Proof. intros. unfold Day, msPerDay. apply Z.div_le_mono; lia. Qed.

Lemma setUTCHours_midnight (t : Z) :
  - maxTimeValue <= t <= maxTimeValue ->
  setUTCHours (DateAt t) 0 0 0 0 = DateAt (Day t * msPerDay).
Proof.
  intros H. unfold setUTCHours, MakeDate, MakeTime. simpl.
  rewrite Z.add_0_r. apply newDate_in_range.
  pose proof (Day_bounds t). split; [|lia].
  assert (Day (- maxTimeValue) <= Day t) by (apply Day_mono; lia).
  change (Day (- maxTimeValue)) with (-100000000) in H1.
  unfold maxTimeValue, msPerDay in *. lia.
Qed.

(** The calendar fields of a time value depend on its day number
    only. *)
Lemma YearFromTime_Day (t u : Z) :
  Day t = Day u -> YearFromTime t = YearFromTime u.
Proof. unfold YearFromTime. now intros ->. Qed.

Lemma MonthFromTime_Day (t u : Z) :
  Day t = Day u -> MonthFromTime t = MonthFromTime u.
Proof.
  unfold MonthFromTime, InLeapYear, DayWithinYear, YearFromTime.
  now intros ->.
Qed.

Lemma DateFromTime_Day (t u : Z) :
  Day t = Day u -> DateFromTime t = DateFromTime u.
Proof.
  intros H. unfold DateFromTime.
  rewrite (MonthFromTime_Day _ _ H).
  unfold InLeapYear, DayWithinYear, YearFromTime. now rewrite H.
Qed.

(** ** The calendar *)

Ltac euclid := Z.to_euclidean_division_equations; lia.

Lemma DaysInYear_pos (y : Z) : 365 <= DaysInYear y <= 366.
Proof. unfold DaysInYear. destruct (isLeap y); lia. Qed.

Lemma DayFromYear_succ (y : Z) :
  DayFromYear (y + 1) = DayFromYear y + DaysInYear y.
Proof.
  unfold DayFromYear, DaysInYear, isLeap.
  destruct (Z.eqb_spec (y mod 4) 0), (Z.eqb_spec (y mod 100) 0),
    (Z.eqb_spec (y mod 400) 0); cbn [andb orb negb]; euclid.
Qed.

Lemma DayFromYear_mono (a b : Z) :
  a <= b -> DayFromYear a <= DayFromYear b.
Proof. unfold DayFromYear. euclid. Qed.

(** [YearFromDay d] is the year whose days include [d]. *)
Lemma YearFromDay_spec (d : Z) :
  DayFromYear (YearFromDay d) <= d < DayFromYear (YearFromDay d + 1).
Proof.
  unfold YearFromDay. set (y := 1970 + 400 * d / 146097).
  assert (DayFromYear (y - 1) <= d < DayFromYear (y + 2))
    by (unfold DayFromYear, y; euclid).
  destruct (Z.ltb_spec d (DayFromYear y)).
  - replace (y - 1 + 1) with y by lia. lia.
  - destruct (Z.leb_spec (DayFromYear (y + 1)) d).
    + replace (y + 1 + 1) with (y + 2) by lia. lia.
    + lia.
Qed.

Lemma YearFromDay_unique (y d : Z) :
  DayFromYear y <= d < DayFromYear (y + 1) -> YearFromDay d = y.
Proof.
  intros H. pose proof (YearFromDay_spec d) as S.
  destruct (Z.lt_trichotomy (YearFromDay d) y) as [L|[E|G]]; [|exact E|].
  - pose proof (DayFromYear_mono (YearFromDay d + 1) y ltac:(lia)). lia.
  - pose proof (DayFromYear_mono (y + 1) (YearFromDay d) ltac:(lia)). lia.
Qed.

Lemma YearFromDay_mono (a b : Z) :
  a <= b -> YearFromDay a <= YearFromDay b.
Proof.
  intros H. pose proof (YearFromDay_spec a). pose proof (YearFromDay_spec b).
  destruct (Z_le_gt_dec (YearFromDay a) (YearFromDay b)); [assumption|].
  pose proof (DayFromYear_mono (YearFromDay b + 1) (YearFromDay a)
                ltac:(lia)). lia.
Qed.

Lemma InLeapYear_cases (t : Z) :
  (InLeapYear t = 0 /\ DaysInYear (YearFromTime t) = 365) \/
  (InLeapYear t = 1 /\ DaysInYear (YearFromTime t) = 366).
Proof.
  unfold InLeapYear, DaysInYear. destruct (isLeap (YearFromTime t)); auto.
Qed.

Lemma DayWithinYear_range (t : Z) :
  0 <= DayWithinYear t < 365 + InLeapYear t.
Proof.
  unfold DayWithinYear.
  pose proof (YearFromDay_spec (Day t)) as S.
  rewrite DayFromYear_succ in S. fold (YearFromTime t) in S.
  destruct (InLeapYear_cases t) as [[-> E]|[-> E]]; rewrite E in S; lia.
Qed.

Ltac month_starts :=
  repeat match goal with
         | |- context [monthStart _ (?a + 1)] =>
             let v := eval compute in (a + 1) in change (a + 1) with v
         | H : context [monthStart _ (?a + 1)] |- _ =>
             let v := eval compute in (a + 1) in change (a + 1) with v in H
         end;
  cbn [monthStart] in *.

(** A day of the year lies in the month computed for it. *)
Lemma monthOfYearDay_spec (leap d : Z) :
  0 <= leap <= 1 -> 0 <= d < 365 + leap ->
  monthStart leap (monthOfYearDay leap d) <= d
  < monthStart leap (monthOfYearDay leap d + 1).
Proof.
  intros Hl Hd. unfold monthOfYearDay.
  repeat match goal with
         | |- context [?a <? ?b] => destruct (Z.ltb_spec a b)
         end; month_starts; lia.
Qed.

Lemma monthOfYearDay_unique (leap m d : Z) :
  0 <= leap <= 1 -> 0 <= m <= 11 ->
  monthStart leap m <= d < monthStart leap (m + 1) ->
  monthOfYearDay leap d = m.
Proof.
  intros Hl Hm.
  assert (M : m = 0 \/ m = 1 \/ m = 2 \/ m = 3 \/ m = 4 \/ m = 5 \/ m = 6 \/
              m = 7 \/ m = 8 \/ m = 9 \/ m = 10 \/ m = 11) by lia.
  unfold monthOfYearDay.
  repeat destruct M as [->|M]; try subst m;
    month_starts; intros Hd;
    repeat match goal with
           | |- context [?a <? ?b] => destruct (Z.ltb_spec a b)
           end; lia.
Qed.

Lemma monthOfYearDay_mono (leap a b : Z) :
  0 <= leap <= 1 -> a <= b ->
  monthOfYearDay leap a <= monthOfYearDay leap b.
Proof.
  intros Hl Hab. unfold monthOfYearDay.
  repeat match goal with
         | |- context [?a <? ?b] => destruct (Z.ltb_spec a b)
         end; lia.
Qed.

Lemma InLeapYear_range (t : Z) : 0 <= InLeapYear t <= 1.
Proof. destruct (InLeapYear_cases t) as [[-> _]|[-> _]]; lia. Qed.

Lemma DateFromTime_range (t : Z) :
  1 <= DateFromTime t
  <= monthStart (InLeapYear t) (MonthFromTime t + 1)
     - monthStart (InLeapYear t) (MonthFromTime t).
Proof.
  unfold DateFromTime.
  pose proof (monthOfYearDay_spec (InLeapYear t) (DayWithinYear t)
                (InLeapYear_range t) (DayWithinYear_range t)) as H.
  fold (MonthFromTime t) in H. lia.
Qed.

Lemma HourFromTime_range (t : Z) : 0 <= HourFromTime t <= 23.
Proof. unfold HourFromTime. euclid. Qed.

Lemma MinFromTime_range (t : Z) : 0 <= MinFromTime t <= 59.
Proof. unfold MinFromTime. euclid. Qed.

End EcmaFacts.

(* ===================================================================== *)
(** * Facts about constraints.ts *)
(* ===================================================================== *)

Module ConstraintsFacts.
Import Ecma DateTs Types ConstraintsTs EcmaFacts.

Lemma date_lt_DateAt (a b : Z) : date_lt (DateAt a) (DateAt b) = (a <? b).
Proof. apply JsFacts.lt_ofZ. Qed.

Lemma date_gt_DateAt (a b : Z) : date_gt (DateAt a) (DateAt b) = (b <? a).
Proof. apply JsFacts.gt_ofZ. Qed.

Lemma date_le_DateAt (a b : Z) : date_le (DateAt a) (DateAt b) = (a <=? b).
Proof. apply JsFacts.le_ofZ. Qed.

Lemma date_ge_DateAt (a b : Z) : date_ge (DateAt a) (DateAt b) = (b <=? a).
Proof. apply JsFacts.ge_ofZ. Qed.

Lemma date_le_Invalid_l (d : Date) : date_le InvalidDate d = false.
Proof. reflexivity. Qed.

Lemma date_le_Invalid_r (d : Date) : date_le d InvalidDate = false.
Proof. now destruct d. Qed.

Lemma date_ge_DateAt_inv (s e : Date) :
  date_ge s e = true -> exists a b, s = DateAt a /\ e = DateAt b /\ b <= a.
Proof.
  destruct s as [|a], e as [|b]; try discriminate.
  rewrite date_ge_DateAt. intros H%Z.leb_le. now exists a, b.
Qed.

Lemma date_lt_DateAt_inv (s e : Date) :
  date_lt s e = true -> exists a b, s = DateAt a /\ e = DateAt b /\ a < b.
Proof.
  destruct s as [|a], e as [|b]; try discriminate.
  rewrite date_lt_DateAt. intros H%Z.ltb_lt. now exists a, b.
Qed.

Lemma isSameDay_Day (t u : Z) (x : Date) :
  Day t = Day u -> isSameDay (DateAt t) x = isSameDay (DateAt u) x.
Proof.
  intros H. unfold isSameDay, getUTCFullYear, getUTCMonth, getUTCDate.
  simpl. now rewrite (YearFromTime_Day _ _ H), (MonthFromTime_Day _ _ H),
    (DateFromTime_Day _ _ H).
Qed.

Lemma isBlackedOut_Day (t u : Z) (bl : option (list Date)) :
  Day t = Day u -> isBlackedOut (DateAt t) bl = isBlackedOut (DateAt u) bl.
Proof.
  intros H. destruct bl as [l|]; [|reflexivity]. simpl.
  induction l as [|x l IH]; [reflexivity|]. simpl.
  now rewrite IH, (isSameDay_Day _ _ x H).
Qed.

(** The loop visits the days [a], [a + 1 day], ... up to [b]; it never
    runs out of fuel once [fuel] exceeds their number. *)
Lemma scanDays_spec (bl : option (list Date)) (fuel : nat) :
  forall a b : Z,
    - maxTimeValue <= a -> - maxTimeValue <= b <= maxTimeValue ->
    (1 <= fuel)%nat -> b - a < (Z.of_nat fuel - 1) * msPerDay ->
    exists r, scanDays fuel (DateAt a) (DateAt b) bl = Some r /\
              (r = true <->
               exists k, 0 <= k /\ a + k * msPerDay <= b /\
                         isBlackedOut (DateAt (a + k * msPerDay)) bl = true).
Proof.
  induction fuel as [|fuel IH]; intros a b Ha Hb Hf Hlt; [lia|].
  cbn [scanDays]. rewrite date_le_DateAt.
  destruct (Z.leb_spec a b) as [Hab|Hab].
  - destruct (isBlackedOut (DateAt a) bl) eqn:Hbo.
    + exists true. split; [reflexivity|]. split; [intros _|reflexivity].
      exists 0. rewrite Z.add_0_r. auto with zarith.
    + rewrite addUTCDate_DateAt, Z.mul_1_l.
      assert (Hshift : forall k, a + msPerDay + (k - 1) * msPerDay
                                 = a + k * msPerDay) by (intros; lia).
      destruct (Z_le_gt_dec (a + msPerDay) maxTimeValue) as [Hin|Hout].
      * rewrite newDate_in_range by (unfold msPerDay in *; lia).
        destruct (IH (a + msPerDay) b) as (r & Hr & Hiff);
          try (unfold msPerDay in *; lia).
        exists r. split; [exact Hr|]. rewrite Hiff. split.
        -- intros (k & Hk & Hle & Hk'). exists (k + 1).
           replace (a + (k + 1) * msPerDay)
             with (a + msPerDay + k * msPerDay) by lia.
           repeat split; auto; lia.
        -- intros (k & Hk & Hle & Hk').
           assert (k <> 0) by (intros ->; rewrite Z.add_0_r in Hk';
                                congruence).
           exists (k - 1). rewrite Hshift. repeat split; auto; lia.
      * rewrite newDate_out_of_range by (unfold msPerDay, maxTimeValue in *; lia).
        destruct fuel as [|fuel]; [unfold msPerDay in *; lia|].
        cbn [scanDays]. rewrite date_le_Invalid_l.
        exists false. split; [reflexivity|]. split; [discriminate|].
        intros (k & Hk & Hle & Hk'). exfalso.
        assert (k <> 0) by (intros ->; rewrite Z.add_0_r in Hk';
                             congruence).
        unfold msPerDay in *. nia.
  - exists false. split; [reflexivity|]. split; [discriminate|].
    intros (k & Hk & Hle & _). unfold msPerDay in *. nia.
Qed.

End ConstraintsFacts.

Module RuleFacts.
Import Ecma DateTs Types ConstraintsTs TimezoneTs Rules.
Import EcmaFacts ConstraintsFacts.

Lemma checkMinDate_fires (s : Date) (c : ConstraintConfig) :
  beforeMinDate s c ->
  exists m, minDate c = Some m /\
            checkMinDate s c = err min_date (StartDateMustBeAfter m).
Proof.
  intros (m & Hm & Hlt). exists m. split; [exact Hm|].
  unfold checkMinDate. now rewrite Hm, Hlt.
Qed.

Lemma checkMinDate_passes (s : Date) (c : ConstraintConfig) :
  ~ beforeMinDate s c -> checkMinDate s c = None.
Proof.
  intros H. unfold checkMinDate.
  destruct (minDate c) as [m|] eqn:Hm; [|reflexivity].
  destruct (date_lt s m) eqn:Hlt; [|reflexivity].
  exfalso. apply H. now exists m.
Qed.

Lemma checkMaxDate_passes (e : Date) (c : ConstraintConfig) :
  ~ afterMaxDate e c -> checkMaxDate e c = None.
Proof.
  intros H. unfold checkMaxDate.
  destruct (maxDate c) as [m|] eqn:Hm; [|reflexivity].
  destruct (date_gt e m) eqn:Hgt; [|reflexivity].
  exfalso. apply H. now exists m.
Qed.

Lemma checkOrder_passes (s e : Date) :
  date_lt s e = true -> checkOrder s e = None.
Proof.
  intros H. unfold checkOrder, date_ge.
  now rewrite (JsFacts.lt_ge_false _ _ H).
Qed.

Lemma checkOrder_fires (s e : Date) :
  notOrdered s e ->
  checkOrder s e = err invalid_range StartMustBeBeforeEnd.
Proof. unfold notOrdered, checkOrder. now intros ->. Qed.

Lemma checkMinDuration_fires (s e : Date) (c : ConstraintConfig) :
  tooShort s e c ->
  exists m, minDuration c = Some m /\
            checkMinDuration s e c = err min_duration (MinimumDurationIs m).
Proof.
  intros (m & Hm & Hlt). exists m. split; [exact Hm|].
  unfold checkMinDuration. now rewrite Hm, Hlt.
Qed.

Lemma checkMinDuration_passes (s e : Date) (c : ConstraintConfig) :
  ~ tooShort s e c -> checkMinDuration s e c = None.
Proof.
  intros H. unfold checkMinDuration.
  destruct (minDuration c) as [m|] eqn:Hm; [|reflexivity].
  destruct (Js.lt (durationMinutes s e) m) eqn:Hlt; [|reflexivity].
  exfalso. apply H. now exists m.
Qed.

Lemma checkMaxDuration_fires (s e : Date) (c : ConstraintConfig) :
  tooLong s e c ->
  exists m, maxDuration c = Some m /\
            checkMaxDuration s e c = err max_duration (MaximumDurationIs m).
Proof.
  intros (m & Hm & Hgt). exists m. split; [exact Hm|].
  unfold checkMaxDuration. now rewrite Hm, Hgt.
Qed.

Lemma startOfDay_wf (t : Z) :
  - maxTimeValue <= t <= maxTimeValue ->
  startOfDay (DateAt t) = DateAt (Day t * msPerDay) /\
  - maxTimeValue <= Day t * msPerDay <= maxTimeValue.
Proof.
  intros H. unfold startOfDay. rewrite setUTCHours_midnight by exact H.
  split; [reflexivity|].
  pose proof (setUTCHours_midnight t H) as E. unfold setUTCHours in E.
  unfold MakeDate, MakeTime in E. simpl in E. rewrite Z.add_0_r in E.
  now apply newDate_DateAt in E.
Qed.

Lemma isBlackedOut_Invalid (bl : option (list Date)) :
  isBlackedOut InvalidDate bl = false.
Proof.
  destruct bl as [l|]; [|reflexivity]. simpl.
  induction l as [|x l IH]; [reflexivity|]. simpl. exact IH.
Qed.

(** The whole-day scan of the blackout block, on well-formed dates. *)
Lemma scan_startOfDay (a b : Z) (bl : list Date) :
  - maxTimeValue <= a <= maxTimeValue ->
  - maxTimeValue <= b <= maxTimeValue ->
  let currentDate := startOfDay (DateAt a) in
  let endDate := startOfDay (DateAt b) in
  exists r,
    scanDays (scanFuel currentDate endDate) currentDate endDate (Some bl)
    = Some r /\
    (r = true <-> exists d, Day a <= d <= Day b /\ dayBlackedOut d bl).
Proof.
  intros Ha Hb.
  destruct (startOfDay_wf a Ha) as [Ea Ra], (startOfDay_wf b Hb) as [Eb Rb].
  cbv zeta. rewrite Ea, Eb. unfold scanFuel. rewrite !Day_mul.
  destruct (scanDays_spec (Some bl) (S (Z.to_nat (Day b - Day a + 1)))
              (Day a * msPerDay) (Day b * msPerDay)) as (r & Hr & Hiff);
    try lia.
  { unfold msPerDay. lia. }
  exists r. split; [exact Hr|]. rewrite Hiff. unfold dayBlackedOut. split.
  - intros (k & Hk & Hle & Hbo). exists (Day a + k).
    replace ((Day a + k) * msPerDay) with (Day a * msPerDay + k * msPerDay)
      by lia.
    split; [|exact Hbo]. unfold msPerDay in *. lia.
  - intros (d & Hd & Hbo). exists (d - Day a).
    replace (Day a * msPerDay + (d - Day a) * msPerDay) with (d * msPerDay)
      by lia.
    split; [lia|]. split; [|exact Hbo]. unfold msPerDay. lia.
Qed.

(** The fuel given to the loop by [validateRange] always suffices. *)
Lemma scanDays_terminates (s e : Date) (bl : list Date) :
  wfDate s -> wfDate e ->
  let currentDate := startOfDay s in
  let endDate := startOfDay e in
  exists r,
    scanDays (scanFuel currentDate endDate) currentDate endDate (Some bl)
    = Some r.
Proof.
  intros Ws We. destruct s as [|a].
  { exists false. now destruct (startOfDay e). }
  destruct e as [|b].
  { exists false. change (startOfDay InvalidDate) with InvalidDate. cbv zeta.
    destruct (startOfDay (DateAt a)) as [|t]; unfold scanFuel;
      cbn [scanDays]; [reflexivity | now rewrite date_le_Invalid_r]. }
  destruct (scan_startOfDay a b bl Ws We) as (r & Hr & _). now exists r.
Qed.

Lemma checkBlackout_passes (s e : Date) (c : ConstraintConfig) :
  wfDate s -> wfDate e -> ~ hitsBlackout s e c -> checkBlackout s e c = None.
Proof.
  intros Ws We H. unfold checkBlackout.
  destruct (blackoutDates c) as [bl|] eqn:Hbl; [|reflexivity]. cbv zeta.
  destruct (isBlackedOut s (Some bl)) eqn:Hs.
  { exfalso. apply H. exists bl. auto. }
  destruct (isBlackedOut e (Some bl)) eqn:He.
  { exfalso. apply H. exists bl. auto. }
  destruct s as [|a].
  { now destruct (startOfDay e). }
  destruct e as [|b].
  { change (startOfDay InvalidDate) with InvalidDate.
    destruct (startOfDay (DateAt a)) as [|t]; unfold scanFuel;
      cbn [scanDays]; [reflexivity | now rewrite date_le_Invalid_r]. }
  destruct (scan_startOfDay a b bl Ws We) as (r & Hr & Hiff).
  cbv zeta in Hr. rewrite Hr. destruct r; [|reflexivity].
  exfalso. apply H. exists bl. split; [exact Hbl|]. right. right.
  destruct (proj1 Hiff eq_refl) as (d & Hd & Hbo).
  now exists a, b, d.
Qed.

Lemma checkBlackout_fires (s e : Date) (c : ConstraintConfig) :
  wfDate s -> wfDate e -> hitsBlackout s e c ->
  exists m, checkBlackout s e c = err blackout m.
Proof.
  intros Ws We (bl & Hbl & H). unfold checkBlackout. rewrite Hbl. cbv zeta.
  destruct (isBlackedOut s (Some bl)) eqn:Hs; [eauto|].
  destruct (isBlackedOut e (Some bl)) eqn:He; [eauto|].
  destruct H as [H|[H|(a & b & d & -> & -> & Hd & Hbo)]]; try discriminate.
  destruct (scan_startOfDay a b bl Ws We) as (r & Hr & Hiff).
  cbv zeta in Hr. rewrite Hr.
  assert (r = true) as -> by (apply Hiff; eauto). eauto.
Qed.

Lemma checkMaxDate_fires (e : Date) (c : ConstraintConfig) :
  afterMaxDate e c ->
  exists m, maxDate c = Some m /\
            checkMaxDate e c = err max_date (EndDateMustBeBefore m).
Proof.
  intros (m & Hm & Hgt). exists m. split; [exact Hm|].
  unfold checkMaxDate. now rewrite Hm, Hgt.
Qed.

Lemma checkOrder_ordered (s e : Date) :
  ~ notOrdered s e -> checkOrder s e = None.
Proof.
  unfold notOrdered, checkOrder. now destruct (date_ge s e).
Qed.

Lemma checkMaxDuration_passes (s e : Date) (c : ConstraintConfig) :
  ~ tooLong s e c -> checkMaxDuration s e c = None.
Proof.
  intros H. unfold checkMaxDuration.
  destruct (maxDuration c) as [m|] eqn:Hm; [|reflexivity].
  destruct (Js.gt (durationMinutes s e) m) eqn:Hgt; [|reflexivity].
  exfalso. apply H. now exists m.
Qed.

Section TimeRules.
Variable Number : string -> Js.number.

Lemma checkMinTime_fires (s : Date) (c : ConstraintConfig) :
  startsTooEarly Number s c ->
  exists str, checkMinTime Number s c
              = err min_time (StartTimeMustBeAfter str).
Proof.
  intros (str & Hc & Hne & Hb). exists str. unfold checkMinTime.
  rewrite Hc. destruct str as [|ch str]; [contradiction|].
  cbn [truthy]. cbv zeta.
  destruct Hb as [-> | [-> ->]]; [reflexivity|].
  now rewrite orb_true_r.
Qed.

Lemma checkMinTime_passes (s : Date) (c : ConstraintConfig) :
  ~ startsTooEarly Number s c -> checkMinTime Number s c = None.
Proof.
  intros H. unfold checkMinTime.
  destruct (minTime c) as [[|ch str]|] eqn:Hc; try reflexivity.
  cbn [truthy]. cbv zeta.
  match goal with |- (if ?b then _ else _) = _ => destruct b eqn:E end;
    [|reflexivity].
  exfalso. apply H. exists (String ch str).
  split; [exact Hc|]. split; [discriminate|].
  apply orb_true_iff in E. destruct E as [E|E]; [now left|].
  apply andb_true_iff in E. now right.
Qed.

Lemma checkMaxTime_fires (e : Date) (c : ConstraintConfig) :
  endsTooLate Number e c ->
  exists str, checkMaxTime Number e c
              = err max_time (EndTimeMustBeBefore str).
Proof.
  intros (str & Hc & Hne & Hb). exists str. unfold checkMaxTime.
  rewrite Hc. destruct str as [|ch str]; [contradiction|].
  cbn [truthy]. cbv zeta.
  destruct Hb as [-> | [-> ->]]; [reflexivity|].
  now rewrite orb_true_r.
Qed.

Lemma checkMaxTime_passes (e : Date) (c : ConstraintConfig) :
  ~ endsTooLate Number e c -> checkMaxTime Number e c = None.
Proof.
  intros H. unfold checkMaxTime.
  destruct (maxTime c) as [[|ch str]|] eqn:Hc; try reflexivity.
  cbn [truthy]. cbv zeta.
  match goal with |- (if ?b then _ else _) = _ => destruct b eqn:E end;
    [|reflexivity].
  exfalso. apply H. exists (String ch str).
  split; [exact Hc|]. split; [discriminate|].
  apply orb_true_iff in E. destruct E as [E|E]; [now left|].
  apply andb_true_iff in E. now right.
Qed.

(** Every block of [validateRange] returns its error exactly when the
    rule it stands for is violated. *)
Lemma rule_outcomes (s e : Date) (c : ConstraintConfig) (t : ErrorType)
      (chk : option ValidationError) :
  wfDate s -> wfDate e ->
  In (t, chk) (ruleList Number s e c) ->
  (violated Number t s e c -> exists x, chk = Some x /\ type x = t) /\
  (~ violated Number t s e c -> chk = None).
Proof.
  intros Ws We. unfold ruleList. simpl.
  intros [H|[H|[H|[H|[H|[H|[H|[H|[]]]]]]]]];
    injection H as <- <-; cbn [violated]; split; intros V.
  - destruct (checkMinDate_fires s c V) as (m & _ & ->). unfold err. eauto.
  - now apply checkMinDate_passes.
  - destruct (checkMaxDate_fires e c V) as (m & _ & ->). unfold err. eauto.
  - now apply checkMaxDate_passes.
  - destruct (checkBlackout_fires s e c Ws We V) as (m & ->).
    unfold err. eauto.
  - now apply checkBlackout_passes.
  - rewrite (checkOrder_fires s e V). unfold err. eauto.
  - now apply checkOrder_ordered.
  - destruct (checkMinDuration_fires s e c V) as (m & _ & ->).
    unfold err. eauto.
  - now apply checkMinDuration_passes.
  - destruct (checkMaxDuration_fires s e c V) as (m & _ & ->).
    unfold err. eauto.
  - now apply checkMaxDuration_passes.
  - destruct (checkMinTime_fires s c V) as (str & ->). unfold err. eauto.
  - now apply checkMinTime_passes.
  - destruct (checkMaxTime_fires e c V) as (str & ->). unfold err. eauto.
  - now apply checkMaxTime_passes.
Qed.
End TimeRules.

(** In a list of rules whose outcomes follow their violations, the
    first violated rule gives the result. *)
Lemma firstViolation_ordered (viol : ErrorType -> Prop)
      (rl : list (ErrorType * option ValidationError)) :
  (forall t chk, In (t, chk) rl ->
                 (viol t -> exists x, chk = Some x /\ type x = t) /\
                 (~ viol t -> chk = None)) ->
  forall earlier t later,
    map fst rl = earlier ++ t :: later ->
    (forall u, In u earlier -> ~ viol u) -> viol t ->
    exists x, firstViolation (map snd rl) = Some x /\ type x = t.
Proof.
  induction rl as [|[t0 chk0] rl IH]; intros Hrl earlier t later Hsplit Hno Hv.
  - now destruct earlier.
  - destruct earlier as [|u earlier]; simpl in Hsplit;
      injection Hsplit as -> Hrest.
    + destruct (proj1 (Hrl t chk0 (or_introl eq_refl)) Hv) as (x & -> & Hx).
      exists x. now split.
    + rewrite (proj2 (Hrl u chk0 (or_introl eq_refl)) (Hno u (or_introl eq_refl))).
      simpl. apply (IH (fun t' chk' H => Hrl t' chk' (or_intror H))
                       earlier t later Hrest); [|exact Hv].
      intros u' Hu'. apply Hno. now right.
Qed.

Lemma firstViolation_none (viol : ErrorType -> Prop)
      (rl : list (ErrorType * option ValidationError)) :
  (forall t chk, In (t, chk) rl ->
                 (viol t -> exists x, chk = Some x /\ type x = t) /\
                 (~ viol t -> chk = None)) ->
  (forall u, In u (map fst rl) -> ~ viol u) ->
  firstViolation (map snd rl) = None.
Proof.
  induction rl as [|[t0 chk0] rl IH]; intros Hrl Hno; [reflexivity|].
  simpl.
  rewrite (proj2 (Hrl t0 chk0 (or_introl eq_refl)) (Hno t0 (or_introl eq_refl))).
  apply IH.
  - intros t chk H. apply Hrl. now right.
  - intros u Hu. apply Hno. now right.
Qed.

(** Each rule reports its own error type only. *)
Lemma ruleList_types (Number : string -> Js.number) (s e : Date)
      (c : ConstraintConfig) (t : ErrorType)
      (chk : option ValidationError) (x : ValidationError) :
  In (t, chk) (ruleList Number s e c) -> chk = Some x -> type x = t.
Proof.
  unfold ruleList. simpl.
  intros [H|[H|[H|[H|[H|[H|[H|[H|[]]]]]]]]];
    injection H as <- <-; clear;
    unfold checkMinDate, checkMaxDate, checkBlackout, checkOrder,
      checkMinDuration, checkMaxDuration, checkMinTime, checkMaxTime, err;
    cbv zeta;
    repeat match goal with
           | |- context [match ?o with _ => _ end] => destruct o
           end;
    intros [= <-]; reflexivity.
Qed.

End RuleFacts.

(* ===================================================================== *)
(** * The range validator *)
(* ===================================================================== *)

Module Validator.
Import Ecma DateTs Types ConstraintsTs TimezoneTs Rules Samples.
Import EcmaFacts ConstraintsFacts RuleFacts.

Section WithNumber.
Variable Number : string -> Js.number.

Lemma validateRange_firstViolation (s e : Date) (c : ConstraintConfig) :
  validateRange Number (range s e) c
  = firstViolation (map snd (ruleList Number s e c)).
Proof.
  unfold validateRange, range, ruleList, orElse. simpl.
  repeat match goal with
         | |- match ?o with _ => _ end = match ?o with _ => _ end =>
             destruct o; [reflexivity|]
         end.
  now destruct (checkMaxTime Number e c).
Qed.

Lemma firstViolation_In (l : list (ErrorType * option ValidationError))
      (x : ValidationError) :
  firstViolation (map snd l) = Some x -> exists t, In (t, Some x) l.
Proof.
  induction l as [|[t [y|]] l IH]; simpl; [discriminate| |].
  - intros [= ->]. eauto.
  - intros H. destruct (IH H) as [t' Ht']. eauto.
Qed.

(** Every error comes from one rule, and carries that rule's type. *)
Lemma validateRange_error_source (r : DateTimeRange)
      (c : ConstraintConfig) (x : ValidationError) :
  validateRange Number r c = Some x ->
  exists s e, start r = Some s /\ end_ r = Some e /\
              In (type x, Some x) (ruleList Number s e c).
Proof.
  destruct r as [[s|] [e|]]; try discriminate.
  change {| start := Some s; end_ := Some e |} with (range s e).
  rewrite validateRange_firstViolation. intros H.
  destruct (firstViolation_In _ _ H) as [t Ht].
  exists s, e. repeat split.
  now rewrite (ruleList_types _ _ _ _ _ _ _ Ht eq_refl).
Qed.

(** C5.  A range whose start or end is absent is never reported as
    invalid: [validateRange] returns [null] whatever the constraints
    are. *)
Theorem partial_range_returns_none (r : DateTimeRange)
        (c : ConstraintConfig) :
  start r = None \/ end_ r = None -> validateRange Number r c = None.
Proof.
  unfold validateRange. intros [H|H]; rewrite H; [reflexivity|].
  now destruct (start r).
Qed.

(** C2.  [validateRange] reports the first violated rule in the
    order minDate, maxDate, blackout, invalid-range, minDuration,
    maxDuration, minTime, maxTime: a violated rule whose predecessors
    in that order all hold decides the error, and no violation means no
    error; a range that is both before [minDate] and longer than
    [maxDuration] gets the [min_date] error, never [max_duration]. *)
Theorem validateRange_rule_order (s e : Date) (c : ConstraintConfig) :
  (wfDate s -> wfDate e ->
   (forall earlier t later,
       ruleOrder = earlier ++ t :: later ->
       (forall u, In u earlier -> ~ violated Number u s e c) ->
       violated Number t s e c ->
       exists x, validateRange Number (range s e) c = Some x /\
                 type x = t) /\
   ((forall u, In u ruleOrder -> ~ violated Number u s e c) ->
    validateRange Number (range s e) c = None))
  /\ (beforeMinDate s c -> tooLong s e c ->
      exists m, minDate c = Some m /\
                validateRange Number (range s e) c
                = err min_date (StartDateMustBeAfter m)).
Proof.
  split.
  - intros Ws We. rewrite validateRange_firstViolation. split.
    + intros earlier t later Hsplit.
      apply (firstViolation_ordered
               (fun u => violated Number u s e c) (ruleList Number s e c)
               (fun u chk => rule_outcomes Number s e c u chk Ws We)
               earlier t later Hsplit).
    + apply (firstViolation_none
               (fun u => violated Number u s e c) (ruleList Number s e c)).
      intros u chk. now apply rule_outcomes.
  - intros Hmin _. destruct (checkMinDate_fires s c Hmin) as (m & Hm & E).
    exists m. split; [exact Hm|].
    unfold validateRange, range; simpl. now rewrite E.
Qed.

(** C6.  A range with [start >= end] that passes the minDate, maxDate
    and blackout rules gets [invalid_range] (and [blackout] when it
    hits a blackout day: the ordering check comes after the blackout
    rule); no range with [start >= end] ever gets a duration error;
    and 14:00Z .. 10:00Z with no constraints gets [invalid_range]. *)
Theorem inverted_range_is_invalid_range (s e : Date)
        (c : ConstraintConfig) :
  notOrdered s e ->
  (wfDate s -> wfDate e ->
   ~ beforeMinDate s c -> ~ afterMaxDate e c ->
   (~ hitsBlackout s e c ->
    validateRange Number (range s e) c
    = err invalid_range StartMustBeBeforeEnd) /\
   (hitsBlackout s e c ->
    exists m, validateRange Number (range s e) c = err blackout m))
  /\ (forall x, validateRange Number (range s e) c = Some x ->
                type x <> min_duration /\ type x <> max_duration)
  /\ validateRange Number (range mar15_14h00 mar15_10h00) noConstraints
     = err invalid_range StartMustBeBeforeEnd.
Proof.
  intros Hinv. split; [|split; [|reflexivity]].
  - intros Ws We Hmin Hmax. unfold validateRange, range; simpl.
    rewrite (checkMinDate_passes _ _ Hmin), (checkMaxDate_passes _ _ Hmax).
    split; intros Hbo.
    + rewrite (checkBlackout_passes _ _ _ Ws We Hbo),
        (checkOrder_fires _ _ Hinv). reflexivity.
    + destruct (checkBlackout_fires _ _ _ Ws We Hbo) as [m ->].
      now exists m.
  - intros x. unfold validateRange, range; simpl.
    rewrite (checkOrder_fires _ _ Hinv). unfold orElse.
    pose proof (ruleList_types Number s e c) as T.
    destruct (checkMinDate s c) as [y|] eqn:E1.
    { intros [= ->]. rewrite (T min_date _ x) by (simpl; eauto).
      split; discriminate. }
    destruct (checkMaxDate e c) as [y|] eqn:E2.
    { intros [= ->]. rewrite (T max_date _ x) by (simpl; eauto).
      split; discriminate. }
    destruct (checkBlackout s e c) as [y|] eqn:E3.
    { intros [= ->]. rewrite (T blackout _ x) by (simpl; eauto 6).
      split; discriminate. }
    intros [= <-]. split; discriminate.
Qed.

Lemma durationMinutes_invalid_start (e : Date) :
  durationMinutes InvalidDate e = Js.NaN.
Proof. now destruct e. Qed.

Lemma durationMinutes_invalid_end (s : Date) :
  durationMinutes s InvalidDate = Js.NaN.
Proof. now destruct s. Qed.

(** [1000 * 60] *)
Lemma sixty_thousand :
  exists q, Js.mul (Js.ofZ 1000) (Js.ofZ 60) = Js.Fin q /\ (q == inject_Z 60000)%Q.
Proof.
  cbn [Js.mul Js.ofZ].
  destruct (JsFacts.toDouble_integer (inject_Z 1000 * inject_Z 60) 60000)
    as (q & E & Hq); [vm_compute; discriminate|reflexivity|].
  exists q. split; [exact E|]. rewrite Hq. reflexivity.
Qed.

(** The duration of an ordered range: the difference of the two time
    values and its quotient by 60000 are rounded; what is compared is
    within [2 ^ -52] of the exact number of minutes, and is that number
    when it is whole. *)
Lemma durationMinutes_DateAt (a b : Z) :
  - maxTimeValue <= a <= maxTimeValue ->
  - maxTimeValue <= b <= maxTimeValue -> a < b ->
  exists q, durationMinutes (DateAt a) (DateAt b) = Js.Fin q /\
            (Qabs (q - ((b - a) # 60000)) <= ((b - a) # 60000) * 2 ^ (-52))%Q /\
            ((b - a) mod 60000 = 0 -> (q == (b - a) # 60000)%Q).
Proof.
  intros Ha Hb Hab.
  assert (P53 : 2 ^ 53 = 9007199254740992) by reflexivity.
  assert (P54 : 2 ^ 54 = 18014398509481984) by reflexivity.
  unfold durationMinutes. cbn [getTime].
  destruct sixty_thousand as (q60 & -> & H60).
  unfold Js.sub. cbn [Js.neg Js.ofZ Js.add].
  destruct (JsFacts.toDouble_near_integer (inject_Z b + - inject_Z a) (b - a))
    as (d' & q1 & -> & H1 & B & Sm & Ev & Wd).
  { unfold maxTimeValue in *. lia. }
  { unfold Z.sub. rewrite inject_Z_plus, inject_Z_opp. reflexivity. }
  assert (Hd' : 1 <= d') by lia.
  assert (N60 : exists p, Qnum q60 = Zpos p).
  { destruct q60 as [[|p|p] d]; unfold Qeq in H60; cbn in H60; try lia.
    now exists p. }
  destruct N60 as (p & N60). cbn [Js.div]. rewrite N60.
  set (x := (q1 / q60)%Q).
  assert (Ex : (x == d' # 60000)%Q).
  { unfold x. rewrite H1, H60. symmetry. apply (Qmake_Qdiv d' 60000). }
  assert (Lo : (2 ^ (-1022) <= x)%Q).
  { rewrite Ex. apply Qle_trans with (1 # 60000)%Q.
    - vm_compute. discriminate.
    - unfold Qle. cbn [Qnum Qden]. lia. }
  assert (Hi : (x < 2 ^ 1023)%Q).
  { rewrite Ex. apply Qlt_trans with (inject_Z (2 ^ 54)).
    - unfold Qlt, inject_Z. cbn [Qnum Qden]. unfold maxTimeValue in *. lia.
    - vm_compute. reflexivity. }
  assert (Hx : (0 < x)%Q).
  { rewrite Ex. unfold Qlt. cbn [Qnum Qden]. lia. }
  rewrite (JsFacts.toDouble_pos x Hx).
  destruct (JsFacts.roundPositive_normal x Lo Hi) as (q & E & Hq).
  exists q. split; [exact E|]. split.
  - rewrite Ex in Hq.
    assert (EX : (d' # 60000 == inject_Z d' * (1 # 60000))%Q)
      by (unfold Qeq, Qmult, inject_Z; cbn [Qnum Qden]; lia).
    assert (ED : (b - a # 60000 == inject_Z (b - a) * (1 # 60000))%Q)
      by (unfold Qeq, Qmult, inject_Z; cbn [Qnum Qden]; lia).
    rewrite EX in Hq. rewrite ED.
    change (2 ^ (-53))%Q with (1 # 9007199254740992)%Q in Hq.
    change (2 ^ (-52))%Q with (1 # 4503599627370496)%Q.
    apply Qabs_Qle_condition in Hq. apply Qabs_Qle_condition.
    destruct (Z_le_gt_dec (Z.abs (b - a)) (2 ^ 53)) as [S|W].
    + rewrite (Sm S) in Hq.
      assert (Pd : (0 < inject_Z (b - a))%Q)
        by (change 0%Q with (inject_Z 0); rewrite <- Zlt_Qlt; lia).
      set (D := inject_Z (b - a)) in *. clearbody D. lra.
    + assert (Pd : (inject_Z (2 ^ 53 + 1) <= inject_Z (b - a))%Q)
        by (rewrite <- Zle_Qle; lia).
      assert (B1 : (inject_Z d' <= inject_Z (b - a) + 1)%Q).
      { change 1%Q with (inject_Z 1).
        rewrite <- inject_Z_plus, <- Zle_Qle. lia. }
      assert (B2 : (inject_Z (b - a) - 1 <= inject_Z d')%Q).
      { change 1%Q with (inject_Z 1). unfold Qminus.
        rewrite <- inject_Z_opp, <- inject_Z_plus, <- Zle_Qle. lia. }
      rewrite P53 in Pd.
      change (inject_Z (9007199254740992 + 1)) with (9007199254740993 # 1)%Q in Pd.
      set (D := inject_Z (b - a)) in *. set (X := inject_Z d') in *.
      clearbody D X. lra.
  - intros Hm.
    assert (Ed : d' = b - a).
    { apply Ev. apply Z.even_spec. exists (30000 * ((b - a) / 60000)).
      Z.to_euclidean_division_equations; lia. }
    destruct (JsFacts.toDouble_integer x ((b - a) / 60000)) as (q2 & E2 & H2).
    + unfold maxTimeValue in *. rewrite P53.
      Z.to_euclidean_division_equations; lia.
    + rewrite Ex, Ed. unfold Qeq, inject_Z. cbn [Qnum Qden].
      Z.to_euclidean_division_equations; lia.
    + rewrite (JsFacts.toDouble_pos x Hx), E in E2. injection E2 as <-.
      rewrite H2, Ex, Ed. reflexivity.
Qed.

(** C7, as amended.  For [start < end] passing the date, blackout and
    ordering rules, the duration is the number
    [(end - start) / 60000], computed in binary64: it is within
    [2 ^ -52] of the exact number of minutes, relatively, and equal to
    it when it is a whole number of minutes.  A duration, so computed,
    below [minDuration] gets [min_duration]; otherwise one above
    [maxDuration] gets [max_duration]; and 30 minutes against a
    minimum of 60 gets [min_duration]. *)
Theorem duration_rules (s e : Date) (c : ConstraintConfig) :
  wfDate s -> wfDate e -> date_lt s e = true ->
  ~ beforeMinDate s c -> ~ afterMaxDate e c -> ~ hitsBlackout s e c ->
  (exists a b q, s = DateAt a /\ e = DateAt b /\
                 durationMinutes s e = Js.Fin q /\
                 (Qabs (q - ((b - a) # 60000))
                  <= ((b - a) # 60000) * 2 ^ (-52))%Q /\
                 ((b - a) mod 60000 = 0 -> (q == (b - a) # 60000)%Q))
  /\ (forall m, minDuration c = Some m ->
                Js.lt (durationMinutes s e) m = true ->
                validateRange Number (range s e) c
                = err min_duration (MinimumDurationIs m))
  /\ (~ tooShort s e c ->
      forall m, maxDuration c = Some m ->
                Js.gt (durationMinutes s e) m = true ->
                validateRange Number (range s e) c
                = err max_duration (MaximumDurationIs m))
  /\ validateRange Number (range mar15_10h00 mar15_10h30)
                   (onlyMinDuration 60)
     = err min_duration (MinimumDurationIs (Js.ofZ 60)).
Proof.
  intros Ws We Hlt Hmin Hmax Hbo.
  assert (E : validateRange Number (range s e) c
              = orElse (checkMinDuration s e c)
                  (orElse (checkMaxDuration s e c)
                     (orElse (checkMinTime Number s c)
                             (checkMaxTime Number e c)))).
  { unfold validateRange, range; simpl.
    now rewrite (checkMinDate_passes _ _ Hmin),
      (checkMaxDate_passes _ _ Hmax),
      (checkBlackout_passes _ _ _ Ws We Hbo), (checkOrder_passes _ _ Hlt). }
  split; [|split; [|split; [|reflexivity]]].
  - destruct (date_lt_DateAt_inv _ _ Hlt) as (a & b & -> & -> & Hab).
    destruct (durationMinutes_DateAt a b Ws We Hab) as (q & Hq & Hv).
    now exists a, b, q.
  - intros m Hm Hshort. rewrite E.
    destruct (checkMinDuration_fires s e c) as (m' & Hm' & ->).
    { now exists m. }
    rewrite Hm in Hm'. injection Hm' as <-. reflexivity.
  - intros Hns m Hm Hlong. rewrite E.
    rewrite (checkMinDuration_passes _ _ _ Hns).
    destruct (checkMaxDuration_fires s e c) as (m' & Hm' & ->).
    { now exists m. }
    rewrite Hm in Hm'. injection Hm' as <-. reflexivity.
Qed.

Lemma isSameDay_calendarDay (d b : Date) :
  isSameDay d b = true <->
  exists cd, calendarDay d = Some cd /\ calendarDay b = Some cd.
Proof.
  unfold isSameDay, getUTCFullYear, getUTCMonth, getUTCDate, dateField,
    calendarDay.
  destruct d as [|t], b as [|u].
  - split; [discriminate | now intros (cd & [=] & _)].
  - split; [discriminate | now intros (cd & [=] & _)].
  - rewrite JsFacts.seq_NaN_r.
    split; [discriminate | now intros (cd & _ & [=])].
  - rewrite !JsFacts.seq_ofZ, !andb_true_iff, !Z.eqb_eq. split.
    + intros [[-> ->] ->]. eauto.
    + intros (cd & [= <-] & [= -> -> ->]). auto.
Qed.

Lemma isBlackedOut_onBlackoutDay (d : Date) (c : ConstraintConfig) :
  isBlackedOut d (blackoutDates c) = true <-> onBlackoutDay d c.
Proof.
  unfold isBlackedOut, onBlackoutDay.
  destruct (blackoutDates c) as [bl|].
  - rewrite existsb_exists. split.
    + intros (b & Hin & Hsd). apply isSameDay_calendarDay in Hsd.
      destruct Hsd as (cd & H1 & H2). now exists bl, b, cd.
    + intros (bl' & b & cd & [= <-] & Hin & H1 & H2). exists b.
      split; [exact Hin|]. apply isSameDay_calendarDay. eauto.
  - split; [discriminate | now intros (bl & b & cd & [=] & _)].
Qed.

Lemma beforeMinDate_iff (d : Date) (c : ConstraintConfig) :
  match minDate c with Some m => date_lt d m | None => false end = true
  <-> beforeMinDate d c.
Proof.
  unfold beforeMinDate. destruct (minDate c) as [m|]; split.
  - intros H. now exists m.
  - now intros (m' & [= <-] & H).
  - discriminate.
  - now intros (m & [=] & _).
Qed.

Lemma afterMaxDate_iff (d : Date) (c : ConstraintConfig) :
  match maxDate c with Some m => date_gt d m | None => false end = true
  <-> afterMaxDate d c.
Proof.
  unfold afterMaxDate. destruct (maxDate c) as [m|]; split.
  - intros H. now exists m.
  - now intros (m' & [= <-] & H).
  - discriminate.
  - now intros (m & [=] & _).
Qed.

(** C8.  [isDateDisabled] holds exactly when the date is before
    [minDate], after [maxDate], or on the calendar day of a blackout
    date; the duration and time-of-day constraints play no part;
    2024-03-15 is disabled under [minDate] 2024-03-20. *)
Theorem isDateDisabled_iff (d : Date) (c : ConstraintConfig) :
  (isDateDisabled d c = true <->
   beforeMinDate d c \/ afterMaxDate d c \/ onBlackoutDay d c)
  /\ (forall c', minDate c' = minDate c -> maxDate c' = maxDate c ->
                 blackoutDates c' = blackoutDates c ->
                 isDateDisabled d c' = isDateDisabled d c)
  /\ isDateDisabled mar15_00h00 (onlyMinDate mar20_00h00) = true
  /\ isDateDisabled mar15_10h00 (onlyMinDate mar20_00h00) = true.
Proof.
  split; [|split; [|split; reflexivity]].
  - rewrite <- isBlackedOut_onBlackoutDay, <- beforeMinDate_iff,
      <- afterMaxDate_iff, <- !orb_true_iff.
    unfold isDateDisabled.
    destruct (match minDate c with Some m => date_lt d m | None => false
              end); [reflexivity|].
    destruct (match maxDate c with Some m => date_gt d m | None => false
              end); [reflexivity|].
    now destruct (isBlackedOut d (blackoutDates c)).
  - intros c' H1 H2 H3. unfold isDateDisabled. now rewrite H1, H2, H3.
Qed.

Lemma split_nonempty (sep : ascii) (s : string) :
  exists h t, split sep s = h :: t.
Proof.
  induction s as [|ch s (h & t & IH)]; simpl; [eauto|].
  destruct (Ascii.eqb ch sep); [eauto|]. rewrite IH. eauto.
Qed.

Lemma parseTime_hours (timeString : string) :
  hours (parseTime Number timeString)
  = Number (hourComponent timeString).
Proof.
  unfold parseTime, hourComponent.
  destruct (split_nonempty ":" timeString) as (h & t & ->).
  reflexivity.
Qed.

Lemma checkMinTime_NaN (s : Date) (c : ConstraintConfig) (str : string) :
  minTime c = Some str -> Number (hourComponent str) = Js.NaN ->
  checkMinTime Number s c = None.
Proof.
  intros Hc Hn. unfold checkMinTime. rewrite Hc.
  destruct str as [|ch str]; [reflexivity|]. cbn [truthy]. cbv zeta.
  rewrite parseTime_hours, Hn.
  now rewrite JsFacts.lt_NaN_r, JsFacts.seq_NaN_r.
Qed.

Lemma checkMaxTime_NaN (e : Date) (c : ConstraintConfig) (str : string) :
  maxTime c = Some str -> Number (hourComponent str) = Js.NaN ->
  checkMaxTime Number e c = None.
Proof.
  intros Hc Hn. unfold checkMaxTime. rewrite Hc.
  destruct str as [|ch str]; [reflexivity|]. cbn [truthy]. cbv zeta.
  rewrite parseTime_hours, Hn. unfold Js.gt.
  now rewrite JsFacts.seq_NaN_r.
Qed.

(** C9.  When the hour component of [minTime] (of [maxTime]) is not
    a number, [validateRange] behaves as if that constraint were
    absent and never reports [min_time] ([max_time]). *)
Theorem malformed_time_not_enforced (r : DateTimeRange)
        (c : ConstraintConfig) :
  (forall str, minTime c = Some str ->
               Number (hourComponent str) = Js.NaN ->
               validateRange Number r c
               = validateRange Number r (withoutMinTime c)
               /\ forall x, validateRange Number r c = Some x ->
                            type x <> min_time)
  /\ (forall str, maxTime c = Some str ->
                  Number (hourComponent str) = Js.NaN ->
                  validateRange Number r c
                  = validateRange Number r (withoutMaxTime c)
                  /\ forall x, validateRange Number r c = Some x ->
                               type x <> max_time).
Proof.
  split; intros str Hc Hn; split.
  - unfold validateRange. destruct (start r) as [s|]; [|reflexivity].
    destruct (end_ r) as [e|]; [|reflexivity].
    rewrite (checkMinTime_NaN s c str Hc Hn). reflexivity.
  - intros x Hx Ht.
    destruct (validateRange_error_source r c x Hx) as (s & e & _ & _ & Hin).
    rewrite Ht in Hin. simpl in Hin.
    rewrite (checkMinTime_NaN s c str Hc Hn) in Hin.
    repeat destruct Hin as [Hin|Hin]; try discriminate Hin. exact Hin.
  - unfold validateRange. destruct (start r) as [s|]; [|reflexivity].
    destruct (end_ r) as [e|]; [|reflexivity].
    rewrite (checkMaxTime_NaN e c str Hc Hn). reflexivity.
  - intros x Hx Ht.
    destruct (validateRange_error_source r c x Hx) as (s & e & _ & _ & Hin).
    rewrite Ht in Hin. simpl in Hin.
    rewrite (checkMaxTime_NaN e c str Hc Hn) in Hin.
    repeat destruct Hin as [Hin|Hin]; try discriminate Hin. exact Hin.
Qed.

End WithNumber.

(** ** The theorems at concrete ranges *)

Ltac wf_dates := unfold wfDate, maxTimeValue; simpl; lia.

Lemma partial_range_returns_none_witness :
  end_ {| start := Some mar15_10h00; end_ := None |} = None /\
  validateRange NumberOfDigits {| start := Some mar15_10h00; end_ := None |}
                (onlyMinDuration 60) = None.
Proof.
  split; [reflexivity|].
  apply partial_range_returns_none. right. reflexivity.
Defined.

Lemma validateRange_rule_order_witness :
  let c := minDateAndMaxDuration mar20_00h00 480 in
  let c' := minDateAndMaxDuration mar15_10h00 480 in
  (beforeMinDate mar15_10h00 c /\ tooLong mar15_10h00 mar15_20h00 c /\
   exists m, minDate c = Some m /\
             validateRange NumberOfDigits (range mar15_10h00 mar15_20h00) c
             = err min_date (StartDateMustBeAfter m))
  /\ (violated NumberOfDigits max_duration mar15_10h00 mar15_20h00 c' /\
      exists x,
        validateRange NumberOfDigits (range mar15_10h00 mar15_20h00) c'
        = Some x /\ type x = max_duration).
Proof.
  intros c c'. split.
  - assert (H1 : beforeMinDate mar15_10h00 c)
      by (exists mar20_00h00; split; reflexivity).
    assert (H2 : tooLong mar15_10h00 mar15_20h00 c)
      by (exists (Js.ofZ 480); split; reflexivity).
    split; [exact H1|]. split; [exact H2|].
    exact (proj2 (validateRange_rule_order NumberOfDigits
                    mar15_10h00 mar15_20h00 c) H1 H2).
  - assert (V : violated NumberOfDigits max_duration mar15_10h00
                         mar15_20h00 c')
      by (exists (Js.ofZ 480); split; reflexivity).
    split; [exact V|].
    refine (proj1 (proj1 (validateRange_rule_order NumberOfDigits
                            mar15_10h00 mar15_20h00 c') _ _)
              [min_date; max_date; blackout; invalid_range; min_duration]
              max_duration [min_time; max_time] eq_refl _ V).
    + wf_dates.
    + wf_dates.
    + intros u [<-|[<-|[<-|[<-|[<-|[]]]]]]; cbn [violated].
      * intros (m & [= <-] & H). discriminate H.
      * intros (m & [=] & _).
      * intros (bl & [=] & _).
      * intros H. discriminate H.
      * intros (m & [=] & _).
Defined.

Lemma inverted_range_is_invalid_range_witness :
  let c := onlyMinDate mar15_10h00 in
  notOrdered mar15_14h00 mar15_10h30 /\
  validateRange NumberOfDigits (range mar15_14h00 mar15_10h30) c
  = err invalid_range StartMustBeBeforeEnd.
Proof.
  intros c.
  assert (H : notOrdered mar15_14h00 mar15_10h30) by reflexivity.
  split; [exact H|].
  refine (proj1 (proj1 (inverted_range_is_invalid_range NumberOfDigits
                          mar15_14h00 mar15_10h30 c H) _ _ _ _) _).
  - wf_dates.
  - wf_dates.
  - intros (m & [= <-] & Hlt). discriminate Hlt.
  - intros (m & [=] & _).
  - intros (bl & [=] & _).
Defined.

Lemma duration_rules_witness :
  let c := onlyMinDuration 60 in
  date_lt mar15_10h00 mar15_10h30 = true /\
  validateRange NumberOfDigits (range mar15_10h00 mar15_10h30) c
  = err min_duration (MinimumDurationIs (Js.ofZ 60)).
Proof.
  intros c. split; [reflexivity|].
  refine (proj1 (proj2 (duration_rules NumberOfDigits mar15_10h00
                          mar15_10h30 c _ _ _ _ _ _))
            (Js.ofZ 60) eq_refl eq_refl).
  - wf_dates.
  - wf_dates.
  - reflexivity.
  - intros (m & [=] & _).
  - intros (m & [=] & _).
  - intros (bl & [=] & _).
Defined.

(** C7, as stated, fails: the duration that is compared is a number,
    the quotient rounded to binary64, and not the exact quotient.  Six
    seconds are exactly a tenth of a minute, which is less than the
    number written [0.1]; yet the range is accepted under
    [minDuration: 0.1], because the division returns that very number.
    Likewise the range from the first time value to the last but one
    is a millisecond short of 288000000000 minutes and is accepted
    under that minimum, the difference of the two time values being
    rounded to an even number of milliseconds. *)
Lemma exact_duration_is_not_compared :
  ~ (forall a b m,
        - maxTimeValue <= a <= maxTimeValue ->
        - maxTimeValue <= b <= maxTimeValue -> a < b ->
        ((b - a) # 60000 < m)%Q ->
        validateRange NumberOfDigits (range (DateAt a) (DateAt b))
                      (onlyMinDurationOf (Js.Fin m))
        = err min_duration (MinimumDurationIs (Js.Fin m)))
  /\ (exists m, oneTenth = Js.Fin m /\
                ((1710496806000 - 1710496800000) # 60000 < m)%Q /\
                durationMinutes mar15_10h00 mar15_10h00m06s = Js.Fin m /\
                validateRange NumberOfDigits
                              (range mar15_10h00 mar15_10h00m06s)
                              (onlyMinDurationOf oneTenth) = None)
  /\ ((8639999999999999 - -8640000000000000) # 60000
      < inject_Z 288000000000)%Q
  /\ Js.seq (durationMinutes firstInstant lastButOneInstant)
            (Js.ofZ 288000000000) = true
  /\ validateRange NumberOfDigits (range firstInstant lastButOneInstant)
                   (onlyMinDuration 288000000000) = None.
Proof.
  assert (E : oneTenth
              = Js.Fin (7205759403792794 # 72057594037927936))
    by (vm_compute; reflexivity).
  assert (L : ((1710496806000 - 1710496800000) # 60000
               < 7205759403792794 # 72057594037927936)%Q)
    by (vm_compute; reflexivity).
  assert (V : validateRange NumberOfDigits
                            (range mar15_10h00 mar15_10h00m06s)
                            (onlyMinDurationOf oneTenth) = None)
    by (vm_compute; reflexivity).
  split; [|split; [|split; [|split]]].
  - intros H.
    specialize (H 1710496800000 1710496806000 _ ltac:(unfold maxTimeValue; lia)
                  ltac:(unfold maxTimeValue; lia) ltac:(lia) L).
    rewrite <- E in H. unfold mar15_10h00, mar15_10h00m06s in V.
    rewrite V in H. discriminate.
  - eexists. split; [exact E|]. split; [exact L|]. split; [|exact V].
    vm_compute. reflexivity.
  - vm_compute. reflexivity.
  - vm_compute. reflexivity.
  - vm_compute. reflexivity.
Qed.

Lemma isDateDisabled_iff_witness :
  isDateDisabled mar15_10h00 (minDateAndMaxDuration mar20_00h00 480)
  = isDateDisabled mar15_10h00 (onlyMinDate mar20_00h00).
Proof.
  apply (proj1 (proj2 (isDateDisabled_iff mar15_10h00
                         (onlyMinDate mar20_00h00))));
    reflexivity.
Defined.

Lemma malformed_time_not_enforced_witness :
  let r := range mar15_10h00 mar15_14h00 in
  let c := onlyTimes (Some "abc:def"%string) None in
  NumberOfDigits (hourComponent "abc:def") = Js.NaN /\
  validateRange NumberOfDigits r c
  = validateRange NumberOfDigits r (withoutMinTime c) /\
  forall x, validateRange NumberOfDigits r c = Some x -> type x <> min_time.
Proof.
  intros r c. split; [reflexivity|].
  apply (proj1 (malformed_time_not_enforced NumberOfDigits r c)
               "abc:def"%string); reflexivity.
Defined.

End Validator.

(* ===================================================================== *)
(** * Facts about timezone.ts *)
(* ===================================================================== *)

Module TimezoneFacts.
Import Ecma TimezoneTs Rules JsFacts EcmaFacts.

(** ** The midpoint of the window *)

(** The sum [low + high] as a number. *)
Lemma sum_rounded (low high : Z) :
  Z.abs (low + high) < 2 ^ 54 ->
  exists s q, Js.add (Js.ofZ low) (Js.ofZ high) = Js.Fin q /\
              (q == inject_Z s)%Q /\
              -1 <= s - (low + high) <= 1 /\
              (Z.abs (low + high) <= 2 ^ 53 -> s = low + high) /\
              (Z.even (low + high) = true -> s = low + high) /\
              (2 ^ 53 < Z.abs (low + high) -> Z.even s = true).
Proof.
  intros H. cbn [Js.add Js.ofZ].
  apply toDouble_near_integer; [exact H|].
  rewrite inject_Z_plus. reflexivity.
Qed.

Lemma half_floor (q : Q) (s : Z) :
  (q == inject_Z s)%Q -> Z.abs s <= 2 ^ 54 ->
  Z.abs s <= 2 ^ 53 \/ Z.even s = true ->
  Js.floor (Js.div (Js.Fin q) (Js.ofZ 2)) = Js.Fin (inject_Z (s / 2)).
Proof.
  intros Eq Hs Hc.
  assert (P53 : 2 ^ 53 = 9007199254740992) by reflexivity.
  assert (P54 : 2 ^ 54 = 18014398509481984) by reflexivity.
  change (Js.div (Js.Fin q) (Js.ofZ 2)) with (Js.toDouble (q / inject_Z 2)).
  assert (Eh : (q / inject_Z 2 == s # 2)%Q).
  { rewrite Eq. symmetry. apply (Qmake_Qdiv s 2). }
  assert (R : exists q2, Js.toDouble (q / inject_Z 2) = Js.Fin q2 /\
                         (q2 == q / inject_Z 2)%Q).
  { destruct (Z.even s) eqn:Ev.
    - apply (toDouble_integer _ (s / 2)).
      + rewrite P53, P54 in *. Z.to_euclidean_division_equations; lia.
      + rewrite Eh. unfold Qeq, inject_Z. cbn [Qnum Qden].
        apply Z.even_spec in Ev. destruct Ev as [k ->].
        Z.to_euclidean_division_equations; lia.
    - apply (toDouble_representable _ s (-1)); [|lia|].
      + destruct Hc as [Hc|Hc]; [|discriminate].
        assert (s <> 2 ^ 53) by (intros ->; discriminate Ev).
        assert (s <> - 2 ^ 53) by (intros ->; discriminate Ev).
        lia.
      + rewrite Eh. rewrite (Qmake_Qdiv s 2). reflexivity. }
  destruct R as (q2 & -> & E2). cbn [Js.floor]. do 2 f_equal.
  rewrite E2, Eh. reflexivity.
Qed.

(** [Math.floor((low + high) / 2)] when the sum is below [2 ^ 54] in
    magnitude: half the sum rounded to an even integer, half the sum
    itself up to [2 ^ 53]. *)
Lemma midpoint_spec (low high : Z) :
  Z.abs (low + high) < 2 ^ 54 ->
  exists u, midpoint low high = Js.Fin (inject_Z u) /\
            low + high - 1 <= 2 * u <= low + high + 1 /\
            (Z.abs (low + high) <= 2 ^ 53 -> u = (low + high) / 2) /\
            (Z.even (low + high) = true -> 2 * u = low + high).
Proof.
  intros H.
  assert (P53 : 2 ^ 53 = 9007199254740992) by reflexivity.
  assert (P54 : 2 ^ 54 = 18014398509481984) by reflexivity.
  destruct (sum_rounded low high H) as (s & q & E & Hq & B & Sm & Ev & Wd).
  unfold midpoint. rewrite E.
  assert (C : Z.abs s <= 2 ^ 53 \/ Z.even s = true).
  { destruct (Z_le_gt_dec (Z.abs (low + high)) (2 ^ 53)) as [S|W].
    - left. rewrite (Sm S). exact S.
    - right. apply Wd. lia. }
  rewrite (half_floor q s Hq ltac:(lia) C).
  exists (s / 2). split; [reflexivity|].
  split; [|split].
  - destruct (Z_le_gt_dec (Z.abs (low + high)) (2 ^ 53)) as [S|W].
    + rewrite (Sm S). Z.to_euclidean_division_equations; lia.
    + assert (Es : Z.even s = true) by (apply Wd; lia).
      apply Z.even_spec in Es. destruct Es as [k Es].
      Z.to_euclidean_division_equations; lia.
  - intros S. now rewrite (Sm S).
  - intros Es. rewrite (Ev Es).
    apply Z.even_spec in Es. destruct Es as [k Es].
    Z.to_euclidean_division_equations; lia.
Qed.

Lemma Qfloor_ge (q : Q) (z : Z) : (inject_Z z <= q)%Q -> z <= Qfloor q.
Proof.
  intros H. rewrite <- (Qfloor_Z z). now apply Qfloor_resp_le.
Qed.

Lemma Qfloor_le (q : Q) (z : Z) : (q <= inject_Z z)%Q -> Qfloor q <= z.
Proof.
  intros H. rewrite <- (Qfloor_Z z). now apply Qfloor_resp_le.
Qed.

(** From [2 ^ 54] on, the midpoint is no time value. *)
Lemma midpoint_invalid (low high : Z) :
  2 ^ 54 <= Z.abs (low + high) ->
  newDateOf (midpoint low high) = InvalidDate.
Proof.
  intros H. unfold midpoint. cbn [Js.add Js.ofZ].
  assert (Hx : (2 ^ 54 <= Qabs (inject_Z low + inject_Z high))%Q).
  { rewrite <- inject_Z_plus. rewrite pow2_Z by lia.
    change (Qabs (inject_Z (low + high)))
      with (inject_Z (Z.abs (low + high))).
    rewrite <- Zle_Qle. exact H. }
  pose proof (toDouble_lower _ 54 ltac:(lia) Hx) as L.
  destruct (Js.toDouble (inject_Z low + inject_Z high)) as [| |q|];
    [contradiction|reflexivity| |reflexivity].
  change (Js.div (Js.Fin q) (Js.ofZ 2)) with (Js.toDouble (q / inject_Z 2)).
  assert (Hh : (2 ^ 53 <= Qabs (q / inject_Z 2))%Q).
  { unfold Qdiv. rewrite Qabs_Qmult.
    change (Qabs (/ inject_Z 2)) with (2 ^ (-1))%Q.
    replace 53 with (54 + -1) by ring. rewrite pow2_plus.
    apply Qmult_le_compat_r; [exact L|discriminate]. }
  pose proof (toDouble_lower _ 53 ltac:(lia) Hh) as L2.
  destruct (Js.toDouble (q / inject_Z 2)) as [| |q2|];
    [contradiction|reflexivity| |reflexivity].
  cbn [Js.floor]. rewrite newDateOf_integer.
  unfold newDate, TimeClip.
  destruct (Z.leb_spec (Z.abs (Qfloor q2)) maxTimeValue) as [A|A];
    [exfalso|reflexivity].
  rewrite pow2_Z in L2 by lia.
  assert (P53 : 2 ^ 53 = 9007199254740992) by reflexivity.
  unfold maxTimeValue in A.
  destruct (Qlt_le_dec q2 0) as [N|P].
  - rewrite (Qabs_neg q2) in L2 by now apply Qlt_le_weak.
    assert (Qfloor q2 <= - 2 ^ 53); [|lia].
    apply Qfloor_le. rewrite inject_Z_opp.
    apply Qopp_le_compat in L2. now rewrite Qopp_involutive in L2.
  - rewrite (Qabs_pos q2 P) in L2.
    pose proof (Qfloor_ge q2 _ L2). lia.
Qed.

(** Above [2 ^ 53] the sum is rounded before it is halved: between
    the last but one time value and the last, the midpoint is the
    last, where half the exact sum is the last but one. *)
Example midpoint_rounds_the_sum :
  midpoint 8639999999999999 8640000000000000 = Js.ofZ 8640000000000000
  /\ (8639999999999999 + 8640000000000000) / 2 = 8639999999999999
  /\ midpoint 1710037800000 1710210600000 = Js.ofZ 1710124200000.
Proof. repeat split; vm_compute; reflexivity. Qed.

(** A valid [testDate]: its time value is half the sum of the two ends
    of the window, the sum being rounded when it exceeds [2 ^ 53]. *)
Lemma midpoint_DateAt (low high t : Z) :
  newDateOf (midpoint low high) = DateAt t ->
  low + high - 1 <= 2 * t <= low + high + 1 /\
  - maxTimeValue <= t <= maxTimeValue.
Proof.
  intros E.
  destruct (Z_lt_le_dec (Z.abs (low + high)) (2 ^ 54)) as [S|W].
  - destruct (midpoint_spec low high S) as (u & Eu & B & _).
    rewrite Eu, newDateOf_integer in E.
    apply newDate_DateAt in E. destruct E as [-> R]. split; assumption.
  - rewrite (midpoint_invalid low high W) in E. discriminate.
Qed.

(** A window inside the range of time values has a valid midpoint. *)
Lemma midpoint_in_range (low high : Z) :
  - maxTimeValue <= low -> low <= high -> high <= maxTimeValue ->
  exists t, newDateOf (midpoint low high) = DateAt t /\
            low + high - 1 <= 2 * t <= low + high + 1.
Proof.
  intros Hl Hlh Hh.
  assert (P54 : 2 ^ 54 = 18014398509481984) by reflexivity.
  assert (S : Z.abs (low + high) < 2 ^ 54)
    by (unfold maxTimeValue in *; lia).
  destruct (midpoint_spec low high S) as (u & Eu & B & _).
  exists u. rewrite Eu, newDateOf_integer. split; [|exact B].
  apply newDate_in_range. lia.
Qed.

(** An even sum is halved exactly. *)
Lemma midpoint_even (low high w : Z) :
  low + high = 2 * w -> - maxTimeValue <= w <= maxTimeValue ->
  newDateOf (midpoint low high) = DateAt w.
Proof.
  intros E R.
  assert (P54 : 2 ^ 54 = 18014398509481984) by reflexivity.
  assert (S : Z.abs (low + high) < 2 ^ 54)
    by (unfold maxTimeValue in *; lia).
  destruct (midpoint_spec low high S) as (u & Eu & _ & _ & Ev).
  rewrite Eu, newDateOf_integer.
  assert (u = w).
  { assert (Z.even (low + high) = true)
      by (rewrite E, Z.even_mul; reflexivity).
    specialize (Ev H). lia. }
  subst u. now apply newDate_in_range.
Qed.

Section Search.
Variable formatter : Formatter.
Variable c : Civil.

(** While the window is wide enough for the iterations left, every
    midpoint lies inside it. *)
Lemma candidates_in_window (n : nat) :
  forall low high t,
    3 * 2 ^ Z.of_nat n <= high - low + 3 ->
    In t (candidates formatter c n low high) -> low <= t <= high.
Proof.
  induction n as [|n IH]; intros low high t Hw; [contradiction|].
  rewrite Nat2Z.inj_succ, Z.pow_succ_r in Hw by lia.
  assert (0 < 2 ^ Z.of_nat n) by (apply Z.pow_pos_nonneg; lia).
  cbn [candidates].
  destruct (newDateOf (midpoint low high)) as [|u] eqn:E; [contradiction|].
  apply midpoint_DateAt in E. destruct E as [B _].
  intros [<-|Hin]; [lia|].
  destruct (sameFields _ c); [contradiction|].
  destruct (comparison _ c <? 0).
  - apply IH in Hin; lia.
  - apply IH in Hin; lia.
Qed.

(** The loop returns the seed or a tested midpoint that matched. *)
Lemma search_result (n : nat) :
  forall low high best date,
    search formatter c n low high best = Js.Normal date ->
    date = best \/
    exists t, date = DateAt t /\
              In t (candidates formatter c n low high) /\
              sameFields (tzFields (formatter t)) c = true.
Proof.
  induction n as [|n IH]; intros low high best date; cbn [search candidates].
  - intros [= <-]. now left.
  - destruct (newDateOf (midpoint low high)) as [|u]; [discriminate|].
    destruct (sameFields (tzFields (formatter u)) c) eqn:Hs.
    + intros [= <-]. right. exists u. simpl. auto.
    + destruct (comparison _ c <? 0); intros H;
        (destruct (IH _ _ _ _ H) as [->|(t & -> & Hin & Ht)];
         [now left | right; exists t; simpl; auto]).
Qed.

(** Inside the range of time values the loop does not throw. *)
Lemma search_total (n : nat) :
  forall low high best,
    3 * 2 ^ Z.of_nat n <= high - low + 3 ->
    - maxTimeValue <= low -> high <= maxTimeValue ->
    exists date, search formatter c n low high best = Js.Normal date.
Proof.
  induction n as [|n IH]; intros low high best Hw Hl Hh; cbn [search].
  - eauto.
  - rewrite Nat2Z.inj_succ, Z.pow_succ_r in Hw by lia.
    assert (0 < 2 ^ Z.of_nat n) by (apply Z.pow_pos_nonneg; lia).
    destruct (midpoint_in_range low high) as (u & -> & B); [lia..|].
    destruct (sameFields _ c); [eauto|].
    destruct (comparison _ c <? 0); apply IH; lia.
Qed.

(** Without a matching midpoint the loop returns the seed. *)
Lemma search_no_match (n : nat) :
  forall low high best,
    3 * 2 ^ Z.of_nat n <= high - low + 3 ->
    - maxTimeValue <= low -> high <= maxTimeValue ->
    (forall t, In t (candidates formatter c n low high) ->
               sameFields (tzFields (formatter t)) c = false) ->
    search formatter c n low high best = Js.Normal best.
Proof.
  intros low high best Hw Hl Hh Hno.
  destruct (search_total n low high best Hw Hl Hh) as [date Hd].
  rewrite Hd. f_equal.
  destruct (search_result n _ _ _ _ Hd) as [->|(t & -> & Hin & Ht)];
    [reflexivity|].
  rewrite (Hno t Hin) in Ht. discriminate.
Qed.
End Search.

Lemma window_wide_enough (r : Z) :
  3 * 2 ^ Z.of_nat 20 <= (r + dayMs) - (r - dayMs) + 3.
Proof. change (2 ^ Z.of_nat 20) with 1048576. unfold dayMs. lia. Qed.

Lemma sameFields_eq (a b : Civil) : sameFields a b = true <-> a = b.
Proof.
  unfold sameFields. rewrite !andb_true_iff, !Z.eqb_eq.
  destruct a, b; simpl. split.
  - intros [[[[-> ->] ->] ->] ->]. reflexivity.
  - intros [= -> -> -> -> ->]. auto.
Qed.

Lemma Date_UTC_newDate (y m d h mi r : Z) :
  Date_UTC y m d h mi 0 = Some r ->
  newDateOpt (Date_UTC y m d h mi 0) = DateAt r /\
  - maxTimeValue <= r <= maxTimeValue.
Proof.
  intros H. rewrite H. unfold Date_UTC in H.
  apply TimeClip_Some in H. destruct H as [-> Hr]. simpl.
  now rewrite newDate_in_range.
Qed.

Lemma tzFields_formatWithOffset (offset : Z -> Z) (t : Z) :
  tzFields (formatWithOffset offset t) = fieldsAt (t + offset t).
Proof.
  unfold tzFields, formatWithOffset, fieldsAt, mkCivil.
  cbn [year month day hour minute]. now rewrite Z.add_simpl_r.
Qed.

(** A formatter that follows the calendar prints well-formed fields. *)
Lemma formatWithOffset_wellFormed (offset : Z -> Z) :
  wellFormed (formatWithOffset offset).
Proof.
  intros t. rewrite tzFields_formatWithOffset.
  set (w := t + offset t). unfold validCivil, fieldsAt, mkCivil, DaysInMonth.
  cbn [cYear cMonth cDay cHour cMinute].
  pose proof (MonthFromTime_range w). pose proof (DateFromTime_range w) as D.
  pose proof (HourFromTime_range w). pose proof (MinFromTime_range w).
  unfold InLeapYear in D. auto.
Qed.

Lemma monthStart_bounds (leap m : Z) :
  0 <= leap <= 1 -> 0 <= m <= 11 ->
  0 <= monthStart leap m /\ monthStart leap (m + 1) <= 365 + leap.
Proof.
  intros Hl Hm.
  assert (M : m = 0 \/ m = 1 \/ m = 2 \/ m = 3 \/ m = 4 \/ m = 5 \/ m = 6 \/
              m = 7 \/ m = 8 \/ m = 9 \/ m = 10 \/ m = 11) by lia.
  repeat destruct M as [->|M]; try subst m; month_starts; lia.
Qed.

Lemma wallClock_decompose (c : Civil) :
  0 <= cMonth c <= 11 ->
  wallClock c
  = (DayFromYear (cYear c)
     + monthStart (if isLeap (cYear c) then 1 else 0) (cMonth c)
     + cDay c - 1) * msPerDay
    + (cHour c * msPerHour + cMinute c * msPerMinute).
Proof.
  intros Hm. unfold wallClock, MakeDate, MakeDay, MakeTime.
  rewrite Z.div_small, Z.mod_small by lia. rewrite Z.add_0_r. lia.
Qed.

(** Reading the wall clock back: the fields of a well-formed civil time
    hold during the whole minute it names. *)
Lemma fieldsAt_wallClock (c : Civil) (delta : Z) :
  validCivil c -> 0 <= delta < msPerMinute ->
  fieldsAt (wallClock c + delta) = c.
Proof.
  intros (Hm & Hd & Hh & Hmi) Hdelta.
  pose proof (wallClock_decompose c Hm) as Hw.
  destruct c as [y m d h mi].
  cbn [cYear cMonth cDay cHour cMinute] in *.
  unfold DaysInMonth in Hd.
  set (leap := if isLeap y then 1 else 0) in *.
  assert (Hl : 0 <= leap <= 1) by (unfold leap; destruct (isLeap y); lia).
  destruct (monthStart_bounds leap m Hl Hm) as [B1 B2].
  set (k := monthStart leap m + d - 1) in *.
  set (w := wallClock _ + delta).
  assert (Hw' : w = (DayFromYear y + k) * msPerDay
                    + (h * msPerHour + mi * msPerMinute + delta))
    by (unfold w; rewrite Hw; lia).
  clearbody w. clear Hw.
  assert (HD : Day w = DayFromYear y + k).
  { unfold Day. rewrite Hw'. unfold msPerDay, msPerHour, msPerMinute in *.
    euclid. }
  assert (HY : YearFromTime w = y).
  { unfold YearFromTime. rewrite HD. apply YearFromDay_unique.
    rewrite DayFromYear_succ. unfold DaysInYear. fold leap.
    unfold k. destruct (isLeap y); lia. }
  assert (HL : InLeapYear w = leap) by (unfold InLeapYear; now rewrite HY).
  assert (HK : DayWithinYear w = k)
    by (unfold DayWithinYear; rewrite HD, HY; lia).
  assert (HM : MonthFromTime w = m).
  { unfold MonthFromTime. rewrite HL, HK.
    apply monthOfYearDay_unique; auto. unfold k. lia. }
  unfold fieldsAt, mkCivil. f_equal; auto.
  - unfold DateFromTime. rewrite HL, HK, HM. unfold k. lia.
  - unfold HourFromTime. rewrite Hw'.
    unfold msPerDay, msPerHour, msPerMinute in *. euclid.
  - unfold MinFromTime. rewrite Hw'.
    unfold msPerDay, msPerHour, msPerMinute in *. euclid.
Qed.

Lemma Day_from_fields (u : Z) :
  Day u = DayFromYear (YearFromTime u)
          + monthStart (InLeapYear u) (MonthFromTime u) + DateFromTime u - 1.
Proof. unfold DateFromTime, DayWithinYear. lia. Qed.

(** Within a day, hours and minutes follow the clock. *)
Lemma clock_order (u v : Z) :
  u / msPerMinute < v / msPerMinute -> Day u = Day v ->
  HourFromTime u <= HourFromTime v /\
  (HourFromTime u = HourFromTime v -> MinFromTime u < MinFromTime v).
Proof.
  unfold Day, HourFromTime, MinFromTime, msPerMinute, msPerHour, msPerDay.
  intros H1 H2. euclid.
Qed.

(** From one day to a later one, year, month and date follow the
    calendar. *)
Lemma calendar_order (u v : Z) :
  Day u <= Day v ->
  YearFromTime u <= YearFromTime v /\
  (YearFromTime u = YearFromTime v ->
   MonthFromTime u <= MonthFromTime v /\
   (MonthFromTime u = MonthFromTime v ->
    DateFromTime u <= DateFromTime v /\
    (DateFromTime u = DateFromTime v -> Day u = Day v))).
Proof.
  intros H. split; [now apply YearFromDay_mono|]. intros HY.
  assert (HL : InLeapYear u = InLeapYear v)
    by (unfold InLeapYear; now rewrite HY).
  assert (HK : DayWithinYear u <= DayWithinYear v)
    by (unfold DayWithinYear; rewrite HY; lia).
  split.
  { unfold MonthFromTime. rewrite HL.
    apply monthOfYearDay_mono; [apply InLeapYear_range | exact HK]. }
  intros HM. split.
  { unfold DateFromTime. rewrite HL, HM. lia. }
  intros HD. rewrite (Day_from_fields u), (Day_from_fields v).
  now rewrite HY, HL, HM, HD.
Qed.

Ltac field_case x y :=
  destruct (Z.eqb_spec x y); cbn [negb andb];
  [|destruct (Z.ltb_spec x y); [auto|lia]].

(** The sign computed by the source orders the wall clock by minutes. *)
Lemma comparison_earlier (u v : Z) :
  u / msPerMinute < v / msPerMinute ->
  sameFields (fieldsAt u) (fieldsAt v) = false /\
  comparison (fieldsAt u) (fieldsAt v) = -1.
Proof.
  intros H.
  assert (HD : Day u <= Day v).
  { apply Day_mono. unfold msPerMinute in H.
    destruct (Z_le_gt_dec u v); [assumption|]. exfalso.
    assert (v / 60000 <= u / 60000) by (apply Z.div_le_mono; lia). lia. }
  destruct (calendar_order u v HD) as (C1 & C2).
  pose proof (clock_order u v H) as C3.
  unfold sameFields, comparison, fieldsAt, mkCivil.
  cbn [cYear cMonth cDay cHour cMinute].
  field_case (YearFromTime u) (YearFromTime v).
  destruct C2 as (C2a & C2b); [assumption|].
  field_case (MonthFromTime u) (MonthFromTime v).
  destruct C2b as (C2c & C2d); [assumption|].
  field_case (DateFromTime u) (DateFromTime v).
  destruct C3 as (C3a & C3b); [auto|].
  field_case (HourFromTime u) (HourFromTime v).
  field_case (MinFromTime u) (MinFromTime v). lia.
Qed.

Lemma comparison_flip (a b : Civil) :
  comparison a b = -1 -> comparison b a = 1 /\ sameFields b a = false.
Proof.
  unfold comparison, sameFields.
  destruct (Z.eqb_spec (cYear a) (cYear b)), (Z.eqb_spec (cYear b) (cYear a));
    try lia; cbn [negb andb].
  2: { destruct (Z.ltb_spec (cYear a) (cYear b)),
         (Z.ltb_spec (cYear b) (cYear a)); try lia; auto; discriminate. }
  destruct (Z.eqb_spec (cMonth a) (cMonth b)),
    (Z.eqb_spec (cMonth b) (cMonth a)); try lia; cbn [negb andb].
  2: { destruct (Z.ltb_spec (cMonth a) (cMonth b)),
         (Z.ltb_spec (cMonth b) (cMonth a)); try lia; auto; discriminate. }
  destruct (Z.eqb_spec (cDay a) (cDay b)),
    (Z.eqb_spec (cDay b) (cDay a)); try lia; cbn [negb andb].
  2: { destruct (Z.ltb_spec (cDay a) (cDay b)),
         (Z.ltb_spec (cDay b) (cDay a)); try lia; auto; discriminate. }
  destruct (Z.eqb_spec (cHour a) (cHour b)),
    (Z.eqb_spec (cHour b) (cHour a)); try lia; cbn [negb andb].
  2: { destruct (Z.ltb_spec (cHour a) (cHour b)),
         (Z.ltb_spec (cHour b) (cHour a)); try lia; auto; discriminate. }
  destruct (Z.eqb_spec (cMinute a) (cMinute b)),
    (Z.eqb_spec (cMinute b) (cMinute a)); try lia; cbn [negb andb];
    try discriminate.
  destruct (Z.ltb_spec (cMinute a) (cMinute b)),
    (Z.ltb_spec (cMinute b) (cMinute a)); try lia; auto; discriminate.
Qed.

Lemma wallClock_minute (c : Civil) (w : Z) :
  0 <= cMonth c <= 11 ->
  (w < wallClock c -> w / msPerMinute < wallClock c / msPerMinute) /\
  (wallClock c + msPerMinute <= w ->
   wallClock c / msPerMinute < w / msPerMinute).
Proof.
  intros Hm. rewrite (wallClock_decompose c Hm).
  unfold msPerDay, msPerHour, msPerMinute. split; intros H; euclid.
Qed.

(** ** The search in a zone whose offset is constant on the window *)

Section ConstantOffset.
Variable offset : Z -> Z.
Variable off : Z.
Variable c : Civil.
Variables lo hi : Z.
Hypothesis c_valid : validCivil c.
Hypothesis offset_constant : forall t, lo <= t <= hi -> offset t = off.
Hypothesis lo_in_range : - maxTimeValue <= lo.
Hypothesis hi_in_range : hi <= maxTimeValue.

Lemma fieldsAt_target : fieldsAt (wallClock c) = c.
Proof.
  rewrite <- (Z.add_0_r (wallClock c)).
  apply fieldsAt_wallClock; [exact c_valid | unfold msPerMinute; lia].
Qed.

Lemma probe_match (t : Z) :
  lo <= t <= hi ->
  wallClock c - off <= t < wallClock c - off + msPerMinute ->
  tzFields (formatWithOffset offset t) = c.
Proof.
  intros Ht Hm. rewrite tzFields_formatWithOffset, (offset_constant t Ht).
  replace (t + off) with (wallClock c + (t + off - wallClock c)) by lia.
  apply fieldsAt_wallClock; [exact c_valid | lia].
Qed.

Lemma probe_early (t : Z) :
  lo <= t <= hi -> t < wallClock c - off ->
  sameFields (tzFields (formatWithOffset offset t)) c = false /\
  comparison (tzFields (formatWithOffset offset t)) c = -1.
Proof.
  intros Ht Hm. rewrite tzFields_formatWithOffset, (offset_constant t Ht).
  assert (E : (t + off) / msPerMinute < wallClock c / msPerMinute)
    by (apply wallClock_minute; [apply c_valid | lia]).
  destruct (comparison_earlier _ _ E) as [A B].
  rewrite fieldsAt_target in A, B. auto.
Qed.

Lemma probe_late (t : Z) :
  lo <= t <= hi -> wallClock c - off + msPerMinute <= t ->
  sameFields (tzFields (formatWithOffset offset t)) c = false /\
  comparison (tzFields (formatWithOffset offset t)) c = 1.
Proof.
  intros Ht Hm. rewrite tzFields_formatWithOffset, (offset_constant t Ht).
  assert (E : wallClock c / msPerMinute < (t + off) / msPerMinute)
    by (apply wallClock_minute; [apply c_valid | lia]).
  destruct (comparison_earlier _ _ E) as [_ E'].
  destruct (comparison_flip _ _ E') as [F1 F2].
  rewrite fieldsAt_target in F1, F2. auto.
Qed.

(** The bisection keeps the requested minute inside [low, high] and
    halves the window, so it meets the minute before the window gets
    narrower than a minute. *)
Lemma search_finds (n : nat) :
  forall low high best,
    lo <= low -> high <= hi ->
    low <= wallClock c - off -> wallClock c - off + 59999 <= high ->
    high - low + 1 < 60000 * 2 ^ Z.of_nat n ->
    exists t, search (formatWithOffset offset) c n low high best
              = Js.Normal (DateAt t) /\
              lo <= t <= hi /\
              wallClock c - off <= t < wallClock c - off + msPerMinute.
Proof.
  induction n as [|n IH]; intros low high best Hlo Hhi Hl Hh Hw.
  - simpl in Hw. lia.
  - rewrite Nat2Z.inj_succ, Z.pow_succ_r in Hw by lia.
    assert (0 < 2 ^ Z.of_nat n) by (apply Z.pow_pos_nonneg; lia).
    cbn [search].
    destruct (midpoint_in_range low high) as (mid & -> & B); [lia..|].
    assert (Hmid : lo <= mid <= hi) by lia.
    destruct (Z_lt_ge_dec mid (wallClock c - off)) as [Early|NotEarly].
    + destruct (probe_early mid Hmid Early) as [-> ->].
      change (-1 <? 0) with true. cbv iota. apply IH; lia.
    + destruct (Z_lt_ge_dec mid (wallClock c - off + msPerMinute))
        as [Match|Late].
      * rewrite (probe_match mid Hmid (conj (Z.ge_le _ _ NotEarly) Match)).
        rewrite (proj2 (sameFields_eq c c) eq_refl).
        exists mid. repeat split; lia.
      * destruct (probe_late mid Hmid (Z.ge_le _ _ Late)) as [-> ->].
        change (1 <? 0) with false. cbv iota.
        apply IH; unfold msPerMinute in *; lia.
Qed.
End ConstantOffset.

End TimezoneFacts.

(* ===================================================================== *)
(** * The timezone resolver *)
(* ===================================================================== *)

Module Resolver.
Import Ecma TimezoneTs Rules Samples EcmaFacts TimezoneFacts.

Section WithFormat.
Variable DateTimeFormat : string -> option Formatter.

Lemma createDateInTimezone_unfold (y m d h mi r : Z) (tz : string)
      (formatter : Formatter) :
  DateTimeFormat tz = Some formatter ->
  Date_UTC y m d h mi 0 = Some r ->
  createDateInTimezone DateTimeFormat y m d h mi tz
  = search formatter (mkCivil y m d h mi) 20 (r - dayMs) (r + dayMs)
           (DateAt r).
Proof.
  intros Hf Hr. unfold createDateInTimezone. rewrite Hf.
  destruct (Date_UTC_newDate _ _ _ _ _ _ Hr) as [-> _]. reflexivity.
Qed.

(** C10.  The instant returned by [createDateInTimezone] is the
    naive UTC seed or a matching midpoint of the search, and lies
    within 24 hours of the seed, whatever the formatter reports;
    and an instant is returned whenever the zone is known and the
    window lies in the range of time values. *)
Theorem result_within_window (y m d h mi : Z) (tz : string) :
  (forall date,
      createDateInTimezone DateTimeFormat y m d h mi tz = Js.Normal date ->
      exists formatter r t,
        DateTimeFormat tz = Some formatter /\
        Date_UTC y m d h mi 0 = Some r /\ date = DateAt t /\
        r - dayMs <= t <= r + dayMs /\
        (t = r \/
         In t (candidates formatter (mkCivil y m d h mi) 20
                          (r - dayMs) (r + dayMs)) /\
         tzFields (formatter t) = mkCivil y m d h mi))
  /\ (forall formatter r,
         DateTimeFormat tz = Some formatter ->
         Date_UTC y m d h mi 0 = Some r ->
         - maxTimeValue <= r - dayMs -> r + dayMs <= maxTimeValue ->
         exists t, createDateInTimezone DateTimeFormat y m d h mi tz
                   = Js.Normal (DateAt t) /\
                   r - dayMs <= t <= r + dayMs).
Proof.
  assert (Part1 : forall date,
      createDateInTimezone DateTimeFormat y m d h mi tz = Js.Normal date ->
      exists formatter r t,
        DateTimeFormat tz = Some formatter /\
        Date_UTC y m d h mi 0 = Some r /\ date = DateAt t /\
        r - dayMs <= t <= r + dayMs /\
        (t = r \/
         In t (candidates formatter (mkCivil y m d h mi) 20
                          (r - dayMs) (r + dayMs)) /\
         tzFields (formatter t) = mkCivil y m d h mi)).
  { intros date H.
    destruct (DateTimeFormat tz) as [formatter|] eqn:Hf.
    2: { unfold createDateInTimezone in H. rewrite Hf in H.
         discriminate. }
    destruct (Date_UTC y m d h mi 0) as [r|] eqn:Hr.
    2: { unfold createDateInTimezone in H. rewrite Hf, Hr in H.
         discriminate. }
    rewrite (createDateInTimezone_unfold _ _ _ _ _ _ _ _ Hf Hr) in H.
    exists formatter, r.
    destruct (search_result _ _ _ _ _ _ _ H) as [->|(t & -> & Hin & Ht)].
    - exists r. unfold dayMs. repeat split; auto; lia.
    - exists t. repeat split; auto.
      + now apply (candidates_in_window _ _ _ _ _ _
                     (window_wide_enough r) Hin).
      + now apply (candidates_in_window _ _ _ _ _ _
                     (window_wide_enough r) Hin).
      + right. split; [exact Hin|]. now apply sameFields_eq. }
  split; [exact Part1|].
  intros formatter r Hf Hr Hlo Hhi.
  destruct (search_total formatter (mkCivil y m d h mi) 20 _ _ (DateAt r)
              (window_wide_enough r) Hlo Hhi) as [date Hd].
  rewrite <- (createDateInTimezone_unfold _ _ _ _ _ _ _ _ Hf Hr) in Hd.
  destruct (Part1 date Hd) as (f' & r' & t & _ & Hr' & -> & Hw & _).
  exists t. split; [exact Hd|]. congruence.
Qed.

Lemma no_match_returns_seed (y m d h mi r : Z) (tz : string)
      (formatter : Formatter) :
  DateTimeFormat tz = Some formatter ->
  Date_UTC y m d h mi 0 = Some r ->
  - maxTimeValue <= r - dayMs -> r + dayMs <= maxTimeValue ->
  (forall t, In t (candidates formatter (mkCivil y m d h mi) 20
                              (r - dayMs) (r + dayMs)) ->
             tzFields (formatter t) <> mkCivil y m d h mi) ->
  createDateInTimezone DateTimeFormat y m d h mi tz = Js.Normal (DateAt r).
Proof.
  intros Hf Hr Hlo Hhi Hno.
  rewrite (createDateInTimezone_unfold _ _ _ _ _ _ _ _ Hf Hr).
  apply search_no_match; auto using window_wide_enough.
  intros t Hin. specialize (Hno t Hin).
  destruct (sameFields _ _) eqn:E; [|reflexivity].
  apply sameFields_eq in E. contradiction.
Qed.

(** C4, as amended.  [createDateInTimezone] does not validate the
    civil fields: with a formatter that prints well-formed fields
    only, malformed fields are resolved to the rolled-over instant
    [Date.UTC(year, month, day, hour, minute)]. *)
Theorem malformed_fields_roll_over (y m d h mi r : Z) (tz : string)
        (formatter : Formatter) :
  DateTimeFormat tz = Some formatter -> wellFormed formatter ->
  ~ validCivil (mkCivil y m d h mi) ->
  Date_UTC y m d h mi 0 = Some r ->
  - maxTimeValue <= r - dayMs -> r + dayMs <= maxTimeValue ->
  createDateInTimezone DateTimeFormat y m d h mi tz = Js.Normal (DateAt r).
Proof.
  intros Hf Hwf Hbad Hr Hlo Hhi.
  apply (no_match_returns_seed _ _ _ _ _ _ _ _ Hf Hr Hlo Hhi).
  intros t _ E. apply Hbad. rewrite <- E. apply Hwf.
Qed.

Lemma Date_UTC_wallClock (y m d h mi : Z) :
  ~ (0 <= y <= 99) ->
  - maxTimeValue <= wallClock (mkCivil y m d h mi) <= maxTimeValue ->
  Date_UTC y m d h mi 0 = Some (wallClock (mkCivil y m d h mi)).
Proof.
  intros Hy Hr. unfold Date_UTC, MakeFullYear.
  replace ((0 <=? y) && (y <=? 99)) with false
    by (destruct (Z.leb_spec 0 y), (Z.leb_spec y 99); simpl;
        try reflexivity; exfalso; lia).
  apply TimeClip_Some. split; [reflexivity | exact Hr].
Qed.

(** The round trip where it does hold: a well-formed civil time
    whose year is not in 0..99, in a zone whose offset is constant
    within 24 hours of the seed, resolves to an instant that formats
    back to the same five fields. *)
Theorem roundtrip_constant_offset (y m d h mi : Z) (tz : string)
        (offset : Z -> Z) (off : Z) :
  let c := mkCivil y m d h mi in
  DateTimeFormat tz = Some (formatWithOffset offset) ->
  validCivil c -> ~ (0 <= y <= 99) ->
  (forall t, wallClock c - dayMs <= t <= wallClock c + dayMs ->
             offset t = off) ->
  59999 - dayMs <= off <= dayMs ->
  - maxTimeValue <= wallClock c - dayMs ->
  wallClock c + dayMs <= maxTimeValue ->
  exists t,
    createDateInTimezone DateTimeFormat y m d h mi tz = Js.Normal (DateAt t)
    /\ instantToCivil DateTimeFormat (DateAt t) tz = Js.Normal c.
Proof.
  intros c Hf Hc Hy Hoff Hrange Hlo Hhi.
  assert (Hr : Date_UTC y m d h mi 0 = Some (wallClock c))
    by (apply Date_UTC_wallClock;
        [exact Hy | fold c; unfold dayMs in *; lia]).
  rewrite (createDateInTimezone_unfold _ _ _ _ _ _ _ _ Hf Hr).
  destruct (search_finds offset off c (wallClock c - dayMs)
              (wallClock c + dayMs) Hc Hoff Hlo Hhi 20
              (wallClock c - dayMs) (wallClock c + dayMs)
              (DateAt (wallClock c)))
    as (t & Ht & Hwin & Hmin).
  - lia.
  - lia.
  - lia.
  - lia.
  - change (2 ^ Z.of_nat 20) with 1048576. unfold dayMs. lia.
  - exists t. split; [exact Ht|].
    unfold instantToCivil. rewrite Hf. f_equal.
    apply (probe_match offset off c _ _ Hc Hoff t Hwin Hmin).
Qed.

End WithFormat.

(** C3.  The loop does not keep the closest candidate: [bestDate] is
    assigned on an exact match only.  For 02:30 on 10 March 2024 in
    New York, a time in the spring-forward gap, the call returns the
    seed 2024-03-10T02:30:00Z, where the clocks of New York show 21:30
    of the day before, 300 minutes from the requested wall-clock time,
    although the search tested 2024-03-10T07:00:00Z, the instant of
    the transition, where they show 03:00, 30 minutes from it.  The
    result is not the closest candidate tested. *)
Theorem gap_returns_seed_not_closest_candidate :
  Date_UTC 2024 2 10 2 30 0 = Some gapSeed
  /\ createDateInTimezone sampleZones 2024 2 10 2 30 "America/New_York"
     = Js.Normal (DateAt gapSeed)
  /\ tzFields (newYork gapSeed) = mkCivil 2024 2 9 21 30
  /\ wallDistance newYork gapCivil gapSeed = 300 * msPerMinute
  /\ In 1710054000000
        (candidates newYork gapCivil 20 (gapSeed - dayMs) (gapSeed + dayMs))
  /\ tzFields (newYork 1710054000000) = mkCivil 2024 2 10 3 0
  /\ wallDistance newYork gapCivil 1710054000000 = 30 * msPerMinute
  /\ ~ (forall r t,
          createDateInTimezone sampleZones 2024 2 10 2 30 "America/New_York"
          = Js.Normal (DateAt r) ->
          In t (candidates newYork gapCivil 20
                           (gapSeed - dayMs) (gapSeed + dayMs)) ->
          wallDistance newYork gapCivil r <= wallDistance newYork gapCivil t).
Proof.
  assert (Hin : In 1710054000000
                   (candidates newYork gapCivil 20
                               (gapSeed - dayMs) (gapSeed + dayMs))).
  { vm_compute. tauto. }
  repeat (split; [vm_compute; reflexivity|]).
  split; [exact Hin|].
  repeat (split; [vm_compute; reflexivity|]).
  intros H.
  specialize (H gapSeed 1710054000000 ltac:(vm_compute; reflexivity) Hin).
  clear Hin. vm_compute in H. apply H. reflexivity.
Qed.

(** C4, as stated, fails: month 12 is not rejected; the call returns
    2025-01-01T00:00:00Z. *)
Lemma month_12_is_not_rejected :
  ~ validCivil (mkCivil 2024 12 1 0 0)
  /\ createDateInTimezone sampleZones 2024 12 1 0 0 "UTC"
     = Js.Normal (DateAt 1735689600000)
  /\ instantToCivil sampleZones (DateAt 1735689600000) "UTC"
     = Js.Normal (mkCivil 2025 0 1 0 0)
  /\ forall e, createDateInTimezone sampleZones 2024 12 1 0 0 "UTC"
               <> Js.Throw e.
Proof.
  split; [|split; [|split]].
  - unfold validCivil. vm_compute. intuition discriminate.
  - vm_compute. reflexivity.
  - vm_compute. reflexivity.
  - intros e. vm_compute. discriminate.
Qed.

(** The round trip at 10:00 on 15 January 2024 in New York, five hours
    behind UTC throughout the window. *)
Example roundtrip_new_york_winter :
  exists t,
    createDateInTimezone sampleZones 2024 0 15 10 0 "America/New_York"
    = Js.Normal (DateAt t)
    /\ instantToCivil sampleZones (DateAt t) "America/New_York"
       = Js.Normal (mkCivil 2024 0 15 10 0).
Proof.
  assert (W : wallClock (mkCivil 2024 0 15 10 0) = 1705312800000)
    by (vm_compute; reflexivity).
  apply (roundtrip_constant_offset sampleZones 2024 0 15 10 0
           "America/New_York" newYorkOffset (-5 * msPerHour)).
  - reflexivity.
  - unfold validCivil. vm_compute. intuition discriminate.
  - lia.
  - intros t. rewrite W. unfold dayMs, newYorkOffset. intros Ht.
    destruct (Z.leb_spec 1710054000000 t); [lia|reflexivity].
  - unfold dayMs, msPerHour. lia.
  - rewrite W. unfold maxTimeValue, dayMs. lia.
  - rewrite W. unfold maxTimeValue, dayMs. lia.
Qed.

(** A resolved instant need not fall on a whole minute: 10:00 on
    15 January 2024 in New York resolves to 15:00:56.250Z. *)
Example resolved_instant_within_the_minute :
  createDateInTimezone sampleZones 2024 0 15 10 0 "America/New_York"
  = Js.Normal (DateAt 1705330856250)
  /\ second (newYork 1705330856250) = 56
  /\ tzFields (newYork 1705330856250) = mkCivil 2024 0 15 10 0.
Proof. repeat split; vm_compute; reflexivity. Qed.

(** C1 fails for the years 0 to 99, which [Date.UTC] reads as 1900 to
    1999: 1 January 50, 00:00, exists in UTC, yet it resolves to
    1950-01-01T00:00:00Z, whose civil year is 1950. *)
Theorem roundtrip_fails_for_year_50 :
  validCivil (mkCivil 50 0 1 0 0)
  /\ instantToCivil sampleZones (DateAt (-60589296000000)) "UTC"
     = Js.Normal (mkCivil 50 0 1 0 0)
  /\ createDateInTimezone sampleZones 50 0 1 0 0 "UTC"
     = Js.Normal (DateAt (-631152000000))
  /\ instantToCivil sampleZones (DateAt (-631152000000)) "UTC"
     = Js.Normal (mkCivil 1950 0 1 0 0)
  /\ instantToCivil sampleZones (DateAt (-631152000000)) "UTC"
     <> Js.Normal (mkCivil 50 0 1 0 0).
Proof.
  split; [|split; [|split; [|split]]]; try (vm_compute; reflexivity).
  - unfold validCivil. vm_compute. intuition discriminate.
  - vm_compute. discriminate.
Qed.

(** ** The theorems at concrete inputs *)

Lemma result_within_window_witness :
  let r := 1705312800000 in
  (Date_UTC 2024 0 15 10 0 0 = Some r /\
   exists t, createDateInTimezone sampleZones 2024 0 15 10 0
                                  "America/New_York"
             = Js.Normal (DateAt t) /\
             r - dayMs <= t <= r + dayMs)
  /\ (createDateInTimezone sampleZones 2024 0 15 10 0 "America/New_York"
      = Js.Normal (DateAt 1705330856250) /\
      r - dayMs <= 1705330856250 <= r + dayMs).
Proof.
  intros r. split.
  - split; [vm_compute; reflexivity|].
    apply (proj2 (result_within_window sampleZones 2024 0 15 10 0
                    "America/New_York") newYork r).
    + reflexivity.
    + vm_compute; reflexivity.
    + unfold r, maxTimeValue, dayMs. lia.
    + unfold r, maxTimeValue, dayMs. lia.
  - assert (E : createDateInTimezone sampleZones 2024 0 15 10 0
                                     "America/New_York"
                = Js.Normal (DateAt 1705330856250))
      by (vm_compute; reflexivity).
    split; [exact E|].
    destruct (proj1 (result_within_window sampleZones 2024 0 15 10 0
                       "America/New_York") _ E)
      as (f & r' & t & _ & Hr & Ht & Hw & _).
    injection Ht as <-.
    assert (Hr' : Date_UTC 2024 0 15 10 0 0 = Some r)
      by (vm_compute; reflexivity).
    rewrite Hr' in Hr. injection Hr as <-. exact Hw.
Defined.

Lemma malformed_fields_roll_over_witness :
  ~ validCivil (mkCivil 2024 1 30 10 0) /\
  Date_UTC 2024 1 30 10 0 0 = Some 1709287200000 /\
  createDateInTimezone sampleZones 2024 1 30 10 0 "UTC"
  = Js.Normal (DateAt 1709287200000).
Proof.
  assert (H : ~ validCivil (mkCivil 2024 1 30 10 0)).
  { unfold validCivil. vm_compute. intuition discriminate. }
  split; [exact H|]. split; [vm_compute; reflexivity|].
  apply (malformed_fields_roll_over sampleZones 2024 1 30 10 0
           1709287200000 "UTC"%string (formatWithOffset utcOffset)).
  - reflexivity.
  - apply formatWithOffset_wellFormed.
  - exact H.
  - vm_compute; reflexivity.
  - unfold maxTimeValue, dayMs. lia.
  - unfold maxTimeValue, dayMs. lia.
Defined.

End Resolver.

(* ===================================================================== *)
(** * The date utilities *)
(* ===================================================================== *)

Module DateUtilsFacts.
Import Ecma EcmaExtra DateTs DateUtils TimezoneTs Rules.
Import EcmaFacts ConstraintsFacts TimezoneFacts.

Lemma isSameDay_DateAt (t u : Z) :
  isSameDay (DateAt t) (DateAt u)
  = (YearFromTime t =? YearFromTime u) &&
    (MonthFromTime t =? MonthFromTime u) &&
    (DateFromTime t =? DateFromTime u).
Proof.
  unfold isSameDay, getUTCFullYear, getUTCMonth, getUTCDate, dateField.
  now rewrite !JsFacts.seq_ofZ.
Qed.

Lemma isSameDay_Invalid_r (d : Date) : isSameDay d InvalidDate = false.
Proof.
  unfold isSameDay, getUTCFullYear, getUTCMonth, getUTCDate, dateField.
  now rewrite JsFacts.seq_NaN_r.
Qed.

Lemma isSameDay_same_Day (t u : Z) :
  Day t = Day u -> isSameDay (DateAt t) (DateAt u) = true.
Proof.
  intros H. rewrite isSameDay_DateAt.
  rewrite (YearFromTime_Day _ _ H), (MonthFromTime_Day _ _ H),
    (DateFromTime_Day _ _ H).
  now rewrite !Z.eqb_refl.
Qed.

Lemma isSameDay_gives_Day (t u : Z) :
  isSameDay (DateAt t) (DateAt u) = true -> Day t = Day u.
Proof.
  rewrite isSameDay_DateAt, !andb_true_iff, !Z.eqb_eq.
  intros [[HY HM] HD].
  rewrite (Day_from_fields t), (Day_from_fields u).
  unfold InLeapYear. now rewrite HY, HM, HD.
Qed.

(** X1.  [isSameDay] compares UTC day numbers: two valid dates are the same
    day exactly when they lie in the same 24-hour UTC day, whatever
    their times; an invalid date is the same day as no date, itself
    included. *)
Theorem isSameDay_iff_same_day_number (d1 d2 : Date) :
  isSameDay d1 d2 = true <->
  exists t u, d1 = DateAt t /\ d2 = DateAt u /\ Day t = Day u.
Proof.
  destruct d1 as [|t], d2 as [|u].
  - split; [discriminate | now intros (t & u & [=] & _)].
  - split; [discriminate | now intros (t & u' & [=] & _)].
  - rewrite isSameDay_Invalid_r.
    split; [discriminate | now intros (t' & u & _ & [=] & _)].
  - split.
    + intros H. exists t, u. repeat split. now apply isSameDay_gives_Day.
    + intros (t' & u' & [= <-] & [= <-] & H). now apply isSameDay_same_Day.
Qed.

Lemma endOfDay_wf (t : Z) :
  - maxTimeValue <= t < maxTimeValue ->
  endOfDay (DateAt t) = DateAt (Day t * msPerDay + (msPerDay - 1)).
Proof.
  intros H. unfold endOfDay, setUTCHours, MakeDate, MakeTime.
  replace (23 * msPerHour + 59 * msPerMinute + 59 * msPerSecond + 999)
    with (msPerDay - 1) by reflexivity.
  apply newDate_in_range.
  pose proof (Day_bounds t).
  assert (Day (- maxTimeValue) <= Day t) by (apply Day_mono; lia).
  assert (Day t <= Day (maxTimeValue - 1)) by (apply Day_mono; lia).
  change (Day (- maxTimeValue)) with (-100000000) in *.
  change (Day (maxTimeValue - 1)) with 99999999 in *.
  unfold maxTimeValue, msPerDay in *. lia.
Qed.

(** X2.  [startOfDay] and [endOfDay] give the first and the last millisecond
    of the UTC day of a date: they bracket it, lie on its day, and are
    86399999 ms apart. *)
Theorem startOfDay_endOfDay_bracket (t : Z) :
  - maxTimeValue <= t < maxTimeValue ->
  exists a b,
    startOfDay (DateAt t) = DateAt a /\ endOfDay (DateAt t) = DateAt b /\
    a <= t <= b /\ a mod msPerDay = 0 /\ b - a = msPerDay - 1 /\
    isSameDay (DateAt a) (DateAt t) = true /\
    isSameDay (DateAt b) (DateAt t) = true /\
    isDateBetween (DateAt t) (DateAt a) (DateAt b) = true /\
    startOfDay (DateAt a) = DateAt a /\ endOfDay (DateAt b) = DateAt b.
Proof.
  intros H.
  assert (H' : - maxTimeValue <= t <= maxTimeValue) by lia.
  destruct (RuleFacts.startOfDay_wf t H') as [Ea Ra].
  pose proof (endOfDay_wf t H) as Eb.
  pose proof (Day_bounds t) as B.
  set (a := Day t * msPerDay) in *. set (b := a + (msPerDay - 1)) in *.
  assert (Da : Day a = Day t) by (unfold a; apply Day_mul).
  assert (Db : Day b = Day t).
  { unfold Day at 1. symmetry.
    apply (Z.div_unique_pos b msPerDay (Day t) (msPerDay - 1));
      unfold b, a, msPerDay; lia. }
  assert (Rb : - maxTimeValue <= b < maxTimeValue).
  { pose proof (endOfDay_wf t H) as E. unfold endOfDay, setUTCHours in E.
    apply newDate_DateAt in E. destruct E as [_ E].
    unfold MakeDate, MakeTime in E.
    replace (23 * msPerHour + 59 * msPerMinute + 59 * msPerSecond + 999)
      with (msPerDay - 1) in E by reflexivity.
    fold a in E. fold b in E.
    assert (b <> maxTimeValue); [|lia].
    intros Hb. assert (Hm : b mod msPerDay = 0)
      by (rewrite Hb; reflexivity).
    unfold b, a, msPerDay in Hm. revert Hm.
    rewrite Z.add_comm, Z.mod_add by lia. discriminate. }
  exists a, b. repeat split; try lia.
  - exact Ea.
  - exact Eb.
  - unfold a. apply Z.mod_mul. unfold msPerDay. lia.
  - now apply isSameDay_same_Day.
  - now apply isSameDay_same_Day.
  - unfold isDateBetween, getTime.
    rewrite JsFacts.ge_ofZ, JsFacts.le_ofZ.
    apply andb_true_iff. split; apply Z.leb_le; lia.
  - destruct (RuleFacts.startOfDay_wf a Ra) as [E _]. rewrite E.
    now rewrite Da.
  - rewrite (endOfDay_wf b Rb). rewrite Db. reflexivity.
Qed.

(** X3.  [addDays] moves a date by whole days and keeps its time of day;
    the result is an invalid date exactly when it leaves the range of
    time values; moving by [j] then by [k] days is moving by [j + k]. *)
Theorem addDays_shift (t k : Z) :
  (- maxTimeValue <= t + k * msPerDay <= maxTimeValue ->
   addDays (DateAt t) k = DateAt (t + k * msPerDay) /\
   Day (t + k * msPerDay) = Day t + k /\
   TimeWithinDay (t + k * msPerDay) = TimeWithinDay t)
  /\ (maxTimeValue < Z.abs (t + k * msPerDay) ->
      addDays (DateAt t) k = InvalidDate)
  /\ (forall j, - maxTimeValue <= t + j * msPerDay <= maxTimeValue ->
                addDays (addDays (DateAt t) j) k = addDays (DateAt t) (j + k)).
Proof.
  unfold addDays. rewrite addUTCDate_DateAt. repeat split.
  - now apply newDate_in_range.
  - unfold Day, msPerDay. rewrite Z.div_add by lia. reflexivity.
  - unfold TimeWithinDay, msPerDay. now rewrite Z.mod_add by lia.
  - apply newDate_out_of_range.
  - intros j Hj. rewrite !addUTCDate_DateAt.
    rewrite (newDate_in_range _ Hj), addUTCDate_DateAt. f_equal. lia.
Qed.

Lemma DaysInMonth_range (y m : Z) :
  0 <= m <= 11 -> 28 <= DaysInMonth y m <= 31.
Proof.
  intros Hm. unfold DaysInMonth.
  assert (M : m = 0 \/ m = 1 \/ m = 2 \/ m = 3 \/ m = 4 \/ m = 5 \/ m = 6 \/
              m = 7 \/ m = 8 \/ m = 9 \/ m = 10 \/ m = 11) by lia.
  destruct (isLeap y);
    repeat destruct M as [->|M]; try subst m; month_starts; lia.
Qed.

(** The day number that [MakeDay] gives to the day before the first of
    the next month is the last day of the month. *)
Lemma MakeDay_day_zero (y m : Z) :
  0 <= m <= 11 ->
  MakeDay y (m + 1) 0
  = DayFromYear y + monthStart (if isLeap y then 1 else 0) m
    + DaysInMonth y m - 1.
Proof.
  intros Hm. unfold MakeDay, DaysInMonth.
  destruct (Z.eq_dec m 11) as [->|Hne].
  - change ((11 + 1) / 12) with 1. change ((11 + 1) mod 12) with 0.
    rewrite DayFromYear_succ. unfold DaysInYear.
    destruct (isLeap y), (isLeap (y + 1)); month_starts; lia.
  - rewrite Z.div_small, Z.mod_small by lia. rewrite !Z.add_0_r. lia.
Qed.

Lemma fields_of_day (y m d tod : Z) :
  validCivil (mkCivil y m d 0 0) -> 0 <= tod < msPerDay ->
  let t := (DayFromYear y + monthStart (if isLeap y then 1 else 0) m + d - 1)
           * msPerDay + tod in
  YearFromTime t = y /\ MonthFromTime t = m /\ DateFromTime t = d.
Proof.
  intros Hc Htod t.
  assert (Hm : 0 <= m <= 11) by apply Hc.
  pose proof (fieldsAt_wallClock (mkCivil y m d 0 0) 0 Hc
                ltac:(unfold msPerMinute; lia)) as F.
  rewrite Z.add_0_r, (wallClock_decompose (mkCivil y m d 0 0) Hm) in F.
  cbn [cYear cMonth cDay cHour cMinute mkCivil] in F.
  rewrite !Z.mul_0_l, !Z.add_0_r in F.
  set (n := DayFromYear y + monthStart (if isLeap y then 1 else 0) m + d - 1)
    in *.
  assert (HD : Day t = Day (n * msPerDay)).
  { rewrite Day_mul. unfold Day at 1. symmetry.
    apply (Z.div_unique_pos t msPerDay n tod); unfold t; lia. }
  unfold fieldsAt, mkCivil in F. injection F as FY FM FD _ _.
  now rewrite (YearFromTime_Day _ _ HD), (MonthFromTime_Day _ _ HD),
    (DateFromTime_Day _ _ HD).
Qed.

(** X4.  [getDaysInMonth] is the length of the month in the proleptic
    Gregorian calendar, between 28 and 31 days, of the year as
    [Date.UTC] reads it (1900 + y for y in 0..99); outside the range of
    time values it is [NaN]. *)
Theorem getDaysInMonth_length (y m : Z) :
  0 <= m <= 11 ->
  (Date_UTC y (m + 1) 0 0 0 0 <> None ->
   getDaysInMonth y m = Js.ofZ (DaysInMonth (MakeFullYear y) m) /\
   28 <= DaysInMonth (MakeFullYear y) m <= 31)
  /\ (Date_UTC y (m + 1) 0 0 0 0 = None -> getDaysInMonth y m = Js.NaN).
Proof.
  intros Hm. unfold getDaysInMonth. split.
  - destruct (Date_UTC y (m + 1) 0 0 0 0) as [r|] eqn:E; [|congruence].
    intros _. split; [|now apply DaysInMonth_range].
    destruct (Date_UTC_newDate _ _ _ _ _ _ E) as [N _].
    rewrite E in N. rewrite N. clear N.
    unfold Date_UTC in E. apply TimeClip_Some in E. destruct E as [-> _].
    unfold getUTCDate, dateField. f_equal.
    rewrite (MakeDay_day_zero _ _ Hm).
    unfold MakeDate, MakeTime. simpl (0 * _). rewrite !Z.add_0_r.
    pose proof (DaysInMonth_range (MakeFullYear y) m Hm) as R.
    destruct (fields_of_day (MakeFullYear y) m
                (DaysInMonth (MakeFullYear y) m) 0) as (_ & _ & HD).
    + unfold validCivil, mkCivil. cbn [cYear cMonth cDay cHour cMinute]. lia.
    + unfold msPerDay. lia.
    + rewrite Z.add_0_r in HD. exact HD.
  - intros ->. reflexivity.
Qed.

Lemma nextMonth_day (y m d : Z) :
  0 <= m <= 11 ->
  let y' := if m =? 11 then y + 1 else y in
  let m' := if m =? 11 then 0 else m + 1 in
  DayFromYear y + monthStart (if isLeap y then 1 else 0) m + d - 1
  = DayFromYear y' + monthStart (if isLeap y' then 1 else 0) m'
    + (d - DaysInMonth y m) - 1.
Proof.
  intros Hm y' m'. unfold y', m', DaysInMonth.
  destruct (Z.eqb_spec m 11) as [->|Hne].
  - rewrite DayFromYear_succ. unfold DaysInYear.
    destruct (isLeap y), (isLeap (y + 1)); month_starts; lia.
  - lia.
Qed.

Lemma month_overflow_fields (y1 m1 d tod : Z) :
  0 <= m1 <= 11 -> 1 <= d <= 31 -> 0 <= tod < msPerDay ->
  let t' := (DayFromYear y1 + monthStart (if isLeap y1 then 1 else 0) m1
             + d - 1) * msPerDay + tod in
  TimeWithinDay t' = tod /\
  (d <= DaysInMonth y1 m1 ->
   YearFromTime t' = y1 /\ MonthFromTime t' = m1 /\ DateFromTime t' = d) /\
  (DaysInMonth y1 m1 < d ->
   YearFromTime t' = (if m1 =? 11 then y1 + 1 else y1) /\
   MonthFromTime t' = (if m1 =? 11 then 0 else m1 + 1) /\
   DateFromTime t' = d - DaysInMonth y1 m1).
Proof.
  intros Hm1 Hd31 Htod t'.
  pose proof (DaysInMonth_range y1 m1 Hm1) as R1.
  split; [|split].
  - unfold t', TimeWithinDay, msPerDay in *.
    rewrite Z.add_comm, Z.mod_add by lia. now apply Z.mod_small.
  - intros Hle. apply (fields_of_day y1 m1 d tod); [|exact Htod].
    unfold validCivil, mkCivil. cbn [cYear cMonth cDay cHour cMinute]. lia.
  - intros Hgt. unfold t'. rewrite (nextMonth_day y1 m1 d Hm1). cbv zeta.
    apply (fields_of_day (if m1 =? 11 then y1 + 1 else y1)
             (if m1 =? 11 then 0 else m1 + 1) (d - DaysInMonth y1 m1) tod);
      [|exact Htod].
    assert (Hm2 : 0 <= (if m1 =? 11 then 0 else m1 + 1) <= 11)
      by (destruct (Z.eqb_spec m1 11); lia).
    pose proof (DaysInMonth_range (if m1 =? 11 then y1 + 1 else y1) _ Hm2).
    unfold validCivil, mkCivil. cbn [cYear cMonth cDay cHour cMinute]. lia.
Qed.

Lemma setUTCMonth_DateAt (t k : Z) :
  setUTCMonth (DateAt t) k
  = newDate ((DayFromYear (YearFromTime t + k / 12)
              + monthStart (if isLeap (YearFromTime t + k / 12) then 1 else 0)
                           (k mod 12)
              + DateFromTime t - 1) * msPerDay + TimeWithinDay t).
Proof. reflexivity. Qed.

Lemma addMonths_DateAt (t n : Z) :
  addMonths (DateAt t) n = setUTCMonth (DateAt t) (MonthFromTime t + n).
Proof. reflexivity. Qed.

Lemma DateFromTime_le_31 (t : Z) : 1 <= DateFromTime t <= 31.
Proof.
  pose proof (DateFromTime_range t) as Hd.
  pose proof (DaysInMonth_range (YearFromTime t) (MonthFromTime t)
                (MonthFromTime_range t)) as R.
  unfold DaysInMonth in R. unfold InLeapYear in Hd. lia.
Qed.

(** X5.  [addMonths] by [n] months: with [y], [m], [d] the UTC year, month
    and date of the date, the target month is month [(m + n) mod 12] of
    year [y + (m + n) / 12].  When the target month has a day [d] the
    result is that day, at the same time of day; when it is shorter
    the result overflows into the month after it, on day
    [d - length]. *)
Theorem addMonths_fields (t n t' : Z) :
  let y := YearFromTime t in
  let m := MonthFromTime t in
  let d := DateFromTime t in
  let y1 := y + (m + n) / 12 in
  let m1 := (m + n) mod 12 in
  addMonths (DateAt t) n = DateAt t' ->
  TimeWithinDay t' = TimeWithinDay t /\
  (d <= DaysInMonth y1 m1 ->
   YearFromTime t' = y1 /\ MonthFromTime t' = m1 /\ DateFromTime t' = d) /\
  (DaysInMonth y1 m1 < d ->
   YearFromTime t' = (if m1 =? 11 then y1 + 1 else y1) /\
   MonthFromTime t' = (if m1 =? 11 then 0 else m1 + 1) /\
   DateFromTime t' = d - DaysInMonth y1 m1).
Proof.
  intros y m d y1 m1 H.
  rewrite addMonths_DateAt, setUTCMonth_DateAt in H.
  apply newDate_DateAt in H. destruct H as [-> _].
  assert (Hm1 : 0 <= m1 <= 11)
    by (unfold m1; pose proof (Z.mod_pos_bound (m + n) 12); lia).
  assert (Htod : 0 <= TimeWithinDay t < msPerDay)
    by (unfold TimeWithinDay, msPerDay; apply Z.mod_pos_bound; lia).
  exact (month_overflow_fields y1 m1 d (TimeWithinDay t) Hm1
           (DateFromTime_le_31 t) Htod).
Qed.

Lemma addMonths_witness_data :
  addMonths (DateAt 1706659200000) 1 = DateAt 1709337600000.
Proof. vm_compute. reflexivity. Qed.

(** 31 January 2024 plus one month is 2 March 2024. *)
Lemma addMonths_fields_witness :
  addMonths (DateAt 1706659200000) 1 = DateAt 1709337600000 /\
  YearFromTime 1709337600000 = 2024 /\ MonthFromTime 1709337600000 = 2 /\
  DateFromTime 1709337600000 = 2.
Proof.
  split; [exact addMonths_witness_data|].
  pose proof (addMonths_fields 1706659200000 1 1709337600000
                addMonths_witness_data) as H.
  cbv zeta in H. destruct H as (_ & _ & H).
  assert (L : DaysInMonth
                (YearFromTime 1706659200000
                 + (MonthFromTime 1706659200000 + 1) / 12)
                ((MonthFromTime 1706659200000 + 1) mod 12)
              < DateFromTime 1706659200000)
    by (vm_compute; reflexivity).
  destruct (H L) as (HY & HM & HD).
  split; [|split].
  - rewrite HY. vm_compute. reflexivity.
  - rewrite HM. vm_compute. reflexivity.
  - rewrite HD. vm_compute. reflexivity.
Defined.

Lemma getDaysInMonth_length_witness :
  Date_UTC 2024 (1 + 1) 0 0 0 0 <> None /\
  getDaysInMonth 2024 1 = Js.ofZ 29.
Proof.
  assert (H : Date_UTC 2024 (1 + 1) 0 0 0 0 <> None)
    by (vm_compute; discriminate).
  split; [exact H|].
  destruct (proj1 (getDaysInMonth_length 2024 1 ltac:(lia)) H) as [E _].
  rewrite E. vm_compute. reflexivity.
Defined.

Lemma startOfDay_endOfDay_bracket_witness :
  exists a b,
    startOfDay (DateAt 1710496800000) = DateAt a /\
    endOfDay (DateAt 1710496800000) = DateAt b /\
    a <= 1710496800000 <= b.
Proof.
  destruct (startOfDay_endOfDay_bracket 1710496800000)
    as (a & b & Ha & Hb & Hab & _).
  - unfold maxTimeValue. lia.
  - now exists a, b.
Defined.

Lemma addDays_shift_witness :
  addDays (DateAt 1710496800000) 7 = DateAt (1710496800000 + 7 * msPerDay).
Proof.
  apply (proj1 (addDays_shift 1710496800000 7)).
  unfold maxTimeValue, msPerDay. lia.
Defined.

Lemma isSameDay_iff_same_day_number_witness :
  isSameDay (DateAt 1710496800000) (DateAt 1710511200000) = true.
Proof.
  apply (proj2 (isSameDay_iff_same_day_number _ _)).
  exists 1710496800000, 1710511200000. repeat split.
Defined.

(** ** [formatTime] and [parseTime] *)

Lemma digitValue_digitChar (d : Z) :
  0 <= d <= 9 -> digitValue (digitChar d) = Some d.
Proof.
  intros H.
  assert (D : d = 0 \/ d = 1 \/ d = 2 \/ d = 3 \/ d = 4 \/ d = 5 \/ d = 6 \/
              d = 7 \/ d = 8 \/ d = 9) by lia.
  repeat destruct D as [->|D]; try subst d; reflexivity.
Qed.

(** Parsing the digits written in front of [acc] shifts the value read
    so far by a power of ten. *)
Lemma toDigits_parse (fuel : nat) :
  forall n acc, 0 <= n < 2 ^ Z.of_nat fuel ->
    exists p, 0 < p /\
      forall a, digitsValue a (toDigits fuel n acc)
                = digitsValue (a * p + n) acc.
Proof.
  induction fuel as [|fuel IH]; intros n acc Hn.
  - simpl in Hn. exists 1. split; [lia|]. intros a. simpl.
    f_equal. lia.
  - rewrite Nat2Z.inj_succ, Z.pow_succ_r in Hn by lia.
    cbn [toDigits]. destruct (Z.ltb_spec n 10) as [Hlt|Hge].
    + exists 10. split; [lia|]. intros a. cbn [digitsValue].
      rewrite Z.mod_small by lia. rewrite digitValue_digitChar by lia.
      f_equal. lia.
    + destruct (IH (n / 10) (String (digitChar (n mod 10)) acc))
        as (p & Hp & Hv).
      { split; [apply Z.div_pos; lia|].
        apply Z.div_lt_upper_bound; lia. }
      exists (10 * p). split; [lia|]. intros a. rewrite Hv.
      cbn [digitsValue].
      pose proof (Z.mod_pos_bound n 10 ltac:(lia)).
      rewrite digitValue_digitChar by lia. f_equal.
      pose proof (Z.div_mod n 10 ltac:(lia)). lia.
Qed.

Lemma NumberToString_parse (n : Z) :
  0 <= n -> digitsValue 0 (NumberToString n) = Some n.
Proof.
  intros Hn. unfold NumberToString.
  destruct (Z.ltb_spec n 0) as [|_]; [lia|].
  destruct (toDigits_parse (S (Z.to_nat (Z.log2 n))) n EmptyString)
    as (p & _ & Hv).
  { split; [exact Hn|]. rewrite Nat2Z.inj_succ, Z2Nat.id
      by apply Z.log2_nonneg.
    destruct (Z.eq_dec n 0) as [->|Hne]; [reflexivity|].
    apply Z.log2_spec. lia. }
  rewrite Hv. reflexivity.
Qed.

Lemma padStart_parse (s : string) (v : Z) (len : nat) :
  digitsValue 0 s = Some v -> digitsValue 0 (padStart s len "0") = Some v.
Proof.
  intros H. unfold padStart.
  induction (len - String.length s)%nat as [|k IH]; [exact H|].
  cbn [repeatChar digitsValue]. exact IH.
Qed.

Lemma toDigits_keeps (fuel : nat) :
  forall n acc, acc <> EmptyString -> toDigits fuel n acc <> EmptyString.
Proof.
  induction fuel as [|fuel IH]; intros n acc H; cbn [toDigits]; [exact H|].
  destruct (n <? 10); [discriminate|]. apply IH. discriminate.
Qed.

Lemma toDigits_nonempty (fuel : nat) (n : Z) (acc : string) :
  toDigits (S fuel) n acc <> EmptyString.
Proof.
  cbn [toDigits]. destruct (n <? 10); [discriminate|].
  apply toDigits_keeps. discriminate.
Qed.

Lemma padStart_nonempty (s : string) (len : nat) (c : ascii) :
  s <> EmptyString -> padStart s len c <> EmptyString.
Proof.
  intros H. unfold padStart.
  destruct (len - String.length s)%nat; [exact H|discriminate].
Qed.

(** A string of digits holds no colon: [split] cuts at the colon that
    follows it. *)
Lemma split_after_digits (s rest : string) (a v : Z) :
  digitsValue a s = Some v ->
  split ":" (s ++ String ":" rest) = s :: split ":" rest.
Proof.
  revert a. induction s as [|c s IH]; intros a H; [reflexivity|].
  cbn [digitsValue] in H. destruct (digitValue c) as [d|] eqn:D;
    [|discriminate].
  cbn [append split]. destruct (Ascii.eqb_spec c ":") as [->|_];
    [discriminate D|].
  now rewrite (IH _ H).
Qed.

Lemma split_digits (s : string) (a v : Z) :
  digitsValue a s = Some v -> split ":" s = [s].
Proof.
  revert a. induction s as [|c s IH]; intros a H; [reflexivity|].
  cbn [digitsValue] in H. destruct (digitValue c) as [d|] eqn:D;
    [|discriminate].
  cbn [split]. destruct (Ascii.eqb_spec c ":") as [->|_];
    [discriminate D|].
  now rewrite (IH _ H).
Qed.

Lemma length_append (s1 s2 : string) :
  String.length (s1 ++ s2) = (String.length s1 + String.length s2)%nat.
Proof.
  induction s1 as [|c s1 IH]; [reflexivity|].
  cbn [append String.length]. now rewrite IH.
Qed.

Lemma padded_length (n : Z) :
  0 <= n <= 99 -> String.length (padStart (NumberToString n) 2 "0") = 2%nat.
Proof.
  intros H. unfold NumberToString.
  destruct (Z.ltb_spec n 0) as [|_]; [lia|].
  destruct (Z.ltb_spec n 10) as [Hlt|Hge].
  - cbn [toDigits]. destruct (Z.ltb_spec n 10); [reflexivity|lia].
  - assert (L : (3 <= Z.to_nat (Z.log2 n))%nat).
    { assert (3 <= Z.log2 n); [|lia].
      change 3 with (Z.log2 8). apply Z.log2_le_mono. lia. }
    destruct (Z.to_nat (Z.log2 n)) as [|k]; [lia|].
    cbn [toDigits]. destruct (Z.ltb_spec n 10); [lia|].
    destruct (Z.ltb_spec (n / 10) 10) as [_|Hbig]; [reflexivity|].
    exfalso. assert (n / 10 < 10) by (apply Z.div_lt_upper_bound; lia). lia.
Qed.

Section FormatParse.
Variable Number : string -> Js.number.

(** [Number] reads a non-empty string of decimal digits as its decimal
    value. *)
Hypothesis Number_digits :
  forall s v, s <> EmptyString -> digitsValue 0 s = Some v ->
              Number s = Js.ofZ v.

Lemma formatTime_parts (h m : Z) :
  0 <= h -> 0 <= m ->
  exists a b,
    formatTime h m = (a ++ String ":" b)%string /\
    a <> EmptyString /\ b <> EmptyString /\
    digitsValue 0 a = Some h /\ digitsValue 0 b = Some m.
Proof.
  intros Hh Hm.
  exists (padStart (NumberToString h) 2 "0"),
         (padStart (NumberToString m) 2 "0").
  split; [reflexivity|].
  split; [|split; [|split]].
  - apply padStart_nonempty. unfold NumberToString.
    destruct (h <? 0); [discriminate | apply toDigits_nonempty].
  - apply padStart_nonempty. unfold NumberToString.
    destruct (m <? 0); [discriminate | apply toDigits_nonempty].
  - apply padStart_parse, NumberToString_parse, Hh.
  - apply padStart_parse, NumberToString_parse, Hm.
Qed.

Lemma formatTime_length (h m : Z) :
  0 <= h <= 99 -> 0 <= m <= 99 -> String.length (formatTime h m) = 5%nat.
Proof.
  intros Hh Hm. unfold formatTime. rewrite !length_append.
  rewrite (padded_length h), (padded_length m) by lia. reflexivity.
Qed.

Lemma map_Number_formatTime (h m : Z) :
  0 <= h -> 0 <= m ->
  map Number (split ":" (formatTime h m)) = [Js.ofZ h; Js.ofZ m].
Proof.
  intros Hh Hm.
  destruct (formatTime_parts h m Hh Hm) as (a & b & -> & Na & Nb & Pa & Pb).
  rewrite (split_after_digits _ _ _ _ Pa), (split_digits _ _ _ Pb).
  cbn [map]. now rewrite (Number_digits _ _ Na Pa), (Number_digits _ _ Nb Pb).
Qed.

Lemma parseTime_formatTime_eq (h m : Z) :
  0 <= h -> 0 <= m ->
  parseTime Number (formatTime h m)
  = {| hours := Js.ofZ h; minutes := Js.ofZ m |}.
Proof.
  intros Hh Hm. unfold parseTime.
  now rewrite (map_Number_formatTime h m Hh Hm).
Qed.

(** X6.  [parseTime] undoes [formatTime] on non-negative hours and minutes,
    and [formatTime] writes exactly five characters, [HH:mm], for hours
    and minutes below 100. *)
Theorem parseTime_formatTime (h m : Z) :
  0 <= h -> 0 <= m ->
  parseTime Number (formatTime h m)
  = {| hours := Js.ofZ h; minutes := Js.ofZ m |}
  /\ (h <= 99 -> m <= 99 -> String.length (formatTime h m) = 5%nat).
Proof.
  intros Hh Hm. split.
  - now apply parseTime_formatTime_eq.
  - intros. apply formatTime_length; lia.
Qed.
End FormatParse.

Lemma NumberOfDigits_digits (s : string) (v : Z) :
  s <> EmptyString -> digitsValue 0 s = Some v ->
  NumberOfDigits s = Js.ofZ v.
Proof. intros _ H. unfold NumberOfDigits. now rewrite H. Qed.

Lemma parseTime_formatTime_witness :
  parseTime NumberOfDigits (formatTime 9 5)
  = {| hours := Js.ofZ 9; minutes := Js.ofZ 5 |}.
Proof.
  apply (proj1 (parseTime_formatTime NumberOfDigits NumberOfDigits_digits
                  9 5 ltac:(lia) ltac:(lia))).
Defined.

End DateUtilsFacts.

(* ===================================================================== *)
(** * The time picker *)
(* ===================================================================== *)

Module TimePickerFacts.
Import Ecma EcmaExtra EcmaConv DateTs DateUtils ConstraintsTs TimePickerTsx.

Lemma mathMin_ofZ (a b : Z) :
  mathMin (Js.ofZ a) (Js.ofZ b) = Js.ofZ (Z.min a b).
Proof.
  unfold mathMin. change (Js.ofZ a) with (Js.Fin (inject_Z a)).
  change (Js.ofZ b) with (Js.Fin (inject_Z b)). cbv iota beta.
  change (Js.Fin (inject_Z a)) with (Js.ofZ a).
  change (Js.Fin (inject_Z b)) with (Js.ofZ b).
  rewrite JsFacts.lt_ofZ. destruct (Z.ltb_spec b a); f_equal; lia.
Qed.

Lemma mathMax_ofZ (a b : Z) :
  mathMax (Js.ofZ a) (Js.ofZ b) = Js.ofZ (Z.max a b).
Proof.
  unfold mathMax. change (Js.ofZ a) with (Js.Fin (inject_Z a)).
  change (Js.ofZ b) with (Js.Fin (inject_Z b)). cbv iota beta.
  change (Js.Fin (inject_Z a)) with (Js.ofZ a).
  change (Js.Fin (inject_Z b)) with (Js.ofZ b).
  rewrite JsFacts.lt_ofZ. destruct (Z.ltb_spec a b); f_equal; lia.
Qed.

Lemma add_ofZ (a b : Z) : add (Js.ofZ a) (Js.ofZ b) = Js.ofZ (a + b).
Proof.
  unfold add, Js.ofZ, inject_Z, Qplus. cbn [Qnum Qden Pos.mul].
  now rewrite !Z.mul_1_r.
Qed.

Lemma sub_ofZ (a b : Z) : sub (Js.ofZ a) (Js.ofZ b) = Js.ofZ (a - b).
Proof.
  unfold sub, neg, add, Js.ofZ, inject_Z, Qplus, Qopp.
  cbn [Qnum Qden Pos.mul]. now rewrite !Z.mul_1_r.
Qed.

(** Up to [2 ^ 53] the sum and the difference of two integers are not
    changed by the rounding of [Js.add] and [Js.sub]. *)
Lemma add_exact (a b : Z) :
  Z.abs (a + b) <= 2 ^ 53 ->
  Js.seq (Js.add (Js.ofZ a) (Js.ofZ b)) (add (Js.ofZ a) (Js.ofZ b)) = true.
Proof.
  intros H. rewrite add_ofZ. cbn [Js.add Js.ofZ].
  destruct (JsFacts.toDouble_integer (inject_Z a + inject_Z b) (a + b) H)
    as (q & -> & Hq); [now rewrite inject_Z_plus|].
  cbn [Js.seq]. apply Qeq_bool_iff. rewrite Hq, inject_Z_plus. reflexivity.
Qed.

Lemma sub_exact (a b : Z) :
  Z.abs (a - b) <= 2 ^ 53 ->
  Js.seq (Js.sub (Js.ofZ a) (Js.ofZ b)) (sub (Js.ofZ a) (Js.ofZ b)) = true.
Proof.
  intros H. rewrite sub_ofZ. unfold Js.sub. cbn [Js.neg Js.add Js.ofZ].
  assert (E : (inject_Z a + - inject_Z b == inject_Z (a - b))%Q)
    by (unfold Z.sub; now rewrite inject_Z_plus, inject_Z_opp).
  destruct (JsFacts.toDouble_integer _ (a - b) H E) as (q & -> & Hq).
  cbn [Js.seq]. apply Qeq_bool_iff. now rewrite Hq.
Qed.

Lemma integral_ofZ (z : Z) : integral (Js.ofZ z) = Some z.
Proof.
  unfold integral, Js.ofZ, inject_Z. cbn [Qnum Qden].
  now rewrite Z.mod_1_r, Z.div_1_r.
Qed.

Lemma numberToString_ofZ (z : Z) :
  Z.abs z < 10 ^ 21 -> numberToString (Js.ofZ z) = Some (NumberToString z).
Proof.
  intros H. unfold numberToString.
  change (Js.ofZ z) with (Js.Fin (inject_Z z)) at 1. cbv iota beta.
  change (Js.Fin (inject_Z z)) with (Js.ofZ z).
  rewrite integral_ofZ. now destruct (Z.ltb_spec (Z.abs z) (10 ^ 21)); [|lia].
Qed.

Lemma formatTimeOf_ofZ (h m : Z) :
  Z.abs h < 10 ^ 21 -> Z.abs m < 10 ^ 21 ->
  formatTimeOf (Js.ofZ h) (Js.ofZ m) = Some (formatTime h m).
Proof.
  intros Hh Hm. unfold formatTimeOf.
  now rewrite (numberToString_ofZ h Hh), (numberToString_ofZ m Hm).
Qed.

Section Picker.
Variable Number : string -> Js.number.
Variables minTime maxTime : option string.

(** What [updateTime] stores for integers, read on integers. *)
Lemma updateTime_ofZ (h m : Z) (lo hi : option (Z * Z)) :
  boundIs Number minTime lo -> boundIs Number maxTime hi ->
  let c := (Z.max 0 (Z.min 23 h), Z.max 0 (Z.min 59 m)) in
  let f := match lo with
           | Some a => if (fst c <? fst a) ||
                          ((fst c =? fst a) && (snd c <? snd a))
                       then a else c
           | None => c
           end in
  let r := match hi with
           | Some b => if (fst b <? fst f) ||
                          ((fst f =? fst b) && (snd b <? snd f))
                       then b else f
           | None => f
           end in
  updateTime Number minTime maxTime (Js.ofZ h) (Js.ofZ m)
  = {| hours := Js.ofZ (fst r); minutes := Js.ofZ (snd r) |}.
Proof.
  intros Hlo Hhi c f r. unfold updateTime.
  rewrite !mathMin_ofZ, !mathMax_ofZ. fold (fst c) (snd c).
  change (Z.max 0 (Z.min 23 h)) with (fst c).
  change (Z.max 0 (Z.min 59 m)) with (snd c).
  assert (E1 :
    match truthy minTime with
    | Some s =>
        let min := parseTime Number s in
        if Js.lt (hours {| hours := Js.ofZ (fst c);
                           minutes := Js.ofZ (snd c) |}) (hours min) ||
           (Js.seq (hours {| hours := Js.ofZ (fst c);
                             minutes := Js.ofZ (snd c) |}) (hours min) &&
            Js.lt (minutes {| hours := Js.ofZ (fst c);
                              minutes := Js.ofZ (snd c) |}) (minutes min))
        then {| hours := hours min; minutes := minutes min |}
        else {| hours := Js.ofZ (fst c); minutes := Js.ofZ (snd c) |}
    | None => {| hours := Js.ofZ (fst c); minutes := Js.ofZ (snd c) |}
    end = {| hours := Js.ofZ (fst f); minutes := Js.ofZ (snd f) |}).
  { unfold boundIs in Hlo. unfold f.
    destruct (truthy minTime) as [s|], lo as [[ah am]|];
      try contradiction; [|reflexivity].
    cbv zeta. rewrite Hlo. cbn [hours minutes fst snd].
    rewrite !JsFacts.lt_ofZ, JsFacts.seq_ofZ.
    now destruct ((fst c <? ah) || ((fst c =? ah) && (snd c <? am))). }
  cbv zeta in E1 |- *. rewrite E1. clear E1.
  unfold boundIs in Hhi. unfold r.
  destruct (truthy maxTime) as [s|], hi as [[bh bm]|];
    try contradiction; [|reflexivity].
  rewrite Hhi. cbn [hours minutes fst snd].
  rewrite !JsFacts.gt_ofZ, JsFacts.seq_ofZ.
  now destruct ((bh <? fst f) || ((fst f =? bh) && (bm <? snd f))).
Qed.

(** X7.  [updateTime] on integers keeps the time inside the window of the
    picker.  The result is never later than [maxTime]; it is not
    earlier than [minTime] when [minTime] is not later than [maxTime];
    without bounds it is the input clamped to 0..23 and 0..59; and a
    clamped input inside the window is stored as it is. *)
Theorem updateTime_within_window (h m : Z) (lo hi : option (Z * Z)) :
  boundIs Number minTime lo -> boundIs Number maxTime hi ->
  let c := (Z.max 0 (Z.min 23 h), Z.max 0 (Z.min 59 m)) in
  exists r,
    updateTime Number minTime maxTime (Js.ofZ h) (Js.ofZ m)
    = {| hours := Js.ofZ (fst r); minutes := Js.ofZ (snd r) |} /\
    (forall b, hi = Some b -> notLater r b) /\
    (forall a, lo = Some a -> (forall b, hi = Some b -> notLater a b) ->
               notLater a r) /\
    (lo = None -> hi = None -> r = c) /\
    ((forall a, lo = Some a -> notLater a c) ->
     (forall b, hi = Some b -> notLater c b) -> r = c).
Proof.
  intros Hlo Hhi c. eexists. split; [apply (updateTime_ofZ h m lo hi Hlo Hhi)|].
  cbv zeta. fold c.
  destruct c as [ch cm]. unfold notLater.
  assert (L : forall (f : Z * Z),
             let r := match hi with
                      | Some b => if (fst b <? fst f) ||
                                     ((fst f =? fst b) && (snd b <? snd f))
                                  then b else f
                      | None => f
                      end in
             (forall b, hi = Some b ->
                        fst r < fst b \/ fst r = fst b /\ snd r <= snd b) /\
             (forall a, (fst a < fst f \/ fst a = fst f /\ snd a <= snd f) ->
                        (forall b, hi = Some b ->
                                   fst a < fst b \/
                                   fst a = fst b /\ snd a <= snd b) ->
                        fst a < fst r \/ fst a = fst r /\ snd a <= snd r) /\
             ((forall b, hi = Some b ->
                         fst f < fst b \/ fst f = fst b /\ snd f <= snd b) ->
              r = f)).
  { intros [fh fm]. destruct hi as [[bh bm]|]; cbn [fst snd].
    - destruct (Z.ltb_spec bh fh), (Z.eqb_spec fh bh), (Z.ltb_spec bm fm);
        cbn [orb andb fst snd]; repeat split;
        try (intros ? [= <-]; cbn [fst snd]; lia);
        try (intros a Ha Hb; specialize (Hb _ eq_refl); cbn [fst snd] in Hb;
             lia);
        intros Hb; specialize (Hb _ eq_refl); cbn [fst snd] in Hb;
        try reflexivity; exfalso; lia.
    - repeat split; [discriminate | tauto]. }
  destruct lo as [[ah am]|]; cbn [fst snd].
  - destruct (Z.ltb_spec ch ah), (Z.eqb_spec ch ah), (Z.ltb_spec cm am);
      cbn [orb andb];
      match goal with
      | |- context [match hi with Some _ => _ | None => ?f end] =>
          destruct (L f) as (L1 & L2 & L3)
      end; cbn [fst snd] in *;
      (split; [exact L1|]);
      (split; [intros a [= <-]; cbn [fst snd]; intros Hb;
               apply (L2 (ah, am)); cbn [fst snd]; [lia | exact Hb]|]);
      (split; [discriminate|]);
      intros Ha Hb; specialize (Ha _ eq_refl); cbn [fst snd] in Ha;
      try (exfalso; lia); apply L3; exact Hb.
  - destruct (L (ch, cm)) as (L1 & L2 & L3). cbn [fst snd] in *.
    split; [exact L1|]. split; [discriminate|]. split.
    + intros _ E. apply L3. intros b Hb. rewrite E in Hb. discriminate.
    + intros _ Hb. apply L3. exact Hb.
Qed.

Lemma updateTime_NaN_hours (m : Js.number) :
  hours (updateTime Number minTime maxTime Js.NaN m) = Js.NaN.
Proof.
  unfold updateTime. cbn [mathMin mathMax hours minutes].
  destruct (truthy minTime) as [s1|], (truthy maxTime) as [s2|];
    cbn [Js.lt Js.seq Js.gt orb andb hours minutes];
    unfold Js.gt; rewrite ?JsFacts.lt_NaN_r; reflexivity.
Qed.

(** X8.  The four step buttons never wrap and never carry.  Without bounds,
    one hour up from 23 stays at 23 and one hour down from 0 stays at
    0, a quarter of an hour up stops at 59 minutes and leaves the hour
    alone, a quarter down stops at 0. *)
Theorem step_buttons_saturate (h m : Z) :
  0 <= h <= 23 -> 0 <= m <= 59 ->
  truthy minTime = None -> truthy maxTime = None ->
  let st := {| hours := Js.ofZ h; minutes := Js.ofZ m |} in
  incrementHours Number minTime maxTime st
  = {| hours := Js.ofZ (Z.min 23 (h + 1)); minutes := Js.ofZ m |} /\
  decrementHours Number minTime maxTime st
  = {| hours := Js.ofZ (Z.max 0 (h - 1)); minutes := Js.ofZ m |} /\
  incrementMinutes Number minTime maxTime st
  = {| hours := Js.ofZ h; minutes := Js.ofZ (Z.min 59 (m + 15)) |} /\
  decrementMinutes Number minTime maxTime st
  = {| hours := Js.ofZ h; minutes := Js.ofZ (Z.max 0 (m - 15)) |}.
Proof.
  intros Hh Hm Lo Hi st.
  assert (Blo : boundIs Number minTime None)
    by (unfold boundIs; now rewrite Lo).
  assert (Bhi : boundIs Number maxTime None)
    by (unfold boundIs; now rewrite Hi).
  unfold incrementHours, decrementHours, incrementMinutes, decrementMinutes,
    st.
  cbn [hours minutes]. rewrite !add_ofZ, !sub_ofZ.
  rewrite !(fun a b => updateTime_ofZ a b None None Blo Bhi).
  cbn [fst snd]. repeat split; f_equal; f_equal; lia.
Qed.

(** X9.  Hours that are [NaN], from a value that did not parse, stay [NaN]
    under each of the four buttons, whatever the bounds: every
    comparison that could replace them is false. *)
Theorem nan_hours_are_absorbing (st : HoursMinutes) :
  hours st = Js.NaN ->
  hours (incrementHours Number minTime maxTime st) = Js.NaN /\
  hours (decrementHours Number minTime maxTime st) = Js.NaN /\
  hours (incrementMinutes Number minTime maxTime st) = Js.NaN /\
  hours (decrementMinutes Number minTime maxTime st) = Js.NaN.
Proof.
  intros H.
  unfold incrementHours, decrementHours, incrementMinutes, decrementMinutes.
  rewrite H. cbn [add sub neg]. repeat split; apply updateTime_NaN_hours.
Qed.

(** [Number] reads a non-empty string of decimal digits as its decimal
    value. *)
Hypothesis Number_digits :
  forall s v, s <> EmptyString -> digitsValue 0 s = Some v ->
              Number s = Js.ofZ v.


End Picker.

Lemma boundIs_digits (s : string) (h m : Z) :
  0 <= h -> 0 <= m -> s = formatTime h m ->
  boundIs NumberOfDigits (Some s) (Some (h, m)).
Proof.
  intros Hh Hm ->. unfold boundIs.
  destruct (DateUtilsFacts.formatTime_parts h m Hh Hm)
    as (a & b & E & Na & _).
  assert (T : truthy (Some (formatTime h m)) = Some (formatTime h m)).
  { rewrite E. destruct a; [contradiction | reflexivity]. }
  rewrite T.
  apply (DateUtilsFacts.parseTime_formatTime_eq NumberOfDigits
           DateUtilsFacts.NumberOfDigits_digits); assumption.
Qed.

Lemma updateTime_within_window_witness :
  exists r,
    updateTime NumberOfDigits (Some (formatTime 9 0)) (Some (formatTime 17 30))
               (Js.ofZ 7) (Js.ofZ 45)
    = {| hours := Js.ofZ (fst r); minutes := Js.ofZ (snd r) |} /\
    notLater (9, 0) r /\ notLater r (17, 30).
Proof.
  destruct (updateTime_within_window NumberOfDigits
              (Some (formatTime 9 0)) (Some (formatTime 17 30)) 7 45
              (Some (9, 0)) (Some (17, 30)))
    as (r & E & Hhi & Hlo & _).
  - apply boundIs_digits; [lia | lia | reflexivity].
  - apply boundIs_digits; [lia | lia | reflexivity].
  - exists r. split; [exact E|]. split.
    + apply (Hlo (9, 0) eq_refl). intros b [= <-]. left. cbn. lia.
    + apply (Hhi (17, 30) eq_refl).
Defined.

Lemma step_buttons_saturate_witness :
  incrementMinutes NumberOfDigits None None
                   {| hours := Js.ofZ 10; minutes := Js.ofZ 50 |}
  = {| hours := Js.ofZ 10; minutes := Js.ofZ (Z.min 59 (50 + 15)) |}.
Proof.
  apply (proj1 (proj2 (proj2
           (step_buttons_saturate NumberOfDigits None None 10 50
              ltac:(lia) ltac:(lia) eq_refl eq_refl)))).
Defined.

Lemma nan_hours_are_absorbing_witness :
  hours (incrementHours NumberOfDigits (Some (formatTime 9 0)) None
           {| hours := Js.NaN; minutes := Js.ofZ 0 |}) = Js.NaN.
Proof.
  apply (proj1 (nan_hours_are_absorbing NumberOfDigits
                  (Some (formatTime 9 0)) None
                  {| hours := Js.NaN; minutes := Js.ofZ 0 |} eq_refl)).
Defined.


End TimePickerFacts.

(* ===================================================================== *)
(** * The range picker *)
(* ===================================================================== *)

Module RangePickerFacts.
Import Ecma EcmaExtra EcmaConv DateTs DateUtils Types ConstraintsTs.
Import TimezoneTs Rules DateTimeRangePickerTsx.
Import EcmaFacts TimezoneFacts.

(** ** Selecting dates *)

Lemma lt_asym (a b : Js.number) : Js.lt a b = true -> Js.lt b a = false.
Proof.
  destruct a as [| |x|], b as [| |y|]; simpl; try discriminate; auto.
  rewrite <- (Qcompare_antisym x y).
  destruct (Qcompare x y); simpl; try discriminate; auto.
Qed.

Lemma seq_sym (a b : Js.number) : Js.seq a b = Js.seq b a.
Proof.
  destruct a as [| |x|], b as [| |y|]; simpl; try reflexivity.
  destruct (Qeq_bool x y) eqn:E, (Qeq_bool y x) eqn:F; try reflexivity.
  - apply Qeq_bool_iff in E. symmetry in E. apply Qeq_bool_iff in E.
    congruence.
  - apply Qeq_bool_iff in F. symmetry in F. apply Qeq_bool_iff in F.
    congruence.
Qed.

Lemma handleDateSelect_selection (st : State) (date : Date) :
  let selectionOrdered st' :=
    (exists s, selectedStartDate st' = Some s /\
               forall e, selectedEndDate st' = Some e -> date_lt e s = false)
    /\ hoverDate st' = None in
  selectionOrdered (handleDateSelect st date).
Proof.
  intros selectionOrdered. unfold handleDateSelect.
  set (view := negb (Js.seq (getUTCMonth date) (currentMonth st)) ||
               negb (Js.seq (getUTCFullYear date) (currentYear st))).
  assert (V : forall st1, selectionOrdered st1 ->
                selectionOrdered
                  (if view
                   then setCurrentYear (getUTCFullYear date)
                          (setCurrentMonth (getUTCMonth date) st1)
                   else st1)).
  { intros st1 H. now destruct view. }
  apply V. clear V view. unfold selectionOrdered.
  destruct (selectedStartDate st) as [s|] eqn:Es;
    destruct (selectedEndDate st) as [e|] eqn:Ee; cbn [isSome negb orb andb].
  - split; [|reflexivity]. exists date. split; [reflexivity|]. discriminate.
  - destruct (date_lt date s) eqn:L.
    + split; [|reflexivity]. exists date. split; [reflexivity|].
      cbn. intros e [= <-]. now apply lt_asym.
    + split; [|reflexivity]. exists s. split; [exact Es|].
      cbn. now intros e [= <-].
  - split; [|reflexivity]. exists date. split; [reflexivity|]. discriminate.
  - split; [|reflexivity]. exists date. split; [reflexivity|]. discriminate.
Qed.

Lemma handleDateSelect_view (st : State) (date : Date) (t : Z) :
  date = DateAt t ->
  Js.seq (currentMonth (handleDateSelect st date))
         (Js.ofZ (MonthFromTime t)) = true /\
  Js.seq (currentYear (handleDateSelect st date))
         (Js.ofZ (YearFromTime t)) = true.
Proof.
  intros ->. unfold handleDateSelect.
  change (getUTCMonth (DateAt t)) with (Js.ofZ (MonthFromTime t)).
  change (getUTCFullYear (DateAt t)) with (Js.ofZ (YearFromTime t)).
  set (st1 := if negb (isSome (selectedStartDate st)) || _ then _ else _).
  assert (M : currentMonth st1 = currentMonth st).
  { unfold st1. destruct (selectedStartDate st), (selectedEndDate st);
      cbn [isSome negb orb andb]; try reflexivity.
    now destruct (date_lt (DateAt t) d). }
  assert (Y : currentYear st1 = currentYear st).
  { unfold st1. destruct (selectedStartDate st), (selectedEndDate st);
      cbn [isSome negb orb andb]; try reflexivity.
    now destruct (date_lt (DateAt t) d). }
  destruct (Js.seq (Js.ofZ (MonthFromTime t)) (currentMonth st)) eqn:Em;
    destruct (Js.seq (Js.ofZ (YearFromTime t)) (currentYear st)) eqn:Ey;
    cbn [negb orb currentMonth currentYear setCurrentYear setCurrentMonth];
    rewrite ?M, ?Y, ?JsFacts.seq_ofZ, ?Z.eqb_refl; auto.
  split; rewrite seq_sym; assumption.
Qed.

Lemma handleDateSelect_keeps (st : State) (date : Date) :
  timezone (handleDateSelect st date) = timezone st /\
  startTime (handleDateSelect st date) = startTime st /\
  endTime (handleDateSelect st date) = endTime st.
Proof.
  unfold handleDateSelect.
  destruct (selectedStartDate st), (selectedEndDate st);
    cbn [isSome negb orb andb];
    try destruct (date_lt date d);
    destruct (negb (Js.seq (getUTCMonth date) (currentMonth st)) ||
              negb (Js.seq (getUTCFullYear date) (currentYear st)));
    repeat split.
Qed.

Lemma fold_handleDateSelect_keeps (ds : list Date) :
  forall st,
    timezone (fold_left handleDateSelect ds st) = timezone st /\
    startTime (fold_left handleDateSelect ds st) = startTime st /\
    endTime (fold_left handleDateSelect ds st) = endTime st.
Proof.
  induction ds as [|d ds IH]; intros st; [repeat split|].
  cbn [fold_left]. destruct (IH (handleDateSelect st d)) as (A & B & C).
  destruct (handleDateSelect_keeps st d) as (A' & B' & C').
  repeat split; congruence.
Qed.

(** X11.  After any series of clicks on dates, from any state: a start date
    is selected, an end date that is selected is not before it, nothing
    is hovered, the month and year on display are those of the date
    clicked last (when it is valid), and the time zone and the two times
    are untouched. *)
Theorem clicks_keep_selection_ordered (st : State) (ds : list Date)
        (d : Date) :
  let st' := fold_left handleDateSelect (ds ++ [d]) st in
  (exists s, selectedStartDate st' = Some s /\
             forall e, selectedEndDate st' = Some e -> date_lt e s = false)
  /\ hoverDate st' = None
  /\ (forall t, d = DateAt t ->
        Js.seq (currentMonth st') (Js.ofZ (MonthFromTime t)) = true /\
        Js.seq (currentYear st') (Js.ofZ (YearFromTime t)) = true)
  /\ timezone st' = timezone st
  /\ startTime st' = startTime st /\ endTime st' = endTime st.
Proof.
  intros st'. unfold st'. rewrite fold_left_app. cbn [fold_left].
  set (st0 := fold_left handleDateSelect ds st).
  destruct (handleDateSelect_selection st0 d) as [S H].
  split; [exact S|]. split; [exact H|]. split.
  - intros t E. now apply handleDateSelect_view.
  - destruct (handleDateSelect_keeps st0 d) as (A & B & C).
    destruct (fold_handleDateSelect_keeps ds st) as (A' & B' & C').
    fold st0 in A', B', C'. repeat split; congruence.
Qed.

(** ** Moving between months *)




(** ** From a date and a time to an instant *)

Lemma formatTimeOfDate_getters (d : Date) :
  formatTimeOf (getUTCHours d) (getUTCMinutes d) = Some (formatTimeOfDate d).
Proof.
  destruct d as [|t]; [reflexivity|].
  unfold getUTCHours, getUTCMinutes, dateField, formatTimeOfDate.
  pose proof (HourFromTime_range t). pose proof (MinFromTime_range t).
  assert (P : 10 ^ 21 = 1000000000000000000000) by reflexivity.
  apply TimePickerFacts.formatTimeOf_ofZ; lia.
Qed.

Lemma search_first_probe (formatter : Formatter) (c : Civil) (k : nat)
      (low high t : Z) (best : Date) :
  newDateOf (midpoint low high) = DateAt t ->
  tzFields (formatter t) = c ->
  search formatter c (S k) low high best = Js.Normal (DateAt t).
Proof.
  intros N F. cbn [search]. rewrite N, F.
  now rewrite (proj2 (sameFields_eq c c) eq_refl).
Qed.

Lemma validCivil_on_day (t h mi : Z) :
  0 <= h <= 23 -> 0 <= mi <= 59 ->
  validCivil (mkCivil (YearFromTime t) (MonthFromTime t) (DateFromTime t)
                      h mi).
Proof.
  intros Hh Hmi.
  pose proof (formatWithOffset_wellFormed utcOffset t) as W.
  rewrite tzFields_formatWithOffset in W.
  unfold validCivil, fieldsAt, mkCivil in *.
  cbn [cYear cMonth cDay cHour cMinute] in *.
  destruct W as (A & B & _). unfold utcOffset in A, B.
  rewrite Z.add_0_r in A, B. repeat split; lia.
Qed.

Lemma wallClock_on_day (t h mi : Z) :
  wallClock (mkCivil (YearFromTime t) (MonthFromTime t) (DateFromTime t)
                     h mi)
  = Day t * msPerDay + (h * msPerHour + mi * msPerMinute).
Proof.
  rewrite wallClock_decompose
    by (cbn [cMonth mkCivil]; apply MonthFromTime_range).
  cbn [cYear cMonth cDay cHour cMinute mkCivil].
  rewrite (Day_from_fields t). reflexivity.
Qed.

Section Combine.
Variable Number : string -> Js.number.
Variable DateTimeFormat : string -> option Formatter.

Hypothesis Number_digits :
  forall s v, s <> EmptyString -> digitsValue 0 s = Some v ->
              Number s = Js.ofZ v.

Lemma combineDateAndTime_resolver (tz : string) (t h mi : Z) :
  0 <= h -> 0 <= mi ->
  combineDateAndTime Number DateTimeFormat tz (DateAt t) (formatTime h mi)
  = Some (createDateInTimezone DateTimeFormat (YearFromTime t)
            (MonthFromTime t) (DateFromTime t) h mi tz).
Proof.
  intros Hh Hmi. unfold combineDateAndTime.
  rewrite (DateUtilsFacts.map_Number_formatTime Number Number_digits h mi
             Hh Hmi).
  cbn [nth_error nullish].
  unfold getUTCFullYear, getUTCMonth, getUTCDate, dateField.
  now rewrite !TimePickerFacts.integral_ofZ.
Qed.

Lemma combine_in_utc (tz : string) (offset : Z -> Z) (t h mi : Z) :
  DateTimeFormat tz = Some (formatWithOffset offset) ->
  (forall u, offset u = 0) ->
  0 <= h <= 23 -> 0 <= mi <= 59 ->
  ~ (0 <= YearFromTime t <= 99) ->
  2 * msPerDay - maxTimeValue <= t <= maxTimeValue - 2 * msPerDay ->
  combineDateAndTime Number DateTimeFormat tz (DateAt t) (formatTime h mi)
  = Some (Js.Normal
            (DateAt (Day t * msPerDay + (h * msPerHour + mi * msPerMinute)))).
Proof.
  intros Hf Hoff Hh Hmi Hy Ht.
  rewrite combineDateAndTime_resolver by lia. f_equal.
  set (c := mkCivil (YearFromTime t) (MonthFromTime t) (DateFromTime t)
                    h mi).
  pose proof (validCivil_on_day t h mi Hh Hmi) as Vc. fold c in Vc.
  pose proof (wallClock_on_day t h mi) as Wc. fold c in Wc.
  pose proof (Day_bounds t) as Bt.
  assert (R : - maxTimeValue + dayMs <= wallClock c <= maxTimeValue - dayMs).
  { rewrite Wc. unfold maxTimeValue, dayMs, msPerDay, msPerHour,
      msPerMinute in *. lia. }
  assert (Hr : Date_UTC (YearFromTime t) (MonthFromTime t) (DateFromTime t)
                        h mi 0 = Some (wallClock c)).
  { apply Resolver.Date_UTC_wallClock; [exact Hy|].
    fold c. unfold dayMs in R. lia. }
  rewrite (Resolver.createDateInTimezone_unfold _ _ _ _ _ _ _ _ _ Hf Hr).
  fold c. rewrite <- Wc.
  change 20%nat with (S 19).
  apply search_first_probe.
  - apply midpoint_even; [lia|]. unfold dayMs in R. lia.
  - rewrite tzFields_formatWithOffset, Hoff.
    apply fieldsAt_wallClock; [exact Vc | unfold msPerMinute; lia].
Qed.

(** X13.  In a zone that keeps UTC, [combineDateAndTime] of a date and the
    text [HH:mm] is the instant [HH:mm] on the UTC day of the date.  The
    year of the date must not be one of 0..99, which [Date.UTC] reads as
    1900..1999. *)
Theorem combineDateAndTime_in_utc (tz : string) (offset : Z -> Z)
        (t h mi : Z) :
  DateTimeFormat tz = Some (formatWithOffset offset) ->
  (forall u, offset u = 0) ->
  0 <= h <= 23 -> 0 <= mi <= 59 ->
  ~ (0 <= YearFromTime t <= 99) ->
  2 * msPerDay - maxTimeValue <= t <= maxTimeValue - 2 * msPerDay ->
  exists r,
    combineDateAndTime Number DateTimeFormat tz (DateAt t) (formatTime h mi)
    = Some (Js.Normal (DateAt r)) /\
    r = Day t * msPerDay + h * msPerHour + mi * msPerMinute /\
    startOfDay (DateAt r) = startOfDay (DateAt t) /\
    getUTCHours (DateAt r) = Js.ofZ h /\
    getUTCMinutes (DateAt r) = Js.ofZ mi /\
    r mod msPerMinute = 0.
Proof.
  intros Hf Hoff Hh Hmi Hy Ht.
  exists (Day t * msPerDay + (h * msPerHour + mi * msPerMinute)).
  split; [now apply (combine_in_utc tz offset)|]. split; [lia|].
  set (r := Day t * msPerDay + (h * msPerHour + mi * msPerMinute)).
  assert (D : Day r = Day t).
  { unfold Day at 1. symmetry.
    apply (Z.div_unique_pos r msPerDay (Day t)
             (h * msPerHour + mi * msPerMinute));
      unfold r, msPerDay, msPerHour, msPerMinute; lia. }
  pose proof (Day_bounds t) as Bt.
  assert (Rr : - maxTimeValue <= r <= maxTimeValue)
    by (unfold r, maxTimeValue, msPerDay, msPerHour, msPerMinute in *; lia).
  assert (Rt : - maxTimeValue <= t <= maxTimeValue)
    by (unfold maxTimeValue, msPerDay in *; lia).
  split; [|split; [|split]].
  - destruct (RuleFacts.startOfDay_wf r Rr) as [-> _].
    destruct (RuleFacts.startOfDay_wf t Rt) as [-> _]. now rewrite D.
  - unfold getUTCHours, dateField. f_equal. f_equal.
    unfold HourFromTime, r, Day, msPerDay, msPerHour, msPerMinute. euclid.
  - unfold getUTCMinutes, dateField. f_equal. f_equal.
    unfold MinFromTime, r, Day, msPerDay, msPerHour, msPerMinute. euclid.
  - unfold r, Day, msPerDay, msPerHour, msPerMinute. euclid.
Qed.

Lemma combine_preset_time (tz : string) (offset : Z -> Z) (a : Z) :
  DateTimeFormat tz = Some (formatWithOffset offset) ->
  (forall u, offset u = 0) ->
  ~ (0 <= YearFromTime a <= 99) ->
  2 * msPerDay - maxTimeValue <= a <= maxTimeValue - 2 * msPerDay ->
  combineDateAndTime Number DateTimeFormat tz (DateAt a)
                     (formatTimeOfDate (DateAt a))
  = Some (Js.Normal (DateAt (a - a mod msPerMinute))).
Proof.
  intros Hf Hoff Hy Ha. unfold formatTimeOfDate.
  pose proof (HourFromTime_range a). pose proof (MinFromTime_range a).
  rewrite (combine_in_utc tz offset a _ _ Hf Hoff) by (assumption || lia).
  do 3 f_equal.
  unfold HourFromTime, MinFromTime, Day, msPerDay, msPerHour, msPerMinute.
  euclid.
Qed.

(** X14.  Choosing a preset in a zone that keeps UTC: the range the effect
    then validates is the preset with both instants cut down to the
    minute, so the seconds and milliseconds of a preset are lost.
    Without constraints that range goes to [onChange] when the two
    minutes differ, and is refused as [invalid_range] when the preset
    lies within one minute. *)
Theorem preset_is_cut_to_the_minute (st : State) (preset : PresetConfig)
        (offset : Z -> Z) (a b : Z) (constraints : option ConstraintConfig) :
  DateTimeFormat (timezone st) = Some (formatWithOffset offset) ->
  (forall u, offset u = 0) ->
  presetStart preset = DateAt a -> presetEnd preset = DateAt b ->
  ~ (0 <= YearFromTime a <= 99) -> ~ (0 <= YearFromTime b <= 99) ->
  2 * msPerDay - maxTimeValue <= a <= maxTimeValue - 2 * msPerDay ->
  2 * msPerDay - maxTimeValue <= b <= maxTimeValue - 2 * msPerDay ->
  let st' := handlePresetSelect st preset in
  let range := {| start := Some (DateAt (a - a mod msPerMinute));
                  end_ := Some (DateAt (b - b mod msPerMinute)) |} in
  rangeEffect Number DateTimeFormat constraints st'
  = Some (Js.Normal
            match validateRange Number range
                                (nullish constraints noConstraints) with
            | None => {| next := setValidationError None st';
                         changed := Some range |}
            | Some x => {| next := setValidationError (Some x) st';
                           changed := None |}
            end) /\
  (constraints = None ->
   (a / msPerMinute < b / msPerMinute ->
    rangeEffect Number DateTimeFormat constraints st'
    = Some (Js.Normal {| next := setValidationError None st';
                         changed := Some range |})) /\
   (b / msPerMinute <= a / msPerMinute ->
    rangeEffect Number DateTimeFormat constraints st'
    = Some (Js.Normal
              {| next := setValidationError
                           (err invalid_range StartMustBeBeforeEnd) st';
                 changed := None |}))).
Proof.
  intros Hf Hoff Ea Eb Ya Yb Ra Rb st' range.
  assert (E : rangeEffect Number DateTimeFormat constraints st'
              = Some (Js.Normal
                   match validateRange Number range
                                       (nullish constraints noConstraints) with
                   | None => {| next := setValidationError None st';
                                changed := Some range |}
                   | Some x => {| next := setValidationError (Some x) st';
                                  changed := None |}
                   end)).
  { unfold rangeEffect.
    assert (S1 : selectedStartDate st' = Some (DateAt a))
      by (unfold st', handlePresetSelect; cbn; now rewrite Ea).
    assert (S2 : selectedEndDate st' = Some (DateAt b))
      by (unfold st', handlePresetSelect; cbn; now rewrite Eb).
    assert (T1 : startTime st' = formatTimeOfDate (DateAt a))
      by (unfold st', handlePresetSelect; cbn; now rewrite Ea).
    assert (T2 : endTime st' = formatTimeOfDate (DateAt b))
      by (unfold st', handlePresetSelect; cbn; now rewrite Eb).
    assert (Z1 : timezone st' = timezone st) by reflexivity.
    rewrite S1, S2, T1, T2, Z1.
    rewrite (combine_preset_time _ offset a Hf Hoff Ya Ra).
    rewrite (combine_preset_time _ offset b Hf Hoff Yb Rb).
    fold range. now destruct (validateRange Number range _). }
  split; [exact E|]. intros ->. rewrite E. cbn [nullish].
  assert (V : validateRange Number range noConstraints
              = checkOrder (DateAt (a - a mod msPerMinute))
                           (DateAt (b - b mod msPerMinute))).
  { unfold validateRange, range. cbn [start end_].
    unfold checkMinDate, checkMaxDate, checkBlackout, checkMinDuration,
      checkMaxDuration, checkMinTime, checkMaxTime, noConstraints.
    cbn [minDate maxDate blackoutDates minDuration maxDuration minTime
         maxTime truthy orElse].
    now destruct (checkOrder _ _). }
  rewrite V. unfold checkOrder, date_ge, getTime. rewrite JsFacts.ge_ofZ.
  split; intros H.
  - destruct (Z.leb_spec (b - b mod msPerMinute) (a - a mod msPerMinute))
      as [L|_]; [|reflexivity].
    exfalso. unfold msPerMinute in *. euclid.
  - destruct (Z.leb_spec (b - b mod msPerMinute) (a - a mod msPerMinute))
      as [_|L]; [reflexivity|].
    exfalso. unfold msPerMinute in *. euclid.
Qed.

End Combine.

Lemma sampleZones_UTC :
  sampleZones "UTC" = Some (formatWithOffset utcOffset).
Proof. reflexivity. Qed.

Lemma combineDateAndTime_in_utc_witness :
  combineDateAndTime NumberOfDigits sampleZones "UTC" Samples.mar15_00h00
                     (formatTime 10 30)
  = Some (Js.Normal Samples.mar15_10h30).
Proof.
  destruct (combineDateAndTime_in_utc NumberOfDigits sampleZones
              DateUtilsFacts.NumberOfDigits_digits "UTC" utcOffset
              1710460800000 10 30 sampleZones_UTC (fun _ => eq_refl)
              ltac:(lia) ltac:(lia))
    as (r & E & -> & _).
  - vm_compute. intros [_ H]. apply H. reflexivity.
  - vm_compute. split; discriminate.
  - exact E.
Defined.

Lemma preset_is_cut_to_the_minute_witness :
  let st := {| timezone := "UTC"; selectedStartDate := None;
               selectedEndDate := None; startTime := "00:00";
               endTime := "00:00"; hoverDate := None;
               currentMonth := Js.ofZ 0; currentYear := Js.ofZ 2024;
               validationError := None |} in
  let preset := {| label := "Today";
                   presetStart := DateAt 1710460800000;
                   presetEnd := DateAt 1710547199999 |} in
  exists o,
    rangeEffect NumberOfDigits sampleZones None (handlePresetSelect st preset)
    = Some (Js.Normal o) /\
    changed o = Some {| start := Some (DateAt 1710460800000);
                        end_ := Some (DateAt 1710547140000) |}.
Proof.
  intros st preset.
  destruct (preset_is_cut_to_the_minute NumberOfDigits sampleZones
              DateUtilsFacts.NumberOfDigits_digits st preset utcOffset
              1710460800000 1710547199999 None sampleZones_UTC
              (fun _ => eq_refl) eq_refl eq_refl) as [_ H].
  - vm_compute. intros [_ H]. apply H. reflexivity.
  - vm_compute. intros [_ H]. apply H. reflexivity.
  - vm_compute. split; discriminate.
  - vm_compute. split; discriminate.
  - destruct (H eq_refl) as [H1 _]. eexists. split.
    + apply H1. vm_compute. reflexivity.
    + reflexivity.
Defined.

Lemma clicks_keep_selection_ordered_witness :
  let st := {| timezone := "UTC"; selectedStartDate := None;
               selectedEndDate := None; startTime := "00:00";
               endTime := "00:00"; hoverDate := None;
               currentMonth := Js.ofZ 0; currentYear := Js.ofZ 2024;
               validationError := None |} in
  Js.seq (currentMonth
            (fold_left handleDateSelect
                       ([Samples.mar20_00h00] ++ [Samples.mar15_10h00]) st))
         (Js.ofZ (MonthFromTime 1710496800000)) = true.
Proof.
  intros st.
  apply (proj1 (proj2 (proj2 (clicks_keep_selection_ordered st
                                [Samples.mar20_00h00] Samples.mar15_10h00)))
         1710496800000 eq_refl).
Defined.


End RangePickerFacts.

(* ===================================================================== *)
(** * The calendar grid *)
(* ===================================================================== *)

Module CalendarGridFacts.
Import Ecma EcmaExtra EcmaConv DateTs DateUtils TimezoneTs Rules.
Import CalendarGridTsx.
Import EcmaFacts TimezoneFacts DateUtilsFacts.

(** The day number of the first of a month. *)
Lemma MakeDay_first (y m d : Z) :
  0 <= m <= 11 ->
  MakeDay y m d
  = DayFromYear y + monthStart (if isLeap y then 1 else 0) m + d - 1.
Proof.
  intros Hm. unfold MakeDay.
  rewrite Z.div_small, Z.mod_small by lia. now rewrite Z.add_0_r.
Qed.

Lemma monthStart_range (leap m : Z) :
  0 <= leap <= 1 -> 0 <= m <= 11 -> 0 <= monthStart leap m <= 335.
Proof.
  intros Hl Hm.
  assert (M : m = 0 \/ m = 1 \/ m = 2 \/ m = 3 \/ m = 4 \/ m = 5 \/ m = 6 \/
              m = 7 \/ m = 8 \/ m = 9 \/ m = 10 \/ m = 11) by lia.
  repeat destruct M as [->|M]; try subst m; month_starts; lia.
Qed.

(** Every day within two months of a month of the years -271820 ..
    275759 is a time value. *)
Lemma near_month_in_range (y m n : Z) :
  -271820 <= y <= 275759 -> 0 <= m <= 11 ->
  MakeDay y m 1 - 31 <= n <= MakeDay y m 1 + 62 ->
  - maxTimeValue <= n * msPerDay <= maxTimeValue.
Proof.
  intros Hy Hm Hn. rewrite (MakeDay_first y m 1 Hm) in Hn.
  assert (Hl : 0 <= (if isLeap y then 1 else 0) <= 1)
    by (destruct (isLeap y); lia).
  pose proof (monthStart_range _ m Hl Hm) as Hs.
  pose proof (DayFromYear_mono (-271820) y ltac:(lia)) as L.
  pose proof (DayFromYear_mono y 275759 ltac:(lia)) as U.
  change (DayFromYear (-271820)) with (-99999744) in L.
  change (DayFromYear 275759) with 99999379 in U.
  unfold maxTimeValue, msPerDay. lia.
Qed.

Lemma newDateUTC_day (year m d : Z) :
  0 <= m <= 11 ->
  - maxTimeValue <= MakeDay (MakeFullYear year) m d * msPerDay
  <= maxTimeValue ->
  newDateUTC year m (Some d)
  = DateAt (MakeDay (MakeFullYear year) m d * msPerDay).
Proof.
  intros Hm R. unfold newDateUTC, Date_UTC, MakeDate, MakeTime.
  replace (MakeDay (MakeFullYear year) m d * msPerDay +
           (0 * msPerHour + 0 * msPerMinute + 0 * msPerSecond + 0))
    with (MakeDay (MakeFullYear year) m d * msPerDay) by lia.
  rewrite (proj2 (TimeClip_Some _ _) (conj eq_refl R)).
  cbn [newDateOpt]. now apply newDate_in_range.
Qed.

Lemma getDaysInMonth_value (year m : Z) :
  0 <= m <= 11 -> -271820 <= MakeFullYear year <= 275759 ->
  integral (getDaysInMonth year m)
  = Some (DaysInMonth (MakeFullYear year) m).
Proof.
  intros Hm Hy. unfold getDaysInMonth.
  set (Y := MakeFullYear year) in *.
  pose proof (DaysInMonth_range Y m Hm) as R.
  assert (E : MakeDay Y (m + 1) 0 = MakeDay Y m (DaysInMonth Y m))
    by (rewrite (MakeDay_day_zero _ _ Hm), (MakeDay_first _ _ _ Hm); lia).
  assert (Rg : - maxTimeValue <= MakeDay Y m (DaysInMonth Y m) * msPerDay
               <= maxTimeValue).
  { apply (near_month_in_range Y m); [exact Hy | exact Hm|].
    rewrite !(MakeDay_first _ _ _ Hm). lia. }
  unfold Date_UTC, MakeDate, MakeTime. fold Y. rewrite E.
  replace (MakeDay Y m (DaysInMonth Y m) * msPerDay +
           (0 * msPerHour + 0 * msPerMinute + 0 * msPerSecond + 0))
    with (MakeDay Y m (DaysInMonth Y m) * msPerDay) by lia.
  rewrite (proj2 (TimeClip_Some _ _) (conj eq_refl Rg)).
  cbn [newDateOpt]. rewrite (newDate_in_range _ Rg).
  unfold getUTCDate, dateField. rewrite TimePickerFacts.integral_ofZ.
  f_equal. rewrite (MakeDay_first _ _ _ Hm).
  destruct (fields_of_day Y m (DaysInMonth Y m) 0) as (_ & _ & HD).
  - unfold validCivil, mkCivil. cbn [cYear cMonth cDay cHour cMinute]. lia.
  - unfold msPerDay. lia.
  - rewrite Z.add_0_r in HD. exact HD.
Qed.

(** ** The three loops *)

Lemma map_seq_shift {A : Type} (f : nat -> A) (a n : nat) :
  map f (seq a n) = map (fun j => f (a + j)%nat) (seq 0 n).
Proof.
  revert a. induction n as [|n IH]; intros a; [reflexivity|].
  cbn [seq map]. f_equal; [f_equal; lia|].
  rewrite (IH (S a)), <- (seq_shift n 0), map_map.
  apply map_ext. intros j. f_equal. lia.
Qed.

Lemma pushPrevious_cells (py pm P : Z) (cell : nat -> CalendarDay)
      (n : nat) :
  (forall i, (i < n)%nat ->
     {| date := newDateUTC py pm (Some (P - Z.of_nat i));
        isCurrentMonth := false |} = cell (n - 1 - i)%nat) ->
  forall days,
    pushPrevious py pm (Some P) n days = days ++ map cell (seq 0 n).
Proof.
  revert cell. induction n as [|n IH]; intros cell H days.
  - cbn. now rewrite app_nil_r.
  - cbn [pushPrevious option_map].
    rewrite (IH (fun j => cell (S j))).
    + rewrite <- app_assoc. f_equal. cbn [seq map app].
      rewrite (H n ltac:(lia)). replace (S n - 1 - n)%nat with 0%nat by lia.
      f_equal. rewrite (map_seq_shift cell 1 n). reflexivity.
    + intros i Hi. rewrite (H i ltac:(lia)). f_equal. lia.
Qed.

Lemma pushDays_cells (y m : Z) (cur : bool) (cell : nat -> CalendarDay)
      (n : nat) :
  forall day days,
    (forall j, (j < n)%nat ->
       {| date := newDateUTC y m (Some (day + Z.of_nat j));
          isCurrentMonth := cur |} = cell j) ->
    pushDays y m cur n day days = days ++ map cell (seq 0 n).
Proof.
  revert cell. induction n as [|n IH]; intros cell day days H.
  - cbn. now rewrite app_nil_r.
  - cbn [pushDays]. rewrite (IH (fun j => cell (S j))).
    + rewrite <- app_assoc. f_equal. cbn [seq map app].
      rewrite <- (H 0%nat ltac:(lia)). rewrite Z.add_0_r. f_equal.
      rewrite (map_seq_shift cell 1 n). reflexivity.
    + intros j Hj. rewrite <- (H (S j) ltac:(lia)). do 3 f_equal. lia.
Qed.

(** The month before and the month after. *)
Lemma previous_month_first (y m : Z) :
  0 <= m <= 11 ->
  let py := if m =? 0 then y - 1 else y in
  let pm := if m =? 0 then 11 else m - 1 in
  0 <= pm <= 11 /\
  MakeDay py pm 1 + DaysInMonth py pm = MakeDay y m 1.
Proof.
  intros Hm py pm.
  assert (Hpm : 0 <= pm <= 11) by (unfold pm; destruct (Z.eqb_spec m 0); lia).
  split; [exact Hpm|].
  rewrite (MakeDay_first _ _ _ Hpm), (MakeDay_first _ _ _ Hm).
  pose proof (nextMonth_day py pm 1 Hpm) as N. cbv zeta in N.
  unfold py, pm in *. destruct (Z.eqb_spec m 0) as [->|N0].
  - change (11 =? 11) with true in N. cbv iota in N.
    replace (y - 1 + 1) with y in N by lia. lia.
  - destruct (Z.eqb_spec (m - 1) 11) as [|_]; [lia|].
    replace (m - 1 + 1) with m in N by lia. lia.
Qed.

Lemma next_month_first (y m : Z) :
  0 <= m <= 11 ->
  let ny := if m =? 11 then y + 1 else y in
  let nm := if m =? 11 then 0 else m + 1 in
  0 <= nm <= 11 /\
  MakeDay ny nm 1 = MakeDay y m 1 + DaysInMonth y m.
Proof.
  intros Hm ny nm.
  assert (Hnm : 0 <= nm <= 11)
    by (unfold nm; destruct (Z.eqb_spec m 11); lia).
  split; [exact Hnm|].
  rewrite (MakeDay_first _ _ _ Hnm), (MakeDay_first _ _ _ Hm).
  pose proof (nextMonth_day y m 1 Hm) as N. cbv zeta in N.
  fold ny nm in N. lia.
Qed.

Lemma MakeFullYear_neighbours (year : Z) :
  year <> -1 -> year <> 0 -> year <> 99 -> year <> 100 ->
  MakeFullYear (year - 1) = MakeFullYear year - 1 /\
  MakeFullYear (year + 1) = MakeFullYear year + 1.
Proof.
  intros. unfold MakeFullYear.
  destruct (Z.leb_spec 0 year), (Z.leb_spec year 99),
    (Z.leb_spec 0 (year - 1)), (Z.leb_spec (year - 1) 99),
    (Z.leb_spec 0 (year + 1)), (Z.leb_spec (year + 1) 99);
    cbn [andb]; lia.
Qed.

Lemma WeekDay_of_day (n : Z) : WeekDay (n * msPerDay) = (n + 4) mod 7.
Proof. unfold WeekDay. now rewrite Day_mul. Qed.

(** The grid for a month, cell by cell. *)
Lemma calendarDays_cells (year month : Z) :
  0 <= month <= 11 ->
  year <> -1 -> year <> 0 -> year <> 99 -> year <> 100 ->
  -271820 <= MakeFullYear year <= 275759 ->
  let Y := MakeFullYear year in
  let first := MakeDay Y month 1 in
  let w := (first + 4) mod 7 in
  calendarDays year month
  = map (gridCell first w (DaysInMonth Y month)) (seq 0 42).
Proof.
  intros Hm E1 E2 E3 E4 Hy Y first w.
  destruct (MakeFullYear_neighbours year E1 E2 E3 E4) as [Yp Yn].
  fold Y in Yp, Yn, Hy.
  pose proof (DaysInMonth_range Y month Hm) as RL.
  set (L := DaysInMonth Y month) in *.
  assert (Hw : 0 <= w <= 6)
    by (unfold w; pose proof (Z.mod_pos_bound (first + 4) 7); lia).
  assert (InR : forall n, first - 31 <= n <= first + 62 ->
                  - maxTimeValue <= n * msPerDay <= maxTimeValue)
    by (intros n Hn; apply (near_month_in_range Y month); assumption).
  unfold calendarDays.
  rewrite (getDaysInMonth_value year month Hm Hy). fold Y L.
  rewrite (newDateUTC_day year month 1 Hm)
    by (fold Y; fold first; apply InR; lia).
  fold Y first.
  unfold getUTCDay, dateField. rewrite WeekDay_of_day. fold w.
  rewrite TimePickerFacts.integral_ofZ.
  (* the month before *)
  set (prevMonth := if month =? 0 then 11 else month - 1).
  set (prevYear := if month =? 0 then year - 1 else year).
  destruct (previous_month_first Y month Hm) as [Hpm Hpf].
  assert (PY : MakeFullYear prevYear
               = if month =? 0 then Y - 1 else Y)
    by (unfold prevYear; destruct (month =? 0); [exact Yp | reflexivity]).
  fold prevMonth in Hpm, Hpf.
  rewrite <- PY in Hpf.
  assert (HPY : -271820 <= MakeFullYear prevYear <= 275759 \/
                MakeFullYear prevYear = -271821).
  { rewrite PY. destruct (month =? 0); lia. }
  set (P := DaysInMonth (MakeFullYear prevYear) prevMonth) in *.
  pose proof (DaysInMonth_range (MakeFullYear prevYear) prevMonth Hpm) as RP.
  fold P in RP.
  assert (GP : integral (getDaysInMonth prevYear prevMonth) = Some P).
  { destruct HPY as [HPY|HPY]; [now apply getDaysInMonth_value|].
    unfold getDaysInMonth.
    assert (E : MakeDay (MakeFullYear prevYear) (prevMonth + 1) 0
                = first - 1).
    { rewrite (MakeDay_day_zero _ _ Hpm).
      rewrite (MakeDay_first _ _ _ Hpm) in Hpf. fold P. lia. }
    unfold Date_UTC, MakeDate, MakeTime. rewrite E.
    replace ((first - 1) * msPerDay +
             (0 * msPerHour + 0 * msPerMinute + 0 * msPerSecond + 0))
      with ((first - 1) * msPerDay) by lia.
    assert (Rg := InR (first - 1) ltac:(lia)).
    rewrite (proj2 (TimeClip_Some _ _) (conj eq_refl Rg)).
    cbn [newDateOpt]. rewrite (newDate_in_range _ Rg).
    unfold getUTCDate, dateField. rewrite TimePickerFacts.integral_ofZ.
    f_equal.
    destruct (fields_of_day (MakeFullYear prevYear) prevMonth P 0)
      as (_ & _ & HD).
    - unfold validCivil, mkCivil. cbn [cYear cMonth cDay cHour cMinute].
      lia.
    - unfold msPerDay. lia.
    - rewrite Z.add_0_r in HD. rewrite <- HD. f_equal. f_equal.
      rewrite (MakeDay_first _ _ _ Hpm) in Hpf. lia. }
  (* the month after *)
  set (nextMonth := if month =? 11 then 0 else month + 1).
  set (nextYear := if month =? 11 then year + 1 else year).
  destruct (next_month_first Y month Hm) as [Hnm Hnf].
  assert (NY : MakeFullYear nextYear
               = if month =? 11 then Y + 1 else Y)
    by (unfold nextYear; destruct (month =? 11); [exact Yn | reflexivity]).
  fold nextMonth in Hnm, Hnf. rewrite <- NY in Hnf. fold first L in Hnf.
  (* the first loop *)
  cbn [iterations].
  assert (L1 : pushPrevious prevYear prevMonth
                 (integral (getDaysInMonth prevYear prevMonth))
                 (Z.to_nat w) []
               = map (gridCell first w L) (seq 0 (Z.to_nat w))).
  { rewrite GP.
    rewrite (pushPrevious_cells prevYear prevMonth P
               (gridCell first w L) (Z.to_nat w)); [reflexivity|].
    intros i Hi. unfold gridCell.
    rewrite (newDateUTC_day prevYear prevMonth _ Hpm).
    - f_equal.
      + f_equal. f_equal.
        rewrite (MakeDay_first _ _ _ Hpm).
        rewrite (MakeDay_first _ _ _ Hpm) in Hpf. lia.
      + symmetry. apply andb_false_iff. left. apply Z.leb_gt. lia.
    - apply InR. rewrite (MakeDay_first _ _ _ Hpm).
      rewrite (MakeDay_first _ _ _ Hpm) in Hpf. lia. }
  rewrite L1. clear L1.
  (* the second loop *)
  rewrite (pushDays_cells year month true
             (fun j => gridCell first w L (Z.to_nat w + j)) (Z.to_nat L)).
  2:{ intros j Hj. unfold gridCell.
      rewrite (newDateUTC_day year month _ Hm).
      - fold Y. f_equal.
        + f_equal. f_equal. unfold first.
          rewrite !(MakeDay_first _ _ _ Hm). lia.
        + symmetry. apply andb_true_iff. split;
            [apply Z.leb_le | apply Z.ltb_lt]; lia.
      - fold Y. apply InR. unfold first.
        rewrite !(MakeDay_first _ _ _ Hm). lia. }
  rewrite <- (map_seq_shift (gridCell first w L) (Z.to_nat w) (Z.to_nat L)).
  rewrite <- map_app, <- seq_app.
  rewrite length_map, length_seq.
  (* the third loop *)
  set (k2 := (Z.to_nat w + Z.to_nat L)%nat).
  assert (Hk2 : Z.of_nat k2 = w + L) by (unfold k2; lia).
  rewrite (pushDays_cells nextYear nextMonth false
             (fun j => gridCell first w L (k2 + j))
             (Z.to_nat (42 - Z.of_nat k2))).
  2:{ intros j Hj. unfold gridCell.
      rewrite (newDateUTC_day nextYear nextMonth _ Hnm).
      - f_equal.
        + f_equal. f_equal. rewrite (MakeDay_first _ _ _ Hnm).
          rewrite (MakeDay_first _ _ _ Hnm) in Hnf. lia.
        + symmetry. apply andb_false_iff. right. apply Z.ltb_ge. lia.
      - apply InR. rewrite (MakeDay_first _ _ _ Hnm).
        rewrite (MakeDay_first _ _ _ Hnm) in Hnf. lia. }
  rewrite <- (map_seq_shift (gridCell first w L) k2).
  rewrite <- map_app, <- seq_app.
  f_equal. f_equal. lia.
Qed.

Lemma nth_error_map_seq {A : Type} (f : nat -> A) (n k : nat) :
  (k < n)%nat -> nth_error (map f (seq 0 n)) k = Some (f k).
Proof.
  intros H. rewrite nth_error_map, nth_error_seq.
  destruct (Nat.ltb_spec k n); [reflexivity | lia].
Qed.

(** X15.  The grid of a month has 42 cells, six weeks.  The cells are the
    UTC midnights of 42 consecutive days, the first of them a Sunday,
    and the first of the month lies in the first week.  The year is
    read as [Date.UTC] reads it, 0..99 as 1900..1999; the years at the
    two edges of 0..99 are left out, where the month before or after
    would be read in another century. *)
Theorem calendarDays_six_weeks (year month : Z) :
  0 <= month <= 11 ->
  year <> -1 -> year <> 0 -> year <> 99 -> year <> 100 ->
  -271820 <= MakeFullYear year <= 275759 ->
  List.length (calendarDays year month) = 42%nat /\
  exists sunday,
    WeekDay (sunday * msPerDay) = 0 /\
    sunday <= MakeDay (MakeFullYear year) month 1 < sunday + 7 /\
    forall k, (k < 42)%nat ->
      option_map date (nth_error (calendarDays year month) k)
      = Some (DateAt ((sunday + Z.of_nat k) * msPerDay)) /\
      getUTCDay (DateAt ((sunday + Z.of_nat k) * msPerDay))
      = Js.ofZ (Z.of_nat k mod 7).
Proof.
  intros Hm E1 E2 E3 E4 Hy.
  rewrite (calendarDays_cells year month Hm E1 E2 E3 E4 Hy). cbv zeta.
  set (first := MakeDay (MakeFullYear year) month 1).
  set (w := (first + 4) mod 7).
  assert (Hw : 0 <= w <= 6)
    by (unfold w; pose proof (Z.mod_pos_bound (first + 4) 7); lia).
  split; [now rewrite length_map, length_seq|].
  exists (first - w).
  assert (S0 : (first - w + 4) mod 7 = 0) by (unfold w; euclid).
  split; [now rewrite WeekDay_of_day|]. split; [lia|].
  intros k Hk. rewrite (nth_error_map_seq _ 42 k Hk). split; [reflexivity|].
  unfold getUTCDay, dateField. rewrite WeekDay_of_day. f_equal.
  revert S0. generalize (first - w). intros n S0. euclid.
Qed.

(** The days of a month are the day numbers from its first on. *)
Lemma day_in_month_iff (Y month n : Z) :
  0 <= month <= 11 ->
  (YearFromTime (n * msPerDay) = Y /\ MonthFromTime (n * msPerDay) = month)
  <-> MakeDay Y month 1 <= n < MakeDay Y month 1 + DaysInMonth Y month.
Proof.
  intros Hm. rewrite (MakeDay_first _ _ _ Hm).
  pose proof (DaysInMonth_range Y month Hm) as RL. split.
  - intros [HY HM].
    pose proof (Day_from_fields (n * msPerDay)) as D.
    pose proof (DateFromTime_range (n * msPerDay)) as R.
    rewrite Day_mul in D. unfold InLeapYear in D, R.
    rewrite HY, HM in D, R. unfold DaysInMonth. lia.
  - intros H.
    destruct (fields_of_day Y month
                (n - (DayFromYear Y
                      + monthStart (if isLeap Y then 1 else 0) month) + 1) 0)
      as (HY & HM & _).
    + unfold validCivil, mkCivil. cbn [cYear cMonth cDay cHour cMinute]. lia.
    + unfold msPerDay. lia.
    + replace ((DayFromYear Y + monthStart (if isLeap Y then 1 else 0) month
                + (n - (DayFromYear Y
                        + monthStart (if isLeap Y then 1 else 0) month) + 1)
                - 1) * msPerDay + 0) with (n * msPerDay) in HY, HM by lia.
      now split.
Qed.

(** X16.  A cell of the grid is flagged [isCurrentMonth] exactly when its
    date lies in the month displayed, and every day of that month has
    its cell. *)
Theorem calendarDays_marks_the_month (year month : Z) :
  0 <= month <= 11 ->
  year <> -1 -> year <> 0 -> year <> 99 -> year <> 100 ->
  -271820 <= MakeFullYear year <= 275759 ->
  let Y := MakeFullYear year in
  (forall c, In c (calendarDays year month) ->
     exists t, date c = DateAt t /\ t mod msPerDay = 0 /\
       (isCurrentMonth c = true <->
        YearFromTime t = Y /\ MonthFromTime t = month)) /\
  (forall d, 1 <= d <= DaysInMonth Y month ->
     In {| date := DateAt (MakeDay Y month d * msPerDay);
           isCurrentMonth := true |} (calendarDays year month)).
Proof.
  intros Hm E1 E2 E3 E4 Hy. cbv zeta.
  rewrite (calendarDays_cells year month Hm E1 E2 E3 E4 Hy).
  generalize (MakeFullYear year). clear Hy. intros Y0. cbv zeta.
  set (first := MakeDay Y0 month 1).
  assert (F : MakeDay Y0 month 1 = first) by reflexivity. clearbody first.
  pose proof (DaysInMonth_range Y0 month Hm) as RL.
  pose proof (Z.mod_pos_bound (first + 4) 7 ltac:(lia)) as Hw.
  set (w := (first + 4) mod 7) in *. clearbody w.
  split.
  - intros c Hc. apply in_map_iff in Hc. destruct Hc as (k & <- & Hk).
    apply in_seq in Hk. unfold gridCell. cbn [date isCurrentMonth].
    exists ((first - w + Z.of_nat k) * msPerDay). split; [reflexivity|].
    split; [apply Z.mod_mul; unfold msPerDay; lia|].
    rewrite (day_in_month_iff Y0 month _ Hm), F.
    rewrite andb_true_iff, Z.leb_le, Z.ltb_lt. lia.
  - intros d Hd. apply in_map_iff.
    exists (Z.to_nat (w + d - 1)). split.
    + unfold gridCell. f_equal.
      * f_equal. f_equal. rewrite <- F.
        rewrite !(MakeDay_first _ _ _ Hm). lia.
      * apply andb_true_iff. split; [apply Z.leb_le | apply Z.ltb_lt]; lia.
    + apply in_seq. lia.
Qed.

(** ** The selected range *)

Lemma startOfDay_Invalid : startOfDay InvalidDate = InvalidDate.
Proof. reflexivity. Qed.

Lemma between_days (d a b : Z) :
  - maxTimeValue <= d <= maxTimeValue ->
  - maxTimeValue <= a <= maxTimeValue ->
  - maxTimeValue <= b <= maxTimeValue ->
  date_ge (startOfDay (DateAt d)) (startOfDay (DateAt a)) &&
  date_le (startOfDay (DateAt d)) (startOfDay (DateAt b))
  = (Day a <=? Day d) && (Day d <=? Day b).
Proof.
  intros Hd Ha Hb.
  destruct (RuleFacts.startOfDay_wf d Hd) as [-> _].
  destruct (RuleFacts.startOfDay_wf a Ha) as [-> _].
  destruct (RuleFacts.startOfDay_wf b Hb) as [-> _].
  unfold date_ge, date_le, getTime. rewrite JsFacts.ge_ofZ, JsFacts.le_ofZ.
  unfold msPerDay.
  destruct (Z.leb_spec (Day a) (Day d)), (Z.leb_spec (Day d) (Day b)),
    (Z.leb_spec (Day a * 86400000) (Day d * 86400000)),
    (Z.leb_spec (Day d * 86400000) (Day b * 86400000));
    try reflexivity; lia.
Qed.

(** X17.  [isInRange] works on UTC days.  With a start and an end selected,
    a date is in range when its day lies between their days, whatever
    the hover; with a start only, the range previewed runs between the
    day of the start and the day hovered, in either order; with no
    start, or a start alone and nothing hovered, no date is in range.
    The times of day play no part, and the cell of the start and the
    cell of the end of an ordered selection are in range. *)
Theorem isInRange_by_days (s e h d : Z) (hover : option Date) :
  - maxTimeValue <= s <= maxTimeValue ->
  - maxTimeValue <= e <= maxTimeValue ->
  - maxTimeValue <= h <= maxTimeValue ->
  - maxTimeValue <= d <= maxTimeValue ->
  isInRange (Some (DateAt s)) (Some (DateAt e)) hover (DateAt d)
  = (Day s <=? Day d) && (Day d <=? Day e) /\
  isInRange (Some (DateAt s)) None (Some (DateAt h)) (DateAt d)
  = (Z.min (Day s) (Day h) <=? Day d) && (Day d <=? Z.max (Day s) (Day h)) /\
  isInRange (Some (DateAt s)) None (Some (DateAt h)) (DateAt d)
  = isInRange (Some (DateAt h)) None (Some (DateAt s)) (DateAt d) /\
  isInRange None (Some (DateAt e)) hover (DateAt d) = false /\
  isInRange (Some (DateAt s)) None None (DateAt d) = false /\
  (Day s <= Day e ->
   (isStartDate (Some (DateAt s)) (DateAt d) = true ->
    isInRange (Some (DateAt s)) (Some (DateAt e)) hover (DateAt d) = true) /\
   (isEndDate (Some (DateAt e)) (DateAt d) = true ->
    isInRange (Some (DateAt s)) (Some (DateAt e)) hover (DateAt d) = true)).
Proof.
  intros Hs He Hh Hd.
  assert (P : forall a b,
             - maxTimeValue <= a <= maxTimeValue ->
             - maxTimeValue <= b <= maxTimeValue ->
             isInRange (Some (DateAt a)) None (Some (DateAt b)) (DateAt d)
             = (Z.min (Day a) (Day b) <=? Day d) &&
               (Day d <=? Z.max (Day a) (Day b))).
  { intros a b Ha Hb. unfold isInRange, date_lt, getTime.
    rewrite JsFacts.lt_ofZ.
    destruct (Z.ltb_spec a b) as [L|L]; cbv zeta;
      rewrite between_days by assumption.
    - pose proof (Day_mono a b ltac:(lia)).
      now rewrite Z.min_l, Z.max_r by lia.
    - pose proof (Day_mono b a ltac:(lia)).
      now rewrite Z.min_r, Z.max_l by lia. }
  assert (C : isInRange (Some (DateAt s)) (Some (DateAt e)) hover (DateAt d)
              = (Day s <=? Day d) && (Day d <=? Day e)).
  { unfold isInRange. cbv zeta. now apply between_days. }
  split; [exact C|]. split; [now apply P|]. split.
  - rewrite !P by assumption. now rewrite Z.min_comm, Z.max_comm.
  - split; [reflexivity|]. split; [reflexivity|].
    intros Hse. rewrite C. unfold isStartDate, isEndDate.
    split; intros H; apply isSameDay_gives_Day in H; rewrite H;
      apply andb_true_iff; split; apply Z.leb_le; lia.
Qed.

(** ** The keys *)

(** X18.  The arrow keys move the focus by whole days and keep the time of
    day: left and right undo each other, up and down move by a week and
    so keep the weekday.  [Home] and [End] go to the first and the last
    day of the month displayed, which are cells of its grid. *)
Theorem keys_move_within_the_calendar (year month t : Z) :
  0 <= month <= 11 ->
  year <> -1 -> year <> 0 -> year <> 99 -> year <> 100 ->
  -271820 <= MakeFullYear year <= 275759 ->
  7 * msPerDay - maxTimeValue <= t <= maxTimeValue - 7 * msPerDay ->
  let go key := targetDate year month key (DateAt t) in
  go ArrowLeft = DateAt (t - msPerDay) /\
  go ArrowRight = DateAt (t + msPerDay) /\
  go ArrowUp = DateAt (t - 7 * msPerDay) /\
  go ArrowDown = DateAt (t + 7 * msPerDay) /\
  targetDate year month ArrowRight (go ArrowLeft) = DateAt t /\
  targetDate year month ArrowLeft (go ArrowRight) = DateAt t /\
  getUTCDay (go ArrowUp) = getUTCDay (DateAt t) /\
  getUTCDay (go ArrowDown) = getUTCDay (DateAt t) /\
  In {| date := go Home; isCurrentMonth := true |}
     (calendarDays year month) /\
  In {| date := go End_; isCurrentMonth := true |}
     (calendarDays year month).
Proof.
  intros Hm E1 E2 E3 E4 Hy Ht go.
  assert (M : msPerDay = 86400000) by reflexivity.
  assert (X : maxTimeValue = 8640000000000000) by reflexivity.
  assert (A : forall u k, - maxTimeValue <= u + k * msPerDay <= maxTimeValue ->
                addDays (DateAt u) k = DateAt (u + k * msPerDay)).
  { intros u k H. unfold addDays. rewrite addUTCDate_DateAt.
    now apply newDate_in_range. }
  assert (GL : go ArrowLeft = DateAt (t - msPerDay))
    by (unfold go, targetDate; rewrite A by lia; f_equal; lia).
  assert (GR : go ArrowRight = DateAt (t + msPerDay))
    by (unfold go, targetDate; rewrite A by lia; f_equal; lia).
  assert (GU : go ArrowUp = DateAt (t - 7 * msPerDay))
    by (unfold go, targetDate; rewrite A by lia; f_equal; lia).
  assert (GD : go ArrowDown = DateAt (t + 7 * msPerDay))
    by (unfold go, targetDate; rewrite A by lia; f_equal; lia).
  split; [exact GL|]. split; [exact GR|]. split; [exact GU|].
  split; [exact GD|]. rewrite GL, GR, GU, GD.
  split; [unfold targetDate; rewrite A by lia; f_equal; lia|].
  split; [unfold targetDate; rewrite A by lia; f_equal; lia|].
  split; [unfold getUTCDay, dateField, WeekDay, Day; f_equal; rewrite M;
          euclid|].
  split; [unfold getUTCDay, dateField, WeekDay, Day; f_equal; rewrite M;
          euclid|].
  unfold go, targetDate. clear GL GR GU GD A go Ht. split.
  - rewrite (calendarDays_cells year month Hm E1 E2 E3 E4 Hy). cbv zeta.
    pose proof (DaysInMonth_range (MakeFullYear year) month Hm) as RL.
    rewrite (newDateUTC_day year month 1 Hm)
      by (apply (near_month_in_range (MakeFullYear year) month);
          [exact Hy | exact Hm | lia]).
    set (first := MakeDay (MakeFullYear year) month 1).
    pose proof (Z.mod_pos_bound (first + 4) 7 ltac:(lia)) as Hw.
    apply in_map_iff. exists (Z.to_nat ((first + 4) mod 7)). split.
    + unfold gridCell. f_equal.
      * f_equal. f_equal. lia.
      * apply andb_true_iff. split; [apply Z.leb_le | apply Z.ltb_lt]; lia.
    + apply in_seq. lia.
  - rewrite (calendarDays_cells year month Hm E1 E2 E3 E4 Hy). cbv zeta.
    pose proof (DaysInMonth_range (MakeFullYear year) month Hm) as RL.
    rewrite (getDaysInMonth_value year month Hm Hy).
    rewrite (newDateUTC_day year month _ Hm)
      by (apply (near_month_in_range (MakeFullYear year) month);
          [exact Hy | exact Hm | rewrite !(MakeDay_first _ _ _ Hm); lia]).
    assert (F : MakeDay (MakeFullYear year) month
                        (DaysInMonth (MakeFullYear year) month)
                = MakeDay (MakeFullYear year) month 1
                  + DaysInMonth (MakeFullYear year) month - 1)
      by (rewrite !(MakeDay_first _ _ _ Hm); lia).
    rewrite F. clear F.
    set (first := MakeDay (MakeFullYear year) month 1).
    set (L := DaysInMonth (MakeFullYear year) month) in *.
    pose proof (Z.mod_pos_bound (first + 4) 7 ltac:(lia)) as Hw.
    apply in_map_iff. exists (Z.to_nat ((first + 4) mod 7 + L - 1)). split.
    + unfold gridCell. f_equal.
      * f_equal. f_equal. lia.
      * apply andb_true_iff. split; [apply Z.leb_le | apply Z.ltb_lt]; lia.
    + apply in_seq. lia.
Qed.

Lemma year_2024_in_range : -271820 <= MakeFullYear 2024 <= 275759.
Proof. vm_compute. split; discriminate. Qed.

Lemma calendarDays_six_weeks_witness :
  List.length (calendarDays 2024 2) = 42%nat.
Proof.
  apply (proj1 (calendarDays_six_weeks 2024 2 ltac:(lia) ltac:(lia)
                  ltac:(lia) ltac:(lia) ltac:(lia) year_2024_in_range)).
Defined.

Lemma calendarDays_marks_the_month_witness :
  In {| date := Samples.mar15_00h00; isCurrentMonth := true |}
     (calendarDays 2024 2).
Proof.
  apply (proj2 (calendarDays_marks_the_month 2024 2 ltac:(lia) ltac:(lia)
                  ltac:(lia) ltac:(lia) ltac:(lia) year_2024_in_range) 15).
  vm_compute. split; discriminate.
Defined.

Lemma isInRange_by_days_witness :
  isInRange (Some Samples.mar15_10h00) None (Some Samples.mar20_00h00)
            Samples.mar15_20h00
  = isInRange (Some Samples.mar20_00h00) None (Some Samples.mar15_10h00)
              Samples.mar15_20h00.
Proof.
  apply (proj1 (proj2 (proj2
           (isInRange_by_days 1710496800000 0 1710892800000 1710532800000
              None ltac:(unfold maxTimeValue; lia)
              ltac:(unfold maxTimeValue; lia)
              ltac:(unfold maxTimeValue; lia)
              ltac:(unfold maxTimeValue; lia))))).
Defined.

Lemma keys_move_within_the_calendar_witness :
  targetDate 2024 2 ArrowDown Samples.mar15_10h00
  = DateAt (1710496800000 + 7 * msPerDay).
Proof.
  apply (proj1 (proj2 (proj2 (proj2
           (keys_move_within_the_calendar 2024 2 1710496800000
              ltac:(lia) ltac:(lia) ltac:(lia) ltac:(lia) ltac:(lia)
              year_2024_in_range
              ltac:(unfold maxTimeValue, msPerDay; lia)))))).
Defined.

End CalendarGridFacts.

(* ===================================================================== *)
(** * The presets *)
(* ===================================================================== *)

Module PresetsFacts.
Import Ecma EcmaExtra EcmaConv DateTs DateUtils TimezoneTs Rules.
Import DateTimeRangePickerTsx PresetsTs.
Import EcmaFacts TimezoneFacts DateUtilsFacts CalendarGridFacts.

(** ** Rounding *)

(** [Math.round] of a quotient of integers, on integers. *)
Lemma roundQuotient_Z (a b : Z) :
  b <> 0 -> roundQuotient a b = Some ((2 * a + b) / (2 * b)).
Proof.
  intros Hb. unfold roundQuotient.
  destruct (Z.eqb_spec b 0) as [|_]; [contradiction|]. f_equal.
  destruct b as [|p|p]; [contradiction| |].
  - unfold Qfloor, Qdiv, Qmult, Qplus, Qinv, inject_Z.
    cbn [Qnum Qden]. f_equal; lia.
  - unfold Qfloor, Qdiv, Qmult, Qplus, Qinv, inject_Z.
    cbn [Qnum Qden].
    rewrite <- (Z.div_opp_opp (2 * a + Z.neg p) (2 * Z.neg p)) by lia.
    f_equal; lia.
Qed.

Lemma time_fields (t : Z) :
  Day t * msPerDay
  + (HourFromTime t * msPerHour + MinFromTime t * msPerMinute
     + SecFromTime t * msPerSecond + msFromTime t) = t.
Proof.
  unfold Day, HourFromTime, MinFromTime, SecFromTime, msFromTime, msPerDay,
    msPerHour, msPerMinute, msPerSecond. euclid.
Qed.

Section Presets.
Variable LocalTZA : Z -> Z.

Lemma roundToInterval_DateAt (t i : Z) :
  i <> 0 ->
  roundToInterval LocalTZA (DateAt t) i
  = newDate (Day t * msPerDay
             + (HourFromTime t * msPerHour
                + (2 * MinFromTime (t + LocalTZA t) + i) / (2 * i) * i
                  * msPerMinute)).
Proof.
  intros Hi. unfold roundToInterval, getMinutes.
  rewrite (roundQuotient_Z _ _ Hi). cbn [option_map setUTCMinutes].
  unfold MakeDate, MakeTime. f_equal. lia.
Qed.

(** X19.  [roundToInterval] on a host whose local time differs from UTC by
    whole hours: the result is a whole minute, at most half an interval
    away from the minute of the date, and a multiple of the interval
    when the interval divides the hour.  An interval of 0 gives an
    invalid date. *)
Theorem roundToInterval_nearest (t i : Z) :
  0 < i -> LocalTZA t mod msPerHour = 0 ->
  i * msPerMinute - maxTimeValue <= t <= maxTimeValue - i * msPerMinute ->
  (exists r,
      roundToInterval LocalTZA (DateAt t) i = DateAt r /\
      r mod msPerMinute = 0 /\
      2 * Z.abs (r - (t - t mod msPerMinute)) <= i * msPerMinute /\
      (60 mod i = 0 -> r mod (i * msPerMinute) = 0)) /\
  roundToInterval LocalTZA (DateAt t) 0 = InvalidDate.
Proof.
  intros Hi Hoff Ht. split; [|reflexivity].
  rewrite (roundToInterval_DateAt t i) by lia.
  assert (Em : MinFromTime (t + LocalTZA t) = MinFromTime t).
  { unfold MinFromTime, msPerMinute, msPerHour in *.
    revert Hoff. generalize (LocalTZA t). intros o Ho. euclid. }
  rewrite Em. clear Em Hoff.
  pose proof (MinFromTime_range t) as Rm.
  pose proof (time_fields t) as Tf.
  pose proof (HourFromTime_range t) as Rh.
  assert (Rs : 0 <= SecFromTime t * msPerSecond + msFromTime t < msPerMinute)
    by (unfold SecFromTime, msFromTime, msPerSecond, msPerMinute; euclid).
  assert (Fl : t - t mod msPerMinute
               = Day t * msPerDay + HourFromTime t * msPerHour
                 + MinFromTime t * msPerMinute).
  { unfold Day, HourFromTime, MinFromTime, msPerDay, msPerHour,
      msPerMinute. euclid. }
  set (m := MinFromTime t) in *.
  set (k := (2 * m + i) / (2 * i)).
  assert (Hk : 2 * i * k <= 2 * m + i < 2 * i * (k + 1)).
  { unfold k. pose proof (Z.div_mod (2 * m + i) (2 * i) ltac:(lia)).
    pose proof (Z.mod_pos_bound (2 * m + i) (2 * i) ltac:(lia)). lia. }
  set (p := k * i) in *.
  assert (Hp : 2 * p <= 2 * m + i < 2 * p + 2 * i) by (unfold p; lia).
  set (r := Day t * msPerDay + (HourFromTime t * msPerHour + p * msPerMinute)).
  assert (Dr : r - (t - t mod msPerMinute) = (p - m) * msPerMinute)
    by (unfold r; rewrite Fl; lia).
  assert (M1 : msPerMinute = 60000) by reflexivity.
  assert (M2 : maxTimeValue = 8640000000000000) by reflexivity.
  assert (Rt : Z.abs (t mod msPerMinute) < msPerMinute)
    by (rewrite M1; pose proof (Z.mod_pos_bound t 60000); lia).
  exists r. split; [|split; [|split]].
  - apply newDate_in_range. lia.
  - unfold r, msPerDay, msPerHour, msPerMinute.
    generalize (Day t), (HourFromTime t). intros a b. euclid.
  - rewrite Dr. lia.
  - intros Hdiv.
    assert (E : r = (Day t * 24 * (60 / i) + HourFromTime t * (60 / i) + k)
                    * (i * msPerMinute)).
    { assert (H60 : i * (60 / i) = 60)
        by (pose proof (Z.div_mod 60 i ltac:(lia)); lia).
      revert H60. generalize (60 / i). intros c H60.
      unfold r, p, msPerDay, msPerHour. rewrite M1.
      replace 86400000 with (24 * (i * c) * 60000)
        by (rewrite H60; reflexivity).
      replace 3600000 with (i * c * 60000) by (rewrite H60; reflexivity).
      ring. }
    rewrite E. apply Z.mod_mul. lia.
Qed.

(** ** Relative presets *)

Lemma addHours_DateAt (r n : Z) :
  addHours (DateAt r) n = newDate (r + n * msPerHour).
Proof.
  unfold addHours, getUTCHours, dateField.
  rewrite TimePickerFacts.add_ofZ, TimePickerFacts.integral_ofZ.
  cbn [setUTCHoursOnly]. f_equal. unfold MakeDate, MakeTime.
  pose proof (time_fields r). lia.
Qed.

Lemma Day_shift (t k : Z) : Day (t + k * msPerDay) = Day t + k.
Proof. unfold Day, msPerDay. now rewrite Z.div_add by lia. Qed.

Lemma startOfDay_addDays (t k : Z) :
  - maxTimeValue <= t + k * msPerDay <= maxTimeValue ->
  startOfDay (addDays (DateAt t) k) = DateAt ((Day t + k) * msPerDay).
Proof.
  intros H. unfold addDays. rewrite addUTCDate_DateAt.
  rewrite (newDate_in_range _ H).
  destruct (RuleFacts.startOfDay_wf _ H) as [-> _]. now rewrite Day_shift.
Qed.

Lemma endOfDay_addDays (t k : Z) :
  - maxTimeValue <= t + k * msPerDay < maxTimeValue ->
  endOfDay (addDays (DateAt t) k)
  = DateAt ((Day t + k) * msPerDay + (msPerDay - 1)).
Proof.
  intros H. unfold addDays. rewrite addUTCDate_DateAt.
  rewrite newDate_in_range by lia.
  rewrite (endOfDay_wf _ H). now rewrite Day_shift.
Qed.

Lemma newDateUTCOf_ofZ (y m d : Z) :
  newDateUTCOf (Js.ofZ y) (Js.ofZ m) d = newDateOpt (Date_UTC y m d 0 0 0).
Proof.
  unfold newDateUTCOf. now rewrite !TimePickerFacts.integral_ofZ.
Qed.

Lemma newDateUTCOf_day (y m d : Z) :
  ~ (0 <= y <= 99) ->
  - maxTimeValue <= MakeDay y m d * msPerDay <= maxTimeValue ->
  newDateUTCOf (Js.ofZ y) (Js.ofZ m) d = DateAt (MakeDay y m d * msPerDay).
Proof.
  intros Hy R. rewrite newDateUTCOf_ofZ.
  unfold Date_UTC, MakeFullYear.
  replace ((0 <=? y) && (y <=? 99)) with false
    by (destruct (Z.leb_spec 0 y), (Z.leb_spec y 99); cbn [andb];
        try reflexivity; exfalso; lia).
  unfold MakeDate, MakeTime.
  replace (MakeDay y m d * msPerDay +
           (0 * msPerHour + 0 * msPerMinute + 0 * msPerSecond + 0))
    with (MakeDay y m d * msPerDay) by lia.
  rewrite (proj2 (TimeClip_Some _ _) (conj eq_refl R)).
  cbn [newDateOpt]. now apply newDate_in_range.
Qed.

Lemma startOfDay_midnight (n : Z) :
  - maxTimeValue <= n * msPerDay <= maxTimeValue ->
  startOfDay (DateAt (n * msPerDay)) = DateAt (n * msPerDay).
Proof.
  intros H. destruct (RuleFacts.startOfDay_wf _ H) as [-> _].
  now rewrite Day_mul.
Qed.

Lemma endOfDay_midnight (n : Z) :
  - maxTimeValue <= n * msPerDay < maxTimeValue ->
  endOfDay (DateAt (n * msPerDay)) = DateAt (n * msPerDay + (msPerDay - 1)).
Proof. intros H. rewrite (endOfDay_wf _ H). now rewrite Day_mul. Qed.

(** The first of the month before, through a month number of -1. *)
Lemma MakeDay_previous_month (y m : Z) :
  0 <= m <= 11 ->
  MakeDay y (m - 1) 1
  = MakeDay y m 1
    - DaysInMonth (if m =? 0 then y - 1 else y)
                  (if m =? 0 then 11 else m - 1).
Proof.
  intros Hm. destruct (previous_month_first y m Hm) as [Hpm E].
  cbv zeta in E. rewrite <- E.
  destruct (Z.eqb_spec m 0) as [->|N].
  - unfold MakeDay at 1. change ((0 - 1) / 12) with (-1).
    change ((0 - 1) mod 12) with 11.
    rewrite (MakeDay_first (y - 1) 11 1) by lia.
    replace (y + -1) with (y - 1) by lia. lia.
  - lia.
Qed.

(** X20.  The ranges of the relative presets for a clock reading [t], with
    [r] the clock rounded to the interval: three ranges of 1, 4 and 24
    hours ending at [r]; today, yesterday, the last 7 and the last 30
    days as whole UTC days (the last two run over 8 and 31 days, today
    included); this month from its first day to the end of today; last
    month from its first to its last millisecond.  Yesterday ends one
    millisecond before today starts, and last month one millisecond
    before this month. *)
Theorem relative_presets_ranges (t r i : Z) :
  roundToInterval LocalTZA (DateAt t) i = DateAt r ->
  msPerDay - maxTimeValue <= r <= maxTimeValue ->
  ~ (0 <= YearFromTime t <= 99) ->
  62 * msPerDay - maxTimeValue <= t <= maxTimeValue - msPerDay ->
  let day := msPerDay in
  let D := Day t in
  let F := D - (DateFromTime t - 1) in
  let P := DaysInMonth (if MonthFromTime t =? 0 then YearFromTime t - 1
                        else YearFromTime t)
                       (if MonthFromTime t =? 0 then 11
                        else MonthFromTime t - 1) in
  map ends (getRelativePresets (DateAt t) LocalTZA i)
  = [ (DateAt (r - msPerHour), DateAt r);
      (DateAt (r - 4 * msPerHour), DateAt r);
      (DateAt (r - 24 * msPerHour), DateAt r);
      (DateAt (D * day), DateAt ((D + 1) * day - 1));
      (DateAt ((D - 1) * day), DateAt (D * day - 1));
      (DateAt ((D - 7) * day), DateAt ((D + 1) * day - 1));
      (DateAt ((D - 30) * day), DateAt ((D + 1) * day - 1));
      (DateAt (F * day), DateAt ((D + 1) * day - 1));
      (DateAt ((F - P) * day), DateAt (F * day - 1)) ]
  /\ F <= D /\ 28 <= P <= 31.
Proof.
  intros Hr Rr Hy Rt day D F P.
  assert (M1 : msPerDay = 86400000) by reflexivity.
  assert (M2 : maxTimeValue = 8640000000000000) by reflexivity.
  assert (M3 : msPerHour = 3600000) by reflexivity.
  pose proof (Day_bounds t) as Bt. fold D in Bt.
  pose proof (DateFromTime_le_31 t) as Rd.
  pose proof (MonthFromTime_range t) as Rm.
  pose proof (MakeDay_fields t (1 - DateFromTime t)) as EF.
  replace (DateFromTime t + (1 - DateFromTime t)) with 1 in EF by lia.
  fold D in EF. replace (D + (1 - DateFromTime t)) with F in EF
    by (unfold F; lia).
  pose proof (MakeDay_previous_month (YearFromTime t) (MonthFromTime t) Rm)
    as EP.
  fold P in EP. rewrite EF in EP.
  assert (RP : 28 <= P <= 31).
  { unfold P. apply DaysInMonth_range.
    destruct (Z.eqb_spec (MonthFromTime t) 0); lia. }
  assert (E0 : MakeDay (YearFromTime t) (MonthFromTime t) 0 = F - 1).
  { rewrite (MakeDay_first _ _ _ Rm).
    rewrite (MakeDay_first _ _ _ Rm) in EF. lia. }
  split; [|split; [unfold F; lia | exact RP]].
  unfold getRelativePresets. rewrite Hr. cbn [map ends presetStart presetEnd].
  rewrite !addHours_DateAt.
  rewrite !(newDate_in_range (r + _ * msPerHour)) by lia.
  destruct (RuleFacts.startOfDay_wf t ltac:(lia)) as [-> _].
  rewrite (endOfDay_wf t) by lia.
  rewrite !startOfDay_addDays by lia.
  rewrite endOfDay_addDays by lia.
  unfold getUTCFullYear, getUTCMonth, dateField.
  rewrite TimePickerFacts.sub_ofZ.
  rewrite !newDateUTCOf_day by (rewrite ?EF, ?EP, ?E0; (exact Hy || lia)).
  rewrite EF, EP, E0.
  rewrite !startOfDay_midnight by lia.
  rewrite endOfDay_midnight by lia.
  fold D. unfold day, ends. cbn [presetStart presetEnd].
  repeat (f_equal; try lia).
Qed.

(** ** Absolute presets *)

Lemma quarter_days (Y : Z) :
  MakeDay Y 0 1 = DayFromYear Y /\
  MakeDay Y 2 31 = MakeDay Y 3 1 - 1 /\
  MakeDay Y 5 30 = MakeDay Y 6 1 - 1 /\
  MakeDay Y 8 30 = MakeDay Y 9 1 - 1 /\
  MakeDay Y 11 31 = DayFromYear (Y + 1) - 1 /\
  MakeDay Y 0 1 < MakeDay Y 3 1 < MakeDay Y 6 1 /\
  MakeDay Y 6 1 < MakeDay Y 9 1 < DayFromYear (Y + 1).
Proof.
  rewrite !MakeDay_first by lia. rewrite DayFromYear_succ.
  unfold DaysInYear. destruct (isLeap Y); cbn [monthStart]; lia.
Qed.

(** X21.  The four quarters that [getAbsolutePresets] returns split one
    calendar year into four adjacent ranges, from its first to its last
    millisecond.  That year is the UTC year of the clock as [Date.UTC]
    reads it: it holds the clock exactly when the year of the clock is
    not one of 0..99. *)
Theorem absolute_presets_quarters (t : Z) :
  let Y := MakeFullYear (YearFromTime t) in
  let q m := MakeDay Y m 1 in
  -271820 <= Y <= 275759 ->
  map ends (getAbsolutePresets (DateAt t))
  = [ (DateAt (q 0 * msPerDay), DateAt (q 3 * msPerDay - 1));
      (DateAt (q 3 * msPerDay), DateAt (q 6 * msPerDay - 1));
      (DateAt (q 6 * msPerDay), DateAt (q 9 * msPerDay - 1));
      (DateAt (q 9 * msPerDay), DateAt (DayFromYear (Y + 1) * msPerDay - 1)) ]
  /\ q 0 = DayFromYear Y
  /\ q 0 < q 3 < q 6 /\ q 6 < q 9 < DayFromYear (Y + 1)
  /\ (DayFromYear Y <= Day t < DayFromYear (Y + 1)
      <-> ~ (0 <= YearFromTime t <= 99))
  /\ map label (getAbsolutePresets (DateAt t))
     = map (fun s => (s ++ NumberToString (YearFromTime t))%string)
           ["Q1 "; "Q2 "; "Q3 "; "Q4 "]%string.
Proof.
  intros Y q HY.
  destruct (quarter_days Y) as (Q0 & Q1 & Q2 & Q3 & Q4 & O1 & O2).
  assert (M1 : msPerDay = 86400000) by reflexivity.
  assert (M2 : maxTimeValue = 8640000000000000) by reflexivity.
  assert (InR : forall m d, 0 <= m <= 11 -> 1 <= d <= 31 ->
                  - maxTimeValue <= MakeDay Y m d * msPerDay < maxTimeValue).
  { intros m d Hm Hd.
    pose proof (near_month_in_range Y m (MakeDay Y m d) HY Hm) as H.
    rewrite !(MakeDay_first _ _ _ Hm) in H.
    pose proof (near_month_in_range Y m (MakeDay Y m d + 1) HY Hm) as H'.
    rewrite !(MakeDay_first _ _ _ Hm) in H'.
    specialize (H ltac:(lia)). specialize (H' ltac:(lia)).
    rewrite (MakeDay_first _ _ _ Hm). lia. }
  assert (U : forall m d, 0 <= m <= 11 -> 1 <= d <= 31 ->
                newDateUTCOf (Js.ofZ (YearFromTime t)) (Js.ofZ m) d
                = DateAt (MakeDay Y m d * msPerDay)).
  { intros m d Hm Hd. rewrite newDateUTCOf_ofZ.
    unfold Date_UTC. fold Y. unfold MakeDate, MakeTime.
    replace (MakeDay Y m d * msPerDay +
             (0 * msPerHour + 0 * msPerMinute + 0 * msPerSecond + 0))
      with (MakeDay Y m d * msPerDay) by lia.
    pose proof (InR m d Hm Hd) as R.
    assert (R' : - maxTimeValue <= MakeDay Y m d * msPerDay <= maxTimeValue)
      by lia.
    rewrite (proj2 (TimeClip_Some _ _) (conj eq_refl R')).
    cbn [newDateOpt]. now apply newDate_in_range. }
  split; [|split; [exact Q0|split; [exact O1|split; [exact O2|split]]]].
  - unfold getAbsolutePresets, getUTCFullYear, dateField.
    cbn [map ends presetStart presetEnd].
    rewrite !U by lia.
    rewrite !startOfDay_midnight
      by (pose proof (InR 0 1); pose proof (InR 3 1); pose proof (InR 6 1);
          pose proof (InR 9 1); lia).
    rewrite !endOfDay_midnight by (apply InR; lia).
    rewrite Q1, Q2, Q3, Q4. unfold q, ends. cbn [presetStart presetEnd].
    repeat (f_equal; try lia).
  - pose proof (YearFromDay_spec (Day t)) as S.
    fold (YearFromTime t) in S. unfold Y, MakeFullYear.
    destruct (Z.leb_spec 0 (YearFromTime t)),
      (Z.leb_spec (YearFromTime t) 99); cbn [andb]; try (split; intros; lia).
    pose proof (DayFromYear_mono (YearFromTime t + 1) (1900 + YearFromTime t)
                  ltac:(lia)).
    split; intros; lia.
  - unfold getAbsolutePresets, getUTCFullYear, dateField.
    cbn [map label]. unfold textOf.
    assert (B : Z.abs (YearFromTime t) < 10 ^ 21).
    { assert (P : 10 ^ 21 = 1000000000000000000000) by reflexivity.
      unfold Y, MakeFullYear in HY.
      destruct ((0 <=? YearFromTime t) && (YearFromTime t <=? 99)); lia. }
    now rewrite (TimePickerFacts.numberToString_ofZ _ B).
Qed.

End Presets.

Lemma roundToInterval_nearest_witness :
  exists r,
    roundToInterval utcOffset (DateAt 1710498600000) 15 = DateAt r /\
    r mod msPerMinute = 0.
Proof.
  destruct (proj1 (roundToInterval_nearest utcOffset 1710498600000 15
                     ltac:(lia) eq_refl
                     ltac:(unfold maxTimeValue, msPerMinute; lia)))
    as (r & E & M & _).
  exists r. split; [exact E | exact M].
Defined.

Lemma relative_presets_ranges_witness :
  nth_error (map ends (getRelativePresets (DateAt 1710498600000) utcOffset 15))
            4
  = Some (DateAt ((Day 1710498600000 - 1) * msPerDay),
          DateAt (Day 1710498600000 * msPerDay - 1)).
Proof.
  destruct (relative_presets_ranges utcOffset 1710498600000 1710498600000 15)
    as [E _].
  - vm_compute. reflexivity.
  - unfold maxTimeValue, msPerDay. lia.
  - vm_compute. intros [_ H]. apply H. reflexivity.
  - unfold maxTimeValue, msPerDay. lia.
  - rewrite E. reflexivity.
Defined.

Lemma absolute_presets_quarters_witness :
  map label (getAbsolutePresets (DateAt 1710498600000))
  = map (fun s => (s ++ NumberToString (YearFromTime 1710498600000))%string)
        ["Q1 "; "Q2 "; "Q3 "; "Q4 "]%string.
Proof.
  apply (absolute_presets_quarters 1710498600000).
  vm_compute. split; discriminate.
Defined.

End PresetsFacts.

(* ===================================================================== *)
(** * More on the validator *)
(* ===================================================================== *)

Module ValidatorFacts.
Import Ecma DateTs Types ConstraintsTs Rules Samples.
Import EcmaFacts ConstraintsFacts RuleFacts Validator.

Lemma firstViolation_None_all (l : list (option ValidationError)) :
  firstViolation l = None -> forall o, In o l -> o = None.
Proof.
  induction l as [|[x|] l IH]; cbn [firstViolation]; intros H o Ho.
  - destruct Ho.
  - discriminate.
  - destruct Ho as [<-|Ho]; [reflexivity | now apply IH].
Qed.

Section WithNumber.
Variable Number : string -> Js.number.

Lemma ruleList_order (s e : Date) (c : ConstraintConfig) :
  map fst (ruleList Number s e c) = ruleOrder.
Proof. reflexivity. Qed.

Lemma accepted_no_violation (s e : Date) (c : ConstraintConfig) :
  wfDate s -> wfDate e ->
  validateRange Number (range s e) c = None ->
  forall u, In u ruleOrder -> ~ violated Number u s e c.
Proof.
  intros Ws We H u Hu V.
  rewrite validateRange_firstViolation in H.
  rewrite <- (ruleList_order s e c) in Hu.
  apply in_map_iff in Hu. destruct Hu as ([u' chk] & E & Hin).
  cbn [fst] in E. subst u'.
  destruct (proj1 (rule_outcomes Number s e c u chk Ws We Hin) V)
    as (x & -> & _).
  assert (N : Some x = None).
  { apply (firstViolation_None_all _ H). apply in_map_iff.
    now exists (u, Some x). }
  discriminate.
Qed.

(** X22.  [validateRange] accepts a complete range exactly when none of the
    eight rules is violated.  An accepted range of two valid dates
    starts strictly before it ends, not before a valid [minDate], and
    ends not after a valid [maxDate]. *)
Theorem accepted_iff_no_rule_violated (s e : Date) (c : ConstraintConfig) :
  wfDate s -> wfDate e ->
  (validateRange Number (range s e) c = None
   <-> forall u, In u ruleOrder -> ~ violated Number u s e c)
  /\ (validateRange Number (range s e) c = None ->
      forall a b, s = DateAt a -> e = DateAt b ->
        a < b /\
        (forall m, minDate c = Some (DateAt m) -> m <= a) /\
        (forall m, maxDate c = Some (DateAt m) -> b <= m)).
Proof.
  intros Ws We. split; [split|].
  - now apply accepted_no_violation.
  - intros H. rewrite validateRange_firstViolation.
    apply (firstViolation_none
             (fun u => violated Number u s e c) (ruleList Number s e c)).
    + intros u chk. now apply rule_outcomes.
    + exact H.
  - intros H a b -> ->.
    pose proof (accepted_no_violation _ _ _ Ws We H) as N.
    split; [|split].
    + assert (V : ~ notOrdered (DateAt a) (DateAt b))
        by (apply (N invalid_range); cbn; tauto).
      unfold notOrdered in V. rewrite date_ge_DateAt in V.
      destruct (Z.leb_spec b a); [now elim V | assumption].
    + intros m Hm.
      assert (V : ~ beforeMinDate (DateAt a) c)
        by (apply (N min_date); cbn; tauto).
      destruct (Z.ltb_spec a m) as [L|L]; [|exact L].
      elim V. exists (DateAt m). split; [exact Hm|].
      rewrite date_lt_DateAt. now apply Z.ltb_lt.
    + intros m Hm.
      assert (V : ~ afterMaxDate (DateAt b) c)
        by (apply (N max_date); cbn; tauto).
      destruct (Z.ltb_spec m b) as [L|L]; [|exact L].
      elim V. exists (DateAt m). split; [exact Hm|].
      rewrite date_gt_DateAt. now apply Z.ltb_lt.
Qed.

(** ** Invalid dates *)

Lemma checks_on_invalid_start (e : Date) (c : ConstraintConfig) :
  checkMinDate InvalidDate c = None /\
  checkOrder InvalidDate e = None /\
  checkMinDuration InvalidDate e c = None /\
  checkMaxDuration InvalidDate e c = None /\
  checkMinTime Number InvalidDate c = None.
Proof.
  unfold checkMinDate, checkOrder, checkMinDuration, checkMaxDuration,
    checkMinTime.
  repeat split.
  - now destruct (minDate c).
  - unfold date_ge, Js.ge, Js.le. cbn [getTime].
    now rewrite JsFacts.lt_NaN_r, JsFacts.seq_NaN_r.
  - rewrite Validator.durationMinutes_invalid_start.
    destruct (minDuration c); reflexivity.
  - rewrite Validator.durationMinutes_invalid_start.
    destruct (maxDuration c) as [m|]; [|reflexivity].
    unfold Js.gt. now rewrite JsFacts.lt_NaN_r.
  - now destruct (truthy (minTime c)).
Qed.

Lemma checks_on_invalid_end (s : Date) (c : ConstraintConfig) :
  checkMaxDate InvalidDate c = None /\
  checkOrder s InvalidDate = None /\
  checkMinDuration s InvalidDate c = None /\
  checkMaxDuration s InvalidDate c = None /\
  checkMaxTime Number InvalidDate c = None.
Proof.
  unfold checkMaxDate, checkOrder, checkMinDuration, checkMaxDuration,
    checkMaxTime.
  pose proof (Validator.durationMinutes_invalid_end s) as D.
  repeat split.
  - destruct (maxDate c) as [m|]; [|reflexivity].
    unfold date_gt, Js.gt. cbn [getTime]. now rewrite JsFacts.lt_NaN_r.
  - destruct (minDuration c); [|reflexivity]. now rewrite D.
  - destruct (maxDuration c) as [m|]; [|reflexivity].
    rewrite D. unfold Js.gt. now rewrite JsFacts.lt_NaN_r.
  - destruct (truthy (maxTime c)) as [str|]; [|reflexivity]. cbv zeta.
    unfold getUTCHours, getUTCMinutes, dateField, Js.gt.
    now rewrite !JsFacts.lt_NaN_r.
Qed.

Lemma checkBlackout_invalid (c : ConstraintConfig) :
  checkBlackout InvalidDate InvalidDate c = None.
Proof.
  unfold checkBlackout. destruct (blackoutDates c) as [bl|]; [|reflexivity].
  cbv zeta. rewrite !isBlackedOut_Invalid. reflexivity.
Qed.

(** X23.  [validateRange] does not reject invalid dates.  Every comparison
    with the [NaN] time value of an invalid date is false, so a range of
    two invalid dates is accepted under every configuration, and a range
    with one invalid date can only fail on a rule that reads the other
    date alone. *)
Theorem invalid_dates_are_not_rejected (c : ConstraintConfig) :
  validateRange Number (range InvalidDate InvalidDate) c = None /\
  (forall e x, validateRange Number (range InvalidDate e) c = Some x ->
     type x = max_date \/ type x = blackout \/ type x = max_time) /\
  (forall s x, validateRange Number (range s InvalidDate) c = Some x ->
     type x = min_date \/ type x = blackout \/ type x = min_time).
Proof.
  split; [|split].
  - destruct (checks_on_invalid_start InvalidDate c)
      as (A1 & A2 & A3 & A4 & A5).
    destruct (checks_on_invalid_end InvalidDate c) as (B1 & _ & _ & _ & B5).
    unfold validateRange, range. cbn [start end_].
    now rewrite A1, B1, checkBlackout_invalid, A2, A3, A4, A5, B5.
  - intros e x H.
    destruct (checks_on_invalid_start e c) as (A1 & A2 & A3 & A4 & A5).
    destruct (validateRange_error_source Number _ _ _ H)
      as (s' & e' & [= <-] & [= <-] & Hin).
    unfold ruleList in Hin. cbn [In] in Hin.
    rewrite A1, A2, A3, A4, A5 in Hin.
    destruct Hin as [E|[E|[E|[E|[E|[E|[E|[E|[]]]]]]]]];
      try discriminate E; injection E as <- _; auto.
  - intros s x H.
    destruct (checks_on_invalid_end s c) as (B1 & B2 & B3 & B4 & B5).
    destruct (validateRange_error_source Number _ _ _ H)
      as (s' & e' & [= <-] & [= <-] & Hin).
    unfold ruleList in Hin. cbn [In] in Hin.
    rewrite B1, B2, B3, B4, B5 in Hin.
    destruct Hin as [E|[E|[E|[E|[E|[E|[E|[E|[]]]]]]]]];
      try discriminate E; injection E as <- _; auto.
Qed.

(** ** Disabled dates *)

Lemma disabled_violates (a b : Z) (c : ConstraintConfig) :
  isDateDisabled (DateAt a) c = true \/ isDateDisabled (DateAt b) c = true ->
  beforeMinDate (DateAt a) c \/ afterMaxDate (DateAt b) c \/
  hitsBlackout (DateAt a) (DateAt b) c \/ notOrdered (DateAt a) (DateAt b).
Proof.
  unfold isDateDisabled, beforeMinDate, afterMaxDate, hitsBlackout,
    notOrdered.
  rewrite date_ge_DateAt.
  destruct (Z.leb_spec b a) as [L|L]; [auto|].
  intros [H|H].
  - destruct (minDate c) as [m|] eqn:Em.
    + destruct (date_lt (DateAt a) m) eqn:E1; [left; now exists m|].
      destruct (maxDate c) as [M|] eqn:EM.
      * destruct (date_gt (DateAt a) M) eqn:E2.
        { right. left. exists M. split; [reflexivity|].
          destruct M as [|M]; [discriminate E2|].
          rewrite date_gt_DateAt in *. apply Z.ltb_lt.
          apply Z.ltb_lt in E2. lia. }
        destruct (isBlackedOut (DateAt a) (blackoutDates c)) eqn:E3;
          [|discriminate].
        right. right. left. destruct (blackoutDates c) as [bl|];
          [|discriminate]. exists bl. auto.
      * destruct (isBlackedOut (DateAt a) (blackoutDates c)) eqn:E3;
          [|discriminate].
        right. right. left. destruct (blackoutDates c) as [bl|];
          [|discriminate]. exists bl. auto.
    + destruct (maxDate c) as [M|] eqn:EM.
      * destruct (date_gt (DateAt a) M) eqn:E2.
        { right. left. exists M. split; [reflexivity|].
          destruct M as [|M]; [discriminate E2|].
          rewrite date_gt_DateAt in *. apply Z.ltb_lt.
          apply Z.ltb_lt in E2. lia. }
        destruct (isBlackedOut (DateAt a) (blackoutDates c)) eqn:E3;
          [|discriminate].
        right. right. left. destruct (blackoutDates c) as [bl|];
          [|discriminate]. exists bl. auto.
      * destruct (isBlackedOut (DateAt a) (blackoutDates c)) eqn:E3;
          [|discriminate].
        right. right. left. destruct (blackoutDates c) as [bl|];
          [|discriminate]. exists bl. auto.
  - destruct (minDate c) as [m|] eqn:Em.
    + destruct (date_lt (DateAt b) m) eqn:E1.
      { left. exists m. split; [reflexivity|].
        destruct m as [|m]; [discriminate E1|].
        rewrite date_lt_DateAt in *. apply Z.ltb_lt.
        apply Z.ltb_lt in E1. lia. }
      destruct (maxDate c) as [M|] eqn:EM.
      * destruct (date_gt (DateAt b) M) eqn:E2;
          [right; left; now exists M|].
        destruct (isBlackedOut (DateAt b) (blackoutDates c)) eqn:E3;
          [|discriminate].
        right. right. left. destruct (blackoutDates c) as [bl|];
          [|discriminate]. exists bl. auto.
      * destruct (isBlackedOut (DateAt b) (blackoutDates c)) eqn:E3;
          [|discriminate].
        right. right. left. destruct (blackoutDates c) as [bl|];
          [|discriminate]. exists bl. auto.
    + destruct (maxDate c) as [M|] eqn:EM.
      * destruct (date_gt (DateAt b) M) eqn:E2;
          [right; left; now exists M|].
        destruct (isBlackedOut (DateAt b) (blackoutDates c)) eqn:E3;
          [|discriminate].
        right. right. left. destruct (blackoutDates c) as [bl|];
          [|discriminate]. exists bl. auto.
      * destruct (isBlackedOut (DateAt b) (blackoutDates c)) eqn:E3;
          [|discriminate].
        right. right. left. destruct (blackoutDates c) as [bl|];
          [|discriminate]. exists bl. auto.
Qed.

(** X24.  A range of two valid dates one of which [isDateDisabled] disables
    is never accepted: [validateRange] reports [min_date], [max_date],
    [blackout] or [invalid_range].  The converse fails, a range between
    two enabled dates can still cross a blacked-out day. *)
Theorem disabled_endpoint_is_rejected (a b : Z) (c : ConstraintConfig) :
  - maxTimeValue <= a <= maxTimeValue ->
  - maxTimeValue <= b <= maxTimeValue ->
  isDateDisabled (DateAt a) c = true \/ isDateDisabled (DateAt b) c = true ->
  exists x,
    validateRange Number (range (DateAt a) (DateAt b)) c = Some x /\
    (type x = min_date \/ type x = max_date \/ type x = blackout \/
     type x = invalid_range).
Proof.
  intros Wa Wb H. apply disabled_violates in H.
  assert (O : forall t chk,
             In (t, chk) (ruleList Number (DateAt a) (DateAt b) c) ->
             (violated Number t (DateAt a) (DateAt b) c ->
              exists x, chk = Some x /\ type x = t) /\
             (~ violated Number t (DateAt a) (DateAt b) c -> chk = None))
    by (intros t chk; now apply rule_outcomes).
  unfold validateRange, range. cbn [start end_].
  unfold ruleList in O.
  destruct (checkMinDate (DateAt a) c) as [x|] eqn:E1.
  { exists x. split; [reflexivity|]. left.
    apply (ruleList_types Number (DateAt a) (DateAt b) c min_date
             (checkMinDate (DateAt a) c) x); [now left | exact E1]. }
  destruct (checkMaxDate (DateAt b) c) as [x|] eqn:E2.
  { exists x. split; [reflexivity|]. right. left.
    apply (ruleList_types Number (DateAt a) (DateAt b) c max_date
             (checkMaxDate (DateAt b) c) x);
      [right; now left | exact E2]. }
  destruct (checkBlackout (DateAt a) (DateAt b) c) as [x|] eqn:E3.
  { exists x. split; [reflexivity|]. right. right. left.
    apply (ruleList_types Number (DateAt a) (DateAt b) c blackout
             (checkBlackout (DateAt a) (DateAt b) c) x);
      [right; right; now left | exact E3]. }
  destruct (checkOrder (DateAt a) (DateAt b)) as [x|] eqn:E4.
  { exists x. split; [reflexivity|]. right. right. right.
    apply (ruleList_types Number (DateAt a) (DateAt b) c invalid_range
             (checkOrder (DateAt a) (DateAt b)) x);
      [right; right; right; now left | exact E4]. }
  exfalso. destruct H as [V|[V|[V|V]]].
  - destruct (proj1 (O min_date None (or_introl eq_refl)) V) as (x & [=] & _).
  - destruct (proj1 (O max_date None (or_intror (or_introl eq_refl))) V)
      as (x & [=] & _).
  - destruct (proj1 (O blackout None
                       (or_intror (or_intror (or_introl eq_refl)))) V)
      as (x & [=] & _).
  - destruct (proj1 (O invalid_range None
                       (or_intror (or_intror (or_intror (or_introl eq_refl)))))
                    V) as (x & [=] & _).
Qed.

End WithNumber.

Lemma accepted_iff_no_rule_violated_witness :
  validateRange NumberOfDigits (range mar15_10h00 mar15_14h00)
                (onlyMinDate mar15_00h00) = None /\
  1710496800000 < 1710511200000.
Proof.
  assert (H : validateRange NumberOfDigits (range mar15_10h00 mar15_14h00)
                            (onlyMinDate mar15_00h00) = None)
    by (vm_compute; reflexivity).
  split; [exact H|].
  apply (proj2 (accepted_iff_no_rule_violated NumberOfDigits mar15_10h00
                  mar15_14h00 (onlyMinDate mar15_00h00)
                  ltac:(unfold wfDate, mar15_10h00, maxTimeValue; lia)
                  ltac:(unfold wfDate, mar15_14h00, maxTimeValue; lia))
               H _ _ eq_refl eq_refl).
Defined.

Lemma disabled_endpoint_is_rejected_witness :
  exists x,
    validateRange NumberOfDigits (range mar15_10h00 mar20_00h00)
                  (onlyMinDate mar20_00h00) = Some x /\
    (type x = min_date \/ type x = max_date \/ type x = blackout \/
     type x = invalid_range).
Proof.
  apply (disabled_endpoint_is_rejected NumberOfDigits 1710496800000
           1710892800000 (onlyMinDate mar20_00h00)).
  - unfold maxTimeValue. lia.
  - unfold maxTimeValue. lia.
  - left. vm_compute. reflexivity.
Defined.

End ValidatorFacts.
